(** * plane_reconstructor: the RANSAC plane-extraction pipeline

    A shallow embedding of [ransac_detector.py] and the properties of its
    functions: [crop_depth_map], [get_connected_components],
    [_get_plane_from_pcd], [extract_planes_con], [get_plane_img],
    [close_map] and [loss_metric].

    Numbers are modelled as the interpreter has them: Python integers are
    [Z], and floating-point values are IEEE-754 binary64 numbers, given by
    the Standard Library's executable specification [SpecFloat] (round to
    nearest, ties to even).  Arrays are two-dimensional, row-major numpy
    arrays; those that [extract_planes_con] receives, copies and updates
    in place live in a store and are passed by reference.  Exceptions are
    results ([Py.res]), and the [while] loop runs on fuel ([Py.outcome]).

    Open3D, OpenCV, Python's [random] and the C library are external
    collaborators.  They enter through four interfaces, [Open3D]
    (back-projection and the randomized RANSAC fit), [OpenCV] (labelling
    and morphological closing), [PyRandom] (the colours of
    [get_plane_img]) and [Libm] (the [pow] behind [v ** 2], with the laws
    the C standard gives it); what else a property needs of them is a
    hypothesis of its theorem.

    The file has two parts: the embedding (modules [Py], [F64], [Np],
    [Detector], and [Sim], a set of simple collaborators and inputs to run
    the functions on), then the properties. *)

From Stdlib Require Import ZArith Lia Bool.
From Stdlib Require Import Floats.SpecFloat.
From stdpp Require Import base option list gmap strings.

Open Scope Z_scope.

(** ** Python exceptions and results *)

Module Py.

Inductive exn : Type :=
| ValueError
| OverflowError
| ZeroDivisionError
| IndexError
| TypeError
| KeyError (key : string)
| LibraryError (code : Z).

(** The result of an expression: a value or a raised exception. *)
Inductive res (A : Type) : Type :=
| Ok (a : A)
| Err (e : exn).
Arguments Ok {A} a.
Arguments Err {A} e.

Definition bind {A B} (r : res A) (k : A -> res B) : res B :=
  match r with
  | Ok a => k a
  | Err e => Err e
  end.

(** [[f x for x in l]]: the first exception stops the comprehension. *)
Fixpoint traverse {A B} (f : A -> res B) (l : list A) : res (list B) :=
  match l with
  | [] => Ok []
  | x :: l' => bind (f x) (fun y => bind (traverse f l') (fun ys => Ok (y :: ys)))
  end.

(** The outcome of a loop run with a bound on its iterations. *)
Inductive outcome (A : Type) : Type :=
| Done (a : A)
| Raised (e : exn)
| OutOfFuel.
Arguments Done {A} a.
Arguments Raised {A} e.
Arguments OutOfFuel {A}.

End Py.
Import Py.

Notation "'let*' x := r 'in' k" := (Py.bind r (fun x => k))
  (at level 10, x name, r at level 100, k at level 200).
Notation "'let*' ' p := r 'in' k" := (Py.bind r (fun p => k))
  (at level 10, p strict pattern, r at level 100, k at level 200).

(** ** Binary64 floating-point numbers *)

Module F64.

Definition prec : Z := 53.
Definition emax : Z := 1024.

Abbreviation float := spec_float.

Definition of_Z (z : Z) : float := binary_normalize prec emax z 0 false.

Definition zero : float := S754_zero false.
Definition one : float := Eval vm_compute in of_Z 1.
Definition nan : float := S754_nan.

Definition add : float -> float -> float := SFadd prec emax.
Definition sub : float -> float -> float := SFsub prec emax.
Definition mul : float -> float -> float := SFmul prec emax.
Definition div : float -> float -> float := SFdiv prec emax.
Definition sqrt : float -> float := SFsqrt prec emax.
Definition abs : float -> float := SFabs.
Definition opp : float -> float := SFopp.
Definition ltb : float -> float -> bool := SFltb.
Definition leb : float -> float -> bool := SFleb.
Definition eqb : float -> float -> bool := SFeqb.

(** [x != 0]: true of NaN, false of both zeros. *)
Definition nonzero (x : float) : bool := negb (eqb x zero).

Definition is_nan (x : float) : bool :=
  match x with S754_nan => true | _ => false end.

Definition is_finite (x : float) : bool :=
  match x with
  | S754_zero _ | S754_finite _ _ _ => true
  | _ => false
  end.

(** [float(n)] of a Python integer: correctly rounded, and an
    [OverflowError] when the integer is too large for a double. *)
Definition of_int (z : Z) : res float :=
  match of_Z z with
  | S754_infinity _ => Err OverflowError
  | f => Ok f
  end.

(** [int(x)]: truncation toward zero; infinities and NaN raise. *)
Definition to_int (x : float) : res Z :=
  match x with
  | S754_zero _ => Ok 0
  | S754_finite s m e => Ok (cond_Zopp s (Z.shiftl (Zpos m) e))
  | S754_infinity _ => Err OverflowError
  | S754_nan => Err ValueError
  end.

(** [math.floor(x)]: the largest integer below or equal to [x]. *)
Definition floor (x : float) : res Z :=
  match x with
  | S754_zero _ => Ok 0
  | S754_finite false m e => Ok (Z.shiftl (Zpos m) e)
  | S754_finite true m e => Ok (Z.shiftl (Zneg m) e)
  | S754_infinity _ => Err OverflowError
  | S754_nan => Err ValueError
  end.

(** [np.float32(x)]: rounding to binary32; the result is kept as the
    binary64 number of the same value (every binary32 number is one). *)
Definition to_f32 (x : float) : float :=
  match x with
  | S754_finite s m e =>
      match binary_round 24 128 s m e with
      | S754_finite s' m' e' => binary_round prec emax s' m' e'
      | y => y
      end
  | _ => x
  end.

(** A positive number after rounding: finite or infinite with the given
    sign; not a zero and not NaN. *)
Definition signed_pos (s : bool) (x : float) : Prop :=
  (exists m e, x = S754_finite s m e) \/ x = S754_infinity s.

(** The sign of a number; the NaN of the model has none. *)
Definition sign_of (x : float) : option bool :=
  match x with
  | S754_zero s | S754_infinity s | S754_finite s _ _ => Some s
  | S754_nan => None
  end.

(** Not below zero and not [-0.0]: the number is [+0.0], positive,
    [+inf], or NaN.  The NaN of the model carries no sign, and of a NaN
    nothing is said: in particular not that its sign bit is clear. *)
Definition not_negative (x : float) : bool :=
  match sign_of x with
  | Some true => false
  | _ => true
  end.

End F64.

Abbreviation float := F64.float.

(** ** numpy arrays *)

Module Np.

(** A two-dimensional array in row-major (C) order. *)
Record ndarray (A : Type) : Type := mk_ndarray {
  nrows : nat;
  ncols : nat;
  cells : list A
}.
Arguments mk_ndarray {A} nrows ncols cells.
Arguments nrows {A}.
Arguments ncols {A}.
Arguments cells {A}.

Definition shape {A} (a : ndarray A) : nat * nat := (nrows a, ncols a).

(** An array holds exactly one cell per position of its shape. *)
Definition wf {A} (a : ndarray A) : Prop :=
  length (cells a) = (nrows a * ncols a)%nat.

Definition same_shape {A B} (a : ndarray A) (b : ndarray B) : bool :=
  (nrows a =? nrows b)%nat && (ncols a =? ncols b)%nat.

(** [a.size] *)
Definition size {A} (a : ndarray A) : nat := length (cells a).

(** Two arrays of one shape and one size. *)
Definition like {A B} (a : ndarray A) (b : ndarray B) : bool :=
  same_shape a b && (length (cells a) =? length (cells b))%nat.

(** A unary ufunc, [a.astype], [np.where(cond(a), x, y)] of one array. *)
Definition map {A B} (f : A -> B) (a : ndarray A) : ndarray B :=
  mk_ndarray (nrows a) (ncols a) (f <$> cells a).

(** [np.zeros(shape)], [np.ones(shape)]. *)
Definition full {A} (sh : nat * nat) (v : A) : ndarray A :=
  mk_ndarray (fst sh) (snd sh) (replicate (fst sh * snd sh) v).

(** Broadcasting of one axis: equal lengths, or one of them is 1. *)
Definition bdim (n m : nat) : option nat :=
  if (n =? m)%nat then Some n
  else if (n =? 1)%nat then Some m
  else if (m =? 1)%nat then Some n
  else None.

(** The cell of [a] that position [(i, j)] of a broadcast result reads. *)
Definition bget {A} (a : ndarray A) (i j : nat) : option A :=
  cells a !! ((if (nrows a =? 1)%nat then 0 else i) * ncols a
              + (if (ncols a =? 1)%nat then 0 else j))%nat.

(** A binary ufunc ([*], [np.logical_and]): cell by cell on arrays of one
    shape, by broadcasting when an axis of length 1 allows it, and a
    [ValueError] otherwise. *)
Definition binop {A B C} (f : A -> B -> C) (a : ndarray A) (b : ndarray B)
  : res (ndarray C) :=
  if same_shape a b then
    Ok (mk_ndarray (nrows a) (ncols a) (zip_with f (cells a) (cells b)))
  else
    match bdim (nrows a) (nrows b), bdim (ncols a) (ncols b) with
    | Some r, Some c =>
        match mapM (fun k => x ← bget a (k / c) (k mod c);
                             y ← bget b (k / c) (k mod c);
                             Some (f x y)) (seq 0 (r * c)) with
        | Some l => Ok (mk_ndarray r c l)
        | None => Err ValueError
        end
    | _, _ => Err ValueError
    end.

(** Flat indices of the cells that satisfy [p], in increasing order. *)
Fixpoint find_from {A} (p : A -> bool) (i : nat) (l : list A) : list nat :=
  match l with
  | [] => []
  | v :: l' => if p v then i :: find_from p (S i) l' else find_from p (S i) l'
  end.

(** [np.where(a)] of a 2-D array: the coordinates [(x, y)] of the cells
    that satisfy [p], in row-major order (the pair of index arrays, zipped). *)
Definition where_ {A} (p : A -> bool) (a : ndarray A) : list (nat * nat) :=
  (fun i => ((i / ncols a)%nat, (i mod ncols a)%nat)) <$> find_from p 0 (cells a).

(** [l[idx]] with an integer index list: negative indices count from the
    end, an index out of range raises [IndexError]. *)
Definition take {A} (l : list A) (idx : list Z) : res (list A) :=
  traverse (fun k =>
    let n := Z.of_nat (length l) in
    if (0 <=? k) && (k <? n) then
      match l !! Z.to_nat k with Some v => Ok v | None => Err IndexError end
    else if (- n <=? k) && (k <? 0) then
      match l !! Z.to_nat (k + n) with Some v => Ok v | None => Err IndexError end
    else Err IndexError) idx.

(** [a[x, y] = v] for one position. *)
Definition set_at {A} (v : A) (a : ndarray A) (p : nat * nat) : res (ndarray A) :=
  if (fst p <? nrows a)%nat && (snd p <? ncols a)%nat then
    Ok (mk_ndarray (nrows a) (ncols a)
          (<[(fst p * ncols a + snd p)%nat := v]> (cells a)))
  else Err IndexError.

(** [a[xs, ys] = v] with index arrays: numpy checks every position before
    it writes any. *)
Definition set_all {A} (v : A) (a : ndarray A) (ps : list (nat * nat))
  : res (ndarray A) :=
  if forallb (fun p => (fst p <? nrows a)%nat && (snd p <? ncols a)%nat) ps then
    Ok (mk_ndarray (nrows a) (ncols a)
          (foldl (fun l p => <[(fst p * ncols a + snd p)%nat := v]> l) (cells a) ps))
  else Err IndexError.

(** [a.sum()] of an integer array. *)
Definition sum (a : ndarray Z) : Z := foldr Z.add 0 (cells a).

(** [len(np.argwhere(a))]: the number of non-zero cells. *)
Definition count_nonzero {A} (p : A -> bool) (a : ndarray A) : nat :=
  length (filter (fun v => p v = true) (cells a)).

End Np.

Abbreviation ndarray := Np.ndarray.

(** ** External collaborators *)

(** A point of a cloud, [(x, y, z)]. *)
Definition point : Type := float * float * float.

(** The coefficients [(a, b, c, d)] of a plane [ax + by + cz + d = 0]. *)
Definition plane_model : Type := float * float * float * float.

(** Open3D: back-projection of a depth image through [DEFAULT_CAM], and the
    RANSAC plane fit, which draws from a random generator. *)
Class Open3D : Type := {
  rng : Type;
  create_from_depth_image : ndarray float -> res (list point);
  segment_plane :
    rng -> list point -> float -> nat -> nat -> rng * res (plane_model * list Z)
}.

(** OpenCV: connected-component labelling of a [uint8] image (the number of
    labels and the label of each pixel), and [morphologyEx] with
    [MORPH_CLOSE]. *)
Class OpenCV : Type := {
  connectedComponents : ndarray Z -> res (Z * ndarray Z);
  morphologyEx_close : ndarray Z -> ndarray Z -> res (ndarray Z)
}.

(** Python's [random] module: [randint(a, b)] draws an integer from the
    state of the generator. *)
Class PyRandom : Type := {
  seed : Type;
  randint : seed -> Z -> Z -> seed * Z
}.

(** The C library: [pow] at the exponent 2.0, which is what [v ** 2]
    calls on a float scalar.  Its result is close to the product [v * v]
    but need not be its correct rounding, so the function is left open.
    What the C standard (Annex F) and the even exponent settle are its
    laws: [pow(+0.0, 2.0)] is [+0.0], no result is negative or [-0.0],
    and [v] and [-v] have the same square. *)
Class Libm : Type := {
  pow_2 : float -> float;
  pow_2_zero : pow_2 F64.zero = F64.zero;
  pow_2_not_negative : forall v, F64.not_negative (pow_2 v) = true;
  pow_2_even : forall v, pow_2 (F64.opp v) = pow_2 v
}.

(** ** The detector *)

Module Detector.

(** *** [crop_depth_map] *)

(** The [threshold] argument: a callable or a number. *)
Inductive threshold : Type :=
| Callable (f : list float -> res float)
| Number (t : float).

(** [np.vectorize(f)(a)]: refuses an array without cells. *)
Definition vectorize {A B} (f : A -> B) (a : ndarray A) : res (ndarray B) :=
  if (Np.size a =? 0)%nat then Err ValueError else Ok (Np.map f a).

(** [lambda x: 1 / x if x > 0 else x] *)
Definition inverse_depth (x : float) : float :=
  if F64.ltb F64.zero x then F64.div F64.one x else x.

(** The cutoff [t]: the callable applied to the positive cells of [tmp],
    flattened, or the number itself. *)
Definition cutoff (tmp : ndarray float) (th : threshold) : res float :=
  match th with
  | Callable f => f (filter (fun v => F64.ltb F64.zero v = true) (Np.cells tmp))
  | Number t => Ok t
  end.

Definition crop_depth_map (depth_map : ndarray float) (th : threshold)
  : res (ndarray float * nat) :=
  let* tmp := vectorize inverse_depth depth_map in
  let* t := cutoff tmp th in
  let ans := Np.map (fun v => if F64.ltb v t then v else F64.zero) tmp in
  Ok (ans, Np.count_nonzero F64.nonzero ans).

(** *** [get_connected_components] *)

(** [range(lo, hi)] *)
Definition range (lo hi : Z) : list Z :=
  (fun k => lo + Z.of_nat k) <$> seq 0 (Z.to_nat (hi - lo)).

(** [np.uint8(np.where(depth_map > 0, 1, 0))] *)
Definition foreground (depth_map : ndarray float) : ndarray Z :=
  Np.map (fun v => if F64.ltb F64.zero v then 1 else 0) depth_map.

(** [np.where(result == i, 1, 0)] *)
Definition label_mask (result : ndarray Z) (i : Z) : ndarray Z :=
  Np.map (fun l => if l =? i then 1 else 0) result.

(** [depth_map * map_arr]: a float array times an integer array. *)
Definition masked (depth_map : ndarray float) (map_arr : ndarray Z)
  : res (ndarray float) :=
  Np.binop (fun d m => F64.mul d (F64.of_Z m)) depth_map map_arr.

(** The body of the loop over the labels, from the accumulated [ans]. *)
Fixpoint components_loop (depth_map : ndarray float) (th : float)
    (count_pixels : Z) (result : ndarray Z) (labels : list Z)
    (ans : list (ndarray float * ndarray Z))
  : res (list (ndarray float * ndarray Z)) :=
  match labels with
  | [] => Ok ans
  | i :: rest =>
      let map_arr := label_mask result i in
      if F64.leb (F64.mul th (F64.of_Z count_pixels)) (F64.of_Z (Np.sum map_arr))
      then
        let* prod := masked depth_map map_arr in
        components_loop depth_map th count_pixels result rest
          (ans ++ [(Np.map F64.to_f32 prod, map_arr)])
      else components_loop depth_map th count_pixels result rest ans
  end.

Definition get_connected_components `{OpenCV} (depth_map : ndarray float)
    (th : float) : res (list (ndarray float * ndarray Z)) :=
  let arr := foreground depth_map in
  let count_pixels := Np.sum arr in
  let* '(num, result) := connectedComponents arr in
  components_loop depth_map th count_pixels result (range 1 num) [].

(** *** [_get_plane_from_pcd] *)

(** One row of a 4x4 matrix applied to [(x, y, z, 1)]. *)
Definition row_apply (r : float * float * float * float) (p : point) : float :=
  let '(a, b, c, d) := r in
  let '(x, y, z) := p in
  F64.add (F64.add (F64.add (F64.mul a x) (F64.mul b y)) (F64.mul c z))
          (F64.mul d F64.one).

(** [pcd.transform(m)]: the homogeneous transform of one point. *)
Definition transform
    (m : (float * float * float * float) * (float * float * float * float)
       * (float * float * float * float) * (float * float * float * float))
    (p : point) : point :=
  let '(r0, r1, r2, r3) := m in
  let w := row_apply r3 p in
  (F64.div (row_apply r0 p) w, F64.div (row_apply r1 p) w,
   F64.div (row_apply r2 p) w).

(** [[[1, 0, 0, 0], [0, -1, 0, 0], [0, 0, -1, 0], [0, 0, 0, 1]]] *)
Definition flip_yz :=
  let o := F64.one in
  let z := F64.zero in
  let n := F64.opp F64.one in
  ((o, z, z, z), (z, n, z, z), (z, z, n, z), (z, z, z, o)).

(** [np.maximum], [np.minimum]: a NaN operand is the result. *)
Definition fmax (a b : float) : float :=
  if F64.is_nan a then a else if F64.is_nan b then b
  else if F64.ltb a b then b else a.
Definition fmin (a b : float) : float :=
  if F64.is_nan a then a else if F64.is_nan b then b
  else if F64.ltb b a then b else a.

(** [np.max(arr)], [np.min(arr)]: a [ValueError] on an empty array. *)
Definition np_reduce (f : float -> float -> float) (l : list float) : res float :=
  match l with
  | [] => Err ValueError
  | x :: l' => Ok (foldl f x l')
  end.

(** [np.asarray(pcd.points)], flattened. *)
Definition coordinates (pcd : list point) : list float :=
  pcd ≫= (fun p => let '(x, y, z) := p in [x; y; z]).

Definition _get_plane_from_pcd `{Open3D} (g : rng) (depth_map : ndarray float)
  : rng * res (plane_model * list Z) :=
  let img_3d := Np.map F64.to_f32 depth_map in
  match create_from_depth_image img_3d with
  | Err e => (g, Err e)
  | Ok pcd0 =>
      let pcd := transform flip_yz <$> pcd0 in
      let arr := coordinates pcd in
      match np_reduce fmax arr with
      | Err e => (g, Err e)
      | Ok mx =>
          match np_reduce fmin arr with
          | Err e => (g, Err e)
          | Ok mn =>
              let th := F64.div (F64.abs (F64.sub mx mn)) (F64.of_Z 100) in
              segment_plane g pcd th 3%nat 100%nat
          end
      end
  end.

(** *** [extract_planes_con] *)

(** Arrays live in a store and are passed by reference: [map_arr] and
    [depth_map] are the caller's objects, [copy.deepcopy] and [np.zeros]
    allocate new ones, and [a[x, y] = v] updates an object in place.  A
    mask is an integer array (a boolean one holds 0 and 1). *)
Inductive obj : Type :=
| IntArr (a : ndarray Z)
| FloatArr (a : ndarray float).

Definition loc : Type := nat.

(** The objects by address, and the state of the random generator. *)
Record store (R : Type) : Type := mk_store {
  heap : list obj;
  gen : R
}.
Arguments mk_store {R} heap gen.
Arguments heap {R} s.
Arguments gen {R} s.

(** The state of a run, for the generator of the Open3D at hand. *)
Definition state `{Open3D} : Type := store rng.

Section Store.
Context `{Open3D}.

(** A statement: it may update the store, and returns or raises. *)
Definition M (A : Type) : Type := state -> state * res A.

Definition ret {A} (a : A) : M A := fun s => (s, Ok a).

Definition bindM {A B} (m : M A) (k : A -> M B) : M B :=
  fun s =>
    match m s with
    | (s', Ok a) => k a s'
    | (s', Err e) => (s', Err e)
    end.

Definition lift {A} (r : res A) : M A := fun s => (s, r).

(** A new object, at an address no object has yet. *)
Definition alloc (o : obj) : M loc :=
  fun s => (mk_store (heap s ++ [o]) (gen s), Ok (length (heap s))).

Definition read_int (l : loc) : M (ndarray Z) :=
  fun s =>
    (s, match heap s !! l with
        | Some (IntArr a) => Ok a
        | _ => Err TypeError
        end).

Definition read_float (l : loc) : M (ndarray float) :=
  fun s =>
    (s, match heap s !! l with
        | Some (FloatArr a) => Ok a
        | _ => Err TypeError
        end).

Definition write (l : loc) (o : obj) : M unit :=
  fun s => (mk_store (<[l := o]> (heap s)) (gen s), Ok tt).

(** [copy.deepcopy(a)] *)
Definition deepcopy (l : loc) : M loc :=
  fun s =>
    match heap s !! l with
    | Some o => alloc o s
    | None => (s, Err TypeError)
    end.

(** The plane fit of a temporary array, advancing the generator. *)
Definition fit (depth_map : ndarray float) : M (plane_model * list Z) :=
  fun s =>
    let '(g, r) := _get_plane_from_pcd (gen s) depth_map in
    (mk_store (heap s) g, r).

End Store.

Notation "'do*' x := m 'in' k" := (bindM m (fun x => k))
  (at level 10, x name, m at level 100, k at level 200).
Notation "'do*' ' p := m 'in' k" := (bindM m (fun p => k))
  (at level 10, p strict pattern, m at level 100, k at level 200).

(** [count >= int(start_size * t)] *)
Definition loop_test (count start_size : Z) (t : float) : res bool :=
  let* f := F64.of_int start_size in
  let* bound := F64.to_int (F64.mul f t) in
  Ok (bound <=? count).

(** [np.where(curr_map_arr)] *)
Definition support (a : ndarray Z) : list (nat * nat) :=
  Np.where_ (fun v => negb (v =? 0)) a.

Section Extract.
Context `{Open3D}.

(** One iteration of the [while] loop, from [count] and [result]. *)
Definition loop_body (curr_map_arr depth_map : loc)
    (st : Z * list (loc * plane_model)) : M (Z * list (loc * plane_model)) :=
  let '(count, result) := st in
  do* d := read_float depth_map in
  do* c := read_int curr_map_arr in
  do* prod := lift (masked d c) in
  do* '(plane_model, inliers) := fit prod in
  let ls := support c in
  do* ans := alloc (FloatArr (Np.full (Np.shape c) F64.zero)) in
  do* xy := lift (Np.take ls inliers) in
  do* c' := lift (Np.set_all 0 c xy) in
  do* _ := write curr_map_arr (IntArr c') in
  do* a := read_float ans in
  do* a' := lift (Np.set_all F64.one a xy) in
  do* _ := write ans (FloatArr a') in
  ret (count - Z.of_nat (length inliers), result ++ [(ans, plane_model)]).

(** The [while] loop, for at most [fuel] iterations. *)
Fixpoint loop (fuel : nat) (curr_map_arr depth_map : loc) (start_size : Z)
    (t : float) (st : Z * list (loc * plane_model)) (s : state)
  : state * outcome (list (loc * plane_model)) :=
  match fuel with
  | O => (s, OutOfFuel)
  | S fuel' =>
      match loop_test (fst st) start_size t with
      | Err e => (s, Raised e)
      | Ok false => (s, Done (snd st))
      | Ok true =>
          match loop_body curr_map_arr depth_map st s with
          | (s', Err e) => (s', Raised e)
          | (s', Ok st') => loop fuel' curr_map_arr depth_map start_size t st' s'
          end
      end
  end.

Definition extract_planes_con (map_arr depth_map : loc) (start_size : Z)
    (t : float) (fuel : nat) (s : state)
  : state * outcome (list (loc * plane_model)) :=
  match deepcopy map_arr s with
  | (s', Err e) => (s', Raised e)
  | (s', Ok curr_map_arr) =>
      loop fuel curr_map_arr depth_map start_size t (start_size, []) s'
  end.

End Extract.

(** *** [close_map] *)

(** Arrays of the three element types [close_map] handles. *)
Inductive array : Type :=
| BoolArr (a : ndarray bool)
| U8Arr (a : ndarray Z)
| F64Arr (a : ndarray float).

(** The truth value of each cell. *)
Definition truth (a : array) : ndarray bool :=
  match a with
  | BoolArr a => a
  | U8Arr a => Np.map (fun v => negb (v =? 0)) a
  | F64Arr a => Np.map F64.nonzero a
  end.

Definition logical_and (a b : array) : res array :=
  let* r := Np.binop andb (truth a) (truth b) in
  Ok (BoolArr r).

(** [functools.reduce(f, l, init)] *)
Fixpoint reduce {A B} (f : A -> B -> res A) (l : list B) (acc : A) : res A :=
  match l with
  | [] => Ok acc
  | x :: l' => let* acc' := f acc x in reduce f l' acc'
  end.

(** [np.uint8(a)] of an integer array. *)
Definition uint8 (a : ndarray Z) : ndarray Z := Np.map (fun v => v mod 256) a.

Definition default_kernels : list (ndarray Z) :=
  [Np.full (100%nat, 10%nat) 1; Np.full (10%nat, 100%nat) 1].

Definition close_map `{OpenCV} (map_arr : ndarray Z)
    (kernels : option (list (ndarray Z))) : res array :=
  let kernels :=
    match kernels with
    | None => default_kernels
    | Some ks => ks
    end in
  let* ls_closings :=
    traverse (fun kernel => morphologyEx_close (uint8 map_arr) kernel) kernels in
  reduce logical_and (U8Arr <$> ls_closings)
    (F64Arr (Np.full (Np.shape map_arr) F64.one)).

(** *** [loss_metric] *)

(** The accumulator [loss]: the integer it starts as, or a float. *)
Inductive num : Type :=
| PyInt (z : Z)
| Float (f : float).

(** [loss + v] for a float [v]. *)
Definition num_add (x : num) (v : float) : num :=
  match x with
  | PyInt z => Float (F64.add (F64.of_Z z) v)
  | Float f => Float (F64.add f v)
  end.

(** [x / n] for an integer [n]: between integers a zero divisor raises,
    a float divided by zero does not. *)
Definition true_div (x : num) (n : Z) : res float :=
  match x with
  | PyInt z =>
      if n =? 0 then Err ZeroDivisionError
      else Ok (F64.div (F64.of_Z z) (F64.of_Z n))
  | Float f => Ok (F64.div f (F64.of_Z n))
  end.

(** [v ** 2]: the C library's [pow(v, 2.0)]. *)
Definition pow2 `{Libm} (v : float) : float := pow_2 v.

(** [(x - y) * 1000] *)
Definition scaled_diff (x y : float) : float :=
  F64.mul (F64.sub x y) (F64.of_Z 1000).

(** The per-point errors and the aggregations of the table [funcs]. *)
Definition squared_error `{Libm} (x y : float) : float := pow2 (scaled_diff x y).
Definition absolute_error (x y : float) : float := F64.abs (scaled_diff x y).
Definition mean (x : num) (n : Z) : res float := true_div x n.
Definition root_mean (x : num) (n : Z) : res float :=
  let* q := true_div x n in Ok (F64.sqrt q).

Definition funcs `{Libm}
  : gmap string ((float -> float -> float) * (num -> Z -> res float)) :=
  {[ "rmse" := (squared_error, root_mean);
     "mae" := (absolute_error, mean);
     "mse" := (squared_error, mean) ]}.

(** [d[key]]: a [KeyError] when the key is missing. *)
Definition getitem {V} (d : gmap string V) (key : string) : res V :=
  match d !! key with
  | Some v => Ok v
  | None => Err (KeyError key)
  end.

(** [p[-1]] *)
Definition last_coord (p : point) : float := snd p.

(** The [for] loop over [zip(true_arr, approx_arr)]. *)
Fixpoint accumulate `{Libm} (func : string) (pairs : list (point * point))
    (loss : num) : res num :=
  match pairs with
  | [] => Ok loss
  | (x, y) :: rest =>
      let* f := getitem funcs func in
      accumulate func rest (num_add loss (fst f (last_coord x) (last_coord y)))
  end.

Definition loss_metric `{Libm} (true_pcd approx_pcd : list point) (func : string)
  : res float :=
  let* loss := accumulate func (zip true_pcd approx_pcd) (PyInt 0) in
  let* f := getitem funcs func in
  snd f loss (Z.of_nat (length true_pcd)).

(** *** [get_plane_img] *)

(** A colour image of three channels: one [(b, g, r)] triple per pixel. *)
Definition image : Type := ndarray (Z * Z * Z).

(** [[random.randint(1, 255) for _ in range(3)]] *)
Definition draw_color `{PyRandom} (g : seed) : seed * (Z * Z * Z) :=
  let '(g1, c0) := randint g 1 255 in
  let '(g2, c1) := randint g1 1 255 in
  let '(g3, c2) := randint g2 1 255 in
  (g3, (c0, c1, c2)).

(** [np.where(map_arr)] of a mask of any element type. *)
Definition where_set (map_arr : array) : list (nat * nat) :=
  Np.where_ (fun b : bool => b) (truth map_arr).

(** The [for] loop over the masks, from the image [res]: the colour is
    drawn before the positions are checked. *)
Fixpoint paint_loop `{PyRandom} (ls_map_arrs : list array) (res : image) (g : seed)
  : seed * Py.res image :=
  match ls_map_arrs with
  | [] => (g, Ok res)
  | map_arr :: rest =>
      let '(g', color) := draw_color g in
      match Np.set_all color res (where_set map_arr) with
      | Ok res' => paint_loop rest res' g'
      | Err e => (g', Err e)
      end
  end.

(** [copy.deepcopy(img)] is the value [img]: the loop updates the copy
    only, and the copy is what the function returns. *)
Definition get_plane_img `{PyRandom} (g : seed) (img : image)
    (ls_map_arrs : list array) : seed * Py.res image :=
  paint_loop ls_map_arrs img g.

(** *** Vocabulary of the properties *)

(** Pixel [k] (a flat index) is set in an integer mask. *)
Definition set_in (m : ndarray Z) (k : nat) : Prop :=
  exists v, Np.cells m !! k = Some v /\ v <> 0.

(** Pixel [k] is set in a float mask. *)
Definition lit_in (m : ndarray float) (k : nat) : Prop :=
  exists v, Np.cells m !! k = Some v /\ F64.nonzero v = true.

(** Pixel [k] of a depth map holds a positive depth. *)
Definition positive_at (d : ndarray float) (k : nat) : Prop :=
  exists x, Np.cells d !! k = Some x /\ F64.ltb F64.zero x = true.

(** What [connectedComponents] promises of its labels: the shape and size
    of the image, and the label 0 on every pixel that is 0. *)
Definition labels_respect (arr result : ndarray Z) : bool :=
  Np.like arr result
  && forallb (fun al => (snd al =? 0) || negb (fst al =? 0))
       (zip (Np.cells arr) (Np.cells result)).

(** What the loop of [get_connected_components] appends: a label's mask
    that passed the size test, with the depth map restricted to it, as
    32-bit floats. *)
Definition kept_component (depth_map : ndarray float) (th : float)
    (count_pixels : Z) (c : ndarray float * ndarray Z) : Prop :=
  F64.leb (F64.mul th (F64.of_Z count_pixels)) (F64.of_Z (Np.sum (snd c))) = true
  /\ exists prod, masked depth_map (snd c) = Ok prod
       /\ fst c = Np.map F64.to_f32 prod.

(** A mask of zeros and ones. *)
Definition binary (m : ndarray Z) : bool :=
  forallb (fun v => (v =? 0) || (v =? 1)) (Np.cells m).

(** Pixel [k] of a closing is filled. *)
Definition filled (c : ndarray Z) (k : nat) : bool :=
  match Np.cells c !! k with
  | Some v => negb (v =? 0)
  | None => false
  end.

(** Every plane fit that returns has at least one inlier. *)
Definition fits_remove_inliers `{Open3D} : Prop :=
  forall g d g' pm inliers,
    _get_plane_from_pcd g d = (g', Ok (pm, inliers)) -> inliers <> [].

(** The plane fit of the array [prod] returns, without an inlier, whatever
    the state of the generator. *)
Definition fit_finds_nothing `{Open3D} (prod : ndarray float) : Prop :=
  forall g, exists g' pm, _get_plane_from_pcd g prod = (g', Ok (pm, [])).

(** What holds between iterations, for the input mask [m0]: the working
    copy has the shape of [m0] and its support inside the support of
    [m0]; every recorded mask is an object other than the working copy,
    has the shape of [m0], its support inside the support of [m0] and
    outside the support of the working copy; and two recorded masks have
    no pixel in common. *)
Definition loop_inv `{Open3D} (m0 : ndarray Z) (curr : loc) (s : state)
    (result : list (loc * plane_model)) : Prop :=
  (exists c, heap s !! curr = Some (IntArr c)
     /\ Np.shape c = Np.shape m0
     /\ forall k, set_in c k -> set_in m0 k)
  /\ (forall i l pm, result !! i = Some (l, pm) ->
        l <> curr
        /\ exists a, heap s !! l = Some (FloatArr a)
             /\ Np.shape a = Np.shape m0
             /\ forall k, lit_in a k ->
                  set_in m0 k
                  /\ forall c, heap s !! curr = Some (IntArr c) -> ~ set_in c k)
  /\ (forall i j li pi lj pj a b k, i <> j ->
        result !! i = Some (li, pi) -> result !! j = Some (lj, pj) ->
        heap s !! li = Some (FloatArr a) -> heap s !! lj = Some (FloatArr b) ->
        ~ (lit_in a k /\ lit_in b k)).

(** [n] iterations of the loop body in a row, from the loop state [st]:
    the store and the loop state after them, or the first exception. *)
Fixpoint iterations `{Open3D} (n : nat) (curr_map_arr depth_map : loc)
    (st : Z * list (loc * plane_model)) (s : state)
  : state * res (Z * list (loc * plane_model)) :=
  match n with
  | O => (s, Ok st)
  | S n' =>
      match loop_body curr_map_arr depth_map st s with
      | (s1, Ok st1) => iterations n' curr_map_arr depth_map st1 s1
      | (s1, Err e) => (s1, Err e)
      end
  end.

(** The loop condition as the specification words it:
    [count >= floor(start_size * t)]. *)
Definition floor_test (count start_size : Z) (t : float) : res bool :=
  let* f := F64.of_int start_size in
  let* bound := F64.floor (F64.mul f t) in
  Ok (bound <=? count).

(** The names [funcs] has an entry for. *)
Definition supported (func : string) : bool :=
  (func =? "rmse")%string || (func =? "mae")%string || (func =? "mse")%string.

(** The points [zip] pairs: the first [min (len t) (len a)] of each cloud. *)
Definition paired (t a : list point) : list (point * point) :=
  let k := min (length t) (length a) in
  zip (take k t) (take k a).

(** The accumulated loss of a list of pairs under a per-point error. *)
Definition total (pp : float -> float -> float) (pairs : list (point * point))
  : num :=
  foldl (fun acc xy => num_add acc (pp (last_coord (fst xy)) (last_coord (snd xy))))
        (PyInt 0) pairs.

(** Pixel [k] is set in one of the masks. *)
Definition painted (ls_map_arrs : list array) (k : nat) : Prop :=
  Exists (fun m => Np.cells (truth m) !! k = Some true) ls_map_arrs.

(** A colour [randint(1, 255)] can give: no channel is 0. *)
Definition bright (c : Z * Z * Z) : Prop :=
  1 <= fst (fst c) <= 255 /\ 1 <= snd (fst c) <= 255 /\ 1 <= snd c <= 255.

(** What [randint] promises: a value between its bounds. *)
Definition randint_in_range `{PyRandom} : Prop :=
  forall g lo hi, lo <= hi -> lo <= snd (randint g lo hi) <= hi.

(** What holds between iterations besides [loop_inv]: the working copy is
    an object of the store; the recorded masks are objects allocated after
    it, no two of them the same, that hold only 0.0 and 1.0; and every
    pixel of the input mask [m0] is set in the working copy or in a
    recorded mask. *)
Definition loop_accounts `{Open3D} (m0 : ndarray Z) (curr : loc) (s : state)
    (result : list (loc * plane_model)) : Prop :=
  (curr < length (heap s))%nat
  /\ NoDup (fst <$> result)
  /\ (forall l, l ∈ fst <$> result ->
        (curr < l < length (heap s))%nat
        /\ exists a, heap s !! l = Some (FloatArr a)
             /\ Forall (fun v => v = F64.zero \/ v = F64.one) (Np.cells a))
  /\ (forall k, set_in m0 k ->
        (exists c, heap s !! curr = Some (IntArr c) /\ set_in c k)
        \/ exists l a, l ∈ fst <$> result
             /\ heap s !! l = Some (FloatArr a) /\ lit_in a k).

End Detector.

(** ** Simple collaborators, to run the functions on concrete inputs *)

Module Sim.

(** A camera that yields one point per pixel of positive depth, in
    row-major order, at [(column, row, depth)]. *)
Definition back_project (img : ndarray float) : res (list point) :=
  Ok (omap (fun i =>
        v ← Np.cells img !! i;
        Some (F64.of_Z (Z.of_nat (i mod Np.ncols img)),
              F64.of_Z (Z.of_nat (i / Np.ncols img)), v))
      (Np.find_from (F64.ltb F64.zero) 0 (Np.cells img))).

(** A plane fit that takes the first [k] points of the cloud as the
    inliers of the plane [z = 0], and refuses an empty cloud. *)
Definition first_points (k : nat) (g : unit) (pcd : list point) (th : float)
    (ransac_n num_iterations : nat) : unit * res (plane_model * list Z) :=
  (g, Ok ((F64.zero, F64.zero, F64.one, F64.zero),
          Z.of_nat <$> seq 0 (min k (length pcd)))).

Definition o3d (k : nat) : Open3D :=
  {| rng := unit;
     create_from_depth_image := back_project;
     segment_plane := first_points k |}.

(** A labelling for images whose components are their non-empty rows:
    a foreground pixel of row [r] gets the label [r + 1]. *)
Definition label_rows (arr : ndarray Z) : res (Z * ndarray Z) :=
  Ok (Z.of_nat (Np.nrows arr) + 1,
      Np.mk_ndarray (Np.nrows arr) (Np.ncols arr)
        (imap (fun i v =>
           if v =? 0 then 0 else Z.of_nat (i / Np.ncols arr) + 1) (Np.cells arr))).

(** The closing by a 1x1 structuring element, which changes nothing. *)
Definition close_unit (src kernel : ndarray Z) : res (ndarray Z) := Ok src.

Definition cv : OpenCV :=
  {| connectedComponents := label_rows;
     morphologyEx_close := close_unit |}.

(** [n] as a float, the float [p / q], and a point of integer coordinates. *)
Definition fl (n : Z) : float := F64.of_Z n.
Definition ratio (p q : Z) : float := F64.div (F64.of_Z p) (F64.of_Z q).
Definition pt (x y z : Z) : point := (fl x, fl y, fl z).

(** A region of five pixels in a 2x3 frame, at depth 2 everywhere, and the
    store of a caller that holds the mask at address 0 and the depth map at
    address 1. *)
Definition mask5 : ndarray Z := Np.mk_ndarray 2 3 [1; 1; 0; 1; 1; 1].
Definition depth2 : ndarray float := Np.full (2%nat, 3%nat) (fl 2).
Definition store5 (k : nat) : @Detector.state (o3d k) :=
  @Detector.mk_store unit [Detector.IntArr mask5; Detector.FloatArr depth2] tt.

(** The same frame with a region of no pixel. *)
Definition mask0 : ndarray Z := Np.full (2%nat, 3%nat) 0.
Definition store0 (k : nat) : @Detector.state (o3d k) :=
  @Detector.mk_store unit [Detector.IntArr mask0; Detector.FloatArr depth2] tt.

(** A plane fit whose generator counts its calls: the first call finds no
    inlier, every later call takes the whole cloud. *)
Definition idle_then_all (g : nat) (pcd : list point) (th : float)
    (ransac_n num_iterations : nat) : nat * res (plane_model * list Z) :=
  (S g, Ok ((F64.zero, F64.zero, F64.one, F64.zero),
            if (g =? 0)%nat then [] else Z.of_nat <$> seq 0 (length pcd))).

Definition o3d_idle : Open3D :=
  {| rng := nat;
     create_from_depth_image := back_project;
     segment_plane := idle_then_all |}.

Definition store5_idle : @Detector.state o3d_idle :=
  @Detector.mk_store nat [Detector.IntArr mask5; Detector.FloatArr depth2] 0%nat.

(** The plane [z = 0] that [first_points] reports. *)
Definition plane_z : plane_model := (F64.zero, F64.zero, F64.one, F64.zero).

(** A depth map with two one-row components, and a mask with a hole. *)
Definition depth_rows : ndarray float :=
  Np.mk_ndarray 3 3 (fl <$> [2; 4; 0; 0; 0; 0; 0; 5; 5]).
Definition mask_hole : ndarray Z := Np.mk_ndarray 2 2 [1; 0; 0; 1].

(** A 10x10 block of depth 2.0 inside a 20x20 frame of zeros. *)
Definition block_frame : ndarray float :=
  Np.mk_ndarray 20 20
    ((fun i => if ((5 <=? i / 20) && (i / 20 <? 15)
                   && (5 <=? i mod 20) && (i mod 20 <? 15))%nat
               then fl 2 else F64.zero) <$> seq 0 400).

(** A [pow] that squares exactly: the correctly rounded product [v * v],
    through [abs], which leaves a square as it is. *)
Definition libm : Libm.
Proof.
  refine {| pow_2 := fun v => F64.abs (F64.mul v v) |}.
  - reflexivity.
  - intros v. destruct (F64.mul v v); reflexivity.
  - intros [s | s | | s m e]; try reflexivity; destruct s; reflexivity.
Defined.

(** A generator that counts its draws and walks through the range. *)
Definition cycle (g : nat) (lo hi : Z) : nat * Z :=
  (S g, lo + Z.of_nat g mod (hi - lo + 1)).

Definition rnd : PyRandom := {| seed := nat; randint := cycle |}.

(** A 2x2 image of black pixels, and two masks of its shape. *)
Definition black : Detector.image := Np.full (2%nat, 2%nat) (0, 0, 0).
Definition mask_left : Detector.array :=
  Detector.F64Arr (Np.mk_ndarray 2 2 (fl <$> [1; 0; 1; 0])).
Definition mask_top : Detector.array :=
  Detector.BoolArr (Np.mk_ndarray 2 2 [true; true; false; false]).

End Sim.

Import Detector.

(** * Properties *)

(** ** Facts about binary64 rounding *)

Module F64Facts.

Lemma digits2_size (p : positive) : digits2_pos p = Pos.size p.
Proof. induction p; simpl; congruence. Qed.

(** [2^(d-1) <= p < 2^d] for the number [d] of binary digits of [p]. *)
Lemma digits2_bounds (p : positive) :
  2 ^ (Zpos (digits2_pos p) - 1) <= Zpos p < 2 ^ Zpos (digits2_pos p).
Proof.
  rewrite digits2_size. split.
  - pose proof (Pos.size_le p) as Hle.
    assert (H2 : 2 ^ Zpos (Pos.size p) <= 2 * Zpos p).
    { change (2 * Zpos p) with (Zpos p~0). rewrite <- Pos2Z.inj_pow. 
      apply Pos2Z.pos_le_pos. exact Hle. }
    replace (Zpos (Pos.size p)) with (Z.succ (Zpos (Pos.size p) - 1)) in H2 by lia.
    rewrite Z.pow_succ_r in H2 by lia. lia.
  - pose proof (Pos.size_gt p) as Hgt.
    rewrite <- Pos2Z.inj_pow. apply Pos2Z.pos_lt_pos. exact Hgt.
Qed.

Lemma iter_pos_nat {A} (f : A -> A) (n : positive) (x : A) :
  SpecFloat.iter_pos f n x = Nat.iter (Pos.to_nat n) f x.
Proof.
  revert x. induction n as [n IH | n IH | ]; intros x; cbn [SpecFloat.iter_pos].
  - rewrite !IH. rewrite Pos2Nat.inj_xI.
    replace (S (2 * Pos.to_nat n))%nat with (Pos.to_nat n + (Pos.to_nat n + 1))%nat by lia.
    rewrite !Nat.iter_add. simpl. reflexivity.
  - rewrite !IH. rewrite Pos2Nat.inj_xO.
    replace (2 * Pos.to_nat n)%nat with (Pos.to_nat n + Pos.to_nat n)%nat by lia.
    rewrite Nat.iter_add. reflexivity.
  - reflexivity.
Qed.

Lemma shr_1_m (mrs : shr_record) :
  0 <= shr_m mrs -> shr_m (shr_1 mrs) = shr_m mrs / 2.
Proof.
  destruct mrs as [m r s]. cbn [shr_m]. intros Hm.
  destruct m as [ | [p | p | ] | p]; cbn [shr_1 shr_m]; try lia.
  - reflexivity.
  - apply Z.div_unique with (r := 1); lia.
  - apply Z.div_unique with (r := 0); lia.
  - reflexivity.
Qed.

Lemma shr_iter_m (k : nat) (mrs : shr_record) :
  0 <= shr_m mrs ->
  shr_m (Nat.iter k shr_1 mrs) = shr_m mrs / 2 ^ Z.of_nat k.
Proof.
  intros Hm. induction k as [ | k IH].
  - simpl. rewrite Z.div_1_r. reflexivity.
  - rewrite Nat.iter_succ. rewrite shr_1_m.
    + rewrite IH. rewrite Nat2Z.inj_succ, Z.pow_succ_r by lia.
      rewrite Z.div_div by lia. f_equal. lia.
    + rewrite IH. apply Z.div_pos; lia.
Qed.

(** The mantissa after [shr]: divided by [2^n] when [n] is positive. *)
Lemma shr_m_shr (mrs : shr_record) (e n : Z) :
  0 <= shr_m mrs ->
  shr_m (fst (shr mrs e n)) = shr_m mrs / 2 ^ Z.max 0 n
  /\ snd (shr mrs e n) = e + Z.max 0 n.
Proof.
  intros Hm. destruct n as [ | p | p]; simpl.
  - rewrite Z.div_1_r. split; [reflexivity | lia].
  - rewrite iter_pos_nat, shr_iter_m by assumption.
    rewrite positive_nat_Z. split; reflexivity.
  - rewrite Z.div_1_r. split; [reflexivity | lia].
Qed.

Lemma shr_m_of_loc (m : Z) (l : location) : shr_m (shr_record_of_loc m l) = m.
Proof. destruct l as [ | [ | | ]]; reflexivity. Qed.

(** Above the smallest exponent, rounding a positive mantissa to its
    format keeps it positive. *)
Lemma shr_fexp_pos (m : positive) (e : Z) (l : location) :
  emin F64.prec F64.emax <= e ->
  0 < shr_m (fst (shr_fexp F64.prec F64.emax (Zpos m) e l))
  /\ emin F64.prec F64.emax <= snd (shr_fexp F64.prec F64.emax (Zpos m) e l).
Proof.
  intros He. unfold shr_fexp.
  set (n := fexp F64.prec F64.emax (Zdigits2 (Zpos m) + e) - e).
  destruct (shr_m_shr (shr_record_of_loc (Zpos m) l) e n) as [Hm Hs].
  { rewrite shr_m_of_loc. lia. }
  rewrite Hm, Hs, shr_m_of_loc.
  pose proof (digits2_bounds m) as [Hlo _].
  assert (Hn : Z.max 0 n <= Zpos (digits2_pos m) - 1).
  { subst n. unfold fexp, emin, F64.prec, F64.emax in *. cbn [Zdigits2]. lia. }
  split; [ | lia].
  apply Z.div_str_pos. split; [apply Z.pow_pos_nonneg; lia | ].
  etransitivity; [ | exact Hlo]. apply Z.pow_le_mono_r; lia.
Qed.

Lemma round_nearest_even_pos (m : Z) (l : location) :
  0 < m -> 0 < round_nearest_even m l.
Proof.
  intros Hm. destruct l as [ | [ | | ]]; cbn [round_nearest_even];
    try destruct (Z.even m); lia.
Qed.


Lemma binary_round_aux_pos (s : bool) (m : positive) (e : Z) (l : location) :
  emin F64.prec F64.emax <= e ->
  F64.signed_pos s (binary_round_aux F64.prec F64.emax s (Zpos m) e l).
Proof.
  intros He. unfold binary_round_aux.
  pose proof (shr_fexp_pos m e l He) as [H1 H1e].
  destruct (shr_fexp F64.prec F64.emax (Zpos m) e l) as [mrs1 e1].
  cbn [fst snd] in H1, H1e.
  pose proof (round_nearest_even_pos (shr_m mrs1) (loc_of_shr_record mrs1) H1) as H2.
  destruct (round_nearest_even (shr_m mrs1) (loc_of_shr_record mrs1)) as [ | m2 | m2];
    try lia.
  pose proof (shr_fexp_pos m2 e1 loc_Exact H1e) as [H3 _].
  destruct (shr_fexp F64.prec F64.emax (Zpos m2) e1 loc_Exact) as [mrs3 e3].
  cbn [fst snd] in H3.
  destruct (shr_m mrs3) as [ | m3 | m3]; try lia.
  destruct (e3 <=? F64.emax - F64.prec); [left; eauto | right; reflexivity].
Qed.

Lemma shl_align_exp (m : positive) (e e' : Z) :
  snd (shl_align m e e') = Z.min e e'.
Proof.
  unfold shl_align. destruct (e' - e) as [ | d | d] eqn:Hd; cbn [snd]; lia.
Qed.

(** [float(n)] of a positive integer is positive. *)
Lemma of_Z_pos (p : positive) : F64.signed_pos false (F64.of_Z (Zpos p)).
Proof.
  unfold F64.of_Z, binary_normalize, binary_round.
  pose proof (shl_align_exp p 0
    (fexp F64.prec F64.emax (Zpos (digits2_pos p) + 0))) as Hs.
  destruct (shl_align p 0 _) as [mz ez]. cbn [snd] in Hs.
  apply binary_round_aux_pos.
  unfold fexp, emin, F64.prec, F64.emax in *. lia.
Qed.

Lemma iter_xO_digits (p k : positive) :
  digits2_pos (Pos.iter xO p k) = (digits2_pos p + k)%positive.
Proof.
  induction k as [ | k IH] using Pos.peano_ind.
  - cbn. lia.
  - rewrite Pos.iter_succ. cbn [digits2_pos]. rewrite IH. lia.
Qed.

Lemma iter_xO_value (p k : positive) :
  Zpos (Pos.iter xO p k) = Zpos p * 2 ^ Zpos k.
Proof.
  induction k as [ | k IH] using Pos.peano_ind.
  - cbn [Pos.iter]. lia.
  - rewrite Pos.iter_succ, Pos2Z.inj_xO, IH, Pos2Z.inj_succ, Z.pow_succ_r; lia.
Qed.

(** A mantissa of 53 digits within the exponent range is its own rounding. *)
Lemma binary_round_aux_canonical (s : bool) (m : positive) (e : Z) :
  Zpos (digits2_pos m) = 53 -> -1074 <= e <= 971 ->
  binary_round_aux F64.prec F64.emax s (Zpos m) e loc_Exact = S754_finite s m e.
Proof.
  intros Hd He. unfold binary_round_aux, shr_fexp.
  cbn [Zdigits2 shr_record_of_loc]. rewrite Hd.
  replace (fexp F64.prec F64.emax (53 + e) - e) with 0
    by (unfold fexp, emin, F64.prec, F64.emax; lia).
  cbn [shr shr_m loc_of_shr_record round_nearest_even Zdigits2 shr_record_of_loc].
  rewrite Hd.
  replace (fexp F64.prec F64.emax (53 + e) - e) with 0
    by (unfold fexp, emin, F64.prec, F64.emax; lia).
  cbn [shr shr_m].
  replace (e <=? F64.emax - F64.prec) with true
    by (symmetry; apply Z.leb_le; unfold F64.prec, F64.emax; lia).
  reflexivity.
Qed.

(** Integers below [2^53] are floats: [float(n)] is [n], normalised. *)
Lemma of_Z_small (p : positive) :
  Zpos p < 2 ^ 53 ->
  exists m e, F64.of_Z (Zpos p) = S754_finite false m e
    /\ Zpos (digits2_pos m) = 53 /\ -52 <= e <= 0
    /\ Zpos m = Zpos p * 2 ^ (- e).
Proof.
  intros Hp. pose proof (digits2_bounds p) as [Hlo Hhi].
  assert (Hd : Zpos (digits2_pos p) <= 53).
  { destruct (Z.le_gt_cases (Zpos (digits2_pos p)) 53) as [ | Hgt]; [assumption | ].
    assert (2 ^ 53 <= 2 ^ (Zpos (digits2_pos p) - 1))
      by (apply Z.pow_le_mono_r; lia). lia. }
  unfold F64.of_Z, binary_normalize, binary_round.
  replace (fexp F64.prec F64.emax (Zpos (digits2_pos p) + 0))
    with (Zpos (digits2_pos p) - 53)
    by (unfold fexp, emin, F64.prec, F64.emax; lia).
  unfold shl_align.
  destruct (Zpos (digits2_pos p) - 53 - 0) as [ | k | k] eqn:Hk; try lia.
  - exists p, 0. rewrite binary_round_aux_canonical by lia.
    repeat split; lia.
  - exists (Pos.iter xO p k), (Zpos (digits2_pos p) - 53).
    rewrite binary_round_aux_canonical.
    + repeat split; try lia.
      * rewrite iter_xO_digits. lia.
      * rewrite iter_xO_value. f_equal. f_equal. lia.
    + rewrite iter_xO_digits. lia.
    + lia.
Qed.

(** Multiplying a normalised float by [1.0] changes nothing. *)
Lemma mul_one_r (s : bool) (m : positive) (e : Z) :
  Zpos (digits2_pos m) = 53 -> -1022 <= e <= 971 ->
  F64.mul (S754_finite s m e) F64.one = S754_finite s m e.
Proof.
  intros Hd He. unfold F64.mul, F64.one, SFmul.
  rewrite xorb_false_r, Pos.mul_comm.
  replace (4503599627370496 * m)%positive with (Pos.iter xO m 52) by reflexivity.
  unfold binary_round_aux, shr_fexp.
  cbn [Zdigits2 shr_record_of_loc].
  rewrite iter_xO_digits, Pos2Z.inj_add, Hd.
  replace (fexp F64.prec F64.emax (53 + 52 + (e + -52)) - (e + -52)) with 52
    by (unfold fexp, emin, F64.prec, F64.emax; lia).
  replace (shr {| shr_m := Zpos (Pos.iter xO m 52); shr_r := false; shr_s := false |}
             (e + -52) 52)
    with ({| shr_m := Zpos m; shr_r := false; shr_s := false |}, e + -52 + 52)
    by reflexivity.
  cbn [shr_m loc_of_shr_record round_nearest_even Zdigits2].
  rewrite Hd.
  replace (fexp F64.prec F64.emax (53 + (e + -52 + 52)) - (e + -52 + 52)) with 0
    by (unfold fexp, emin, F64.prec, F64.emax; lia).
  cbn [shr shr_m].
  replace (e + -52 + 52 <=? F64.emax - F64.prec) with true
    by (symmetry; apply Z.leb_le; unfold F64.prec, F64.emax; lia).
  f_equal. lia.
Qed.

(** [int(float(n) * 1.0)] is [n] for the integers up to [2^53]. *)
Lemma to_int_of_Z_mul_one (n : Z) :
  0 < n <= 2 ^ 53 ->
  F64.to_int (F64.mul (F64.of_Z n) F64.one) = Ok n.
Proof.
  intros Hn. destruct (Z.eq_dec n (2 ^ 53)) as [-> | Hne]; [reflexivity | ].
  destruct n as [ | p | p]; try lia.
  destruct (of_Z_small p) as (m & e & -> & Hd & He & Hv); [lia | ].
  rewrite mul_one_r by lia.
  cbn [F64.to_int cond_Zopp]. f_equal.
  rewrite Hv. rewrite <- (Z.opp_involutive e) at 2.
  rewrite Z.shiftl_opp_r, Z.shiftr_div_pow2 by lia.
  apply Z.div_mul. apply Z.pow_nonzero; lia.
Qed.

End F64Facts.

Import F64Facts.

(** ** [loss_metric] *)

Section LossMetric.
Context {L : Libm}.

Lemma sub_diag (x : float) : F64.is_finite x = true -> F64.sub x x = F64.zero.
Proof.
  destruct x as [[ | ] | | | s m e]; try discriminate; intros _; try reflexivity.
  unfold F64.sub, SFsub. rewrite Z.sub_diag. reflexivity.
Qed.

Lemma div_zero_pos (n : positive) : F64.div F64.zero (F64.of_Z (Zpos n)) = F64.zero.
Proof.
  destruct (of_Z_pos n) as [(m & e & ->) | ->]; reflexivity.
Qed.

Lemma getitem_supported (func : string) :
  supported func = true ->
  exists pp agg, getitem funcs func = Ok (pp, agg).
Proof.
  unfold supported. rewrite !orb_true_iff, !String.eqb_eq.
  intros [[-> | ->] | ->]; eexists _, _; reflexivity.
Qed.

Lemma getitem_unsupported (func : string) :
  supported func = false -> getitem funcs func = Err (KeyError func).
Proof.
  unfold supported. rewrite !orb_false_iff, !String.eqb_neq.
  intros [[H1 H2] H3]. unfold getitem, funcs.
  rewrite !lookup_insert_ne by congruence. rewrite lookup_singleton_ne by congruence. reflexivity.
Qed.

Lemma accumulate_total (func : string) pp agg (pairs : list (point * point)) (loss : num) :
  getitem funcs func = Ok (pp, agg) ->
  accumulate func pairs loss =
  Ok (foldl (fun acc xy => num_add acc (pp (last_coord (fst xy)) (last_coord (snd xy))))
        loss pairs).
Proof.
  intros Hf. revert loss. induction pairs as [ | [x y] rest IH]; intros loss.
  - reflexivity.
  - cbn [accumulate foldl]. rewrite Hf. cbn [bind fst snd]. apply IH.
Qed.

Lemma accumulate_unsupported (func : string) (pairs : list (point * point)) (loss : num) :
  supported func = false ->
  pairs <> [] -> accumulate func pairs loss = Err (KeyError func).
Proof.
  intros Hf Hne. destruct pairs as [ | [x y] rest]; [congruence | ].
  cbn [accumulate]. rewrite getitem_unsupported by assumption. reflexivity.
Qed.

Lemma zip_paired (t a : list point) : zip t a = paired t a.
Proof.
  unfold paired. revert a. induction t as [ | x t IH]; intros [ | y a]; try reflexivity.
  cbn [length Nat.min take zip_with]. f_equal. apply IH.
Qed.

(** The final division: an exception exactly when the cloud is empty. *)
Lemma true_div_ok (x : num) (n : nat) :
  n <> 0%nat -> exists q, true_div x (Z.of_nat n) = Ok q.
Proof.
  intros Hn. destruct x as [z | f]; cbn [true_div]; [ | eauto].
  destruct (Z.eqb_spec (Z.of_nat n) 0); [lia | eauto].
Qed.

Lemma getitem_cases (func : string) pp agg :
  getitem funcs func = Ok (pp, agg) ->
  (pp, agg) = (squared_error, root_mean) \/ (pp, agg) = (absolute_error, mean)
  \/ (pp, agg) = (squared_error, mean).
Proof.
  intros Hf.
  destruct (String.eqb_spec func "rmse") as [-> | N1].
  { left. change (getitem funcs "rmse") with (Ok (squared_error, root_mean)) in Hf.
    congruence. }
  destruct (String.eqb_spec func "mae") as [-> | N2].
  { right. left. change (getitem funcs "mae") with (Ok (absolute_error, mean)) in Hf.
    congruence. }
  destruct (String.eqb_spec func "mse") as [-> | N3].
  { right. right. change (getitem funcs "mse") with (Ok (squared_error, mean)) in Hf.
    congruence. }
  unfold getitem, funcs in Hf.
  rewrite !lookup_insert_ne, lookup_singleton_ne in Hf by congruence. discriminate.
Qed.

Lemma agg_ok (func : string) pp agg (x : num) (n : nat) :
  getitem funcs func = Ok (pp, agg) -> n <> 0%nat ->
  exists v, agg x (Z.of_nat n) = Ok v.
Proof.
  intros Hf Hn. destruct (true_div_ok x n Hn) as [q Hq].
  destruct (getitem_cases func pp agg Hf) as [H | [H | H]];
    injection H as -> ->; unfold root_mean, mean; rewrite Hq; cbn; eauto.
Qed.



Lemma lookup_paired (t a : list point) (i : nat) :
  paired t a !! i = (x ← t !! i; y ← a !! i; Some (x, y)).
Proof.
  rewrite <- zip_paired. rewrite lookup_zip_with. reflexivity.
Qed.

(** On a non-empty [true_pcd] a supported name returns the aggregation
    of the total over the pairs. *)
Lemma loss_metric_value (true_pcd approx_pcd : list point) (func : string) :
  supported func = true -> true_pcd <> [] ->
  exists pp agg v,
    getitem funcs func = Ok (pp, agg)
    /\ loss_metric true_pcd approx_pcd func = Ok v
    /\ agg (total pp (paired true_pcd approx_pcd)) (Z.of_nat (length true_pcd)) = Ok v.
Proof.
  intros Hs Hne. destruct (getitem_supported func Hs) as (pp & agg & Hf).
  assert (Hn : length true_pcd <> 0%nat) by (destruct true_pcd; cbn; congruence).
  destruct (agg_ok func pp agg (total pp (paired true_pcd approx_pcd))
              (length true_pcd) Hf Hn) as [v Hv].
  exists pp, agg, v. split; [exact Hf | split; [ | exact Hv]].
  unfold loss_metric. rewrite (accumulate_total func pp agg) by exact Hf.
  cbn [bind]. rewrite Hf. cbn [bind snd]. rewrite zip_paired. exact Hv.
Qed.

End LossMetric.

(** C4 (amended).  For a supported [func] and a non-empty [true_pcd],
    [loss_metric] returns one scalar, whatever the two lengths are: the
    aggregation, by the length of [true_pcd], of the per-point errors of
    the pairs [(true_pcd[i], approx_pcd[i])], taken in order for the
    indices both clouds have and for no other. *)
Theorem loss_metric_truncates {L : Libm} (true_pcd approx_pcd : list point)
    (func : string) :
  supported func = true -> true_pcd <> [] ->
  exists pp agg v,
    getitem funcs func = Ok (pp, agg)
    /\ loss_metric true_pcd approx_pcd func = Ok v
    /\ agg (total pp (paired true_pcd approx_pcd)) (Z.of_nat (length true_pcd)) = Ok v
    /\ length (paired true_pcd approx_pcd)
       = min (length true_pcd) (length approx_pcd)
    /\ forall i, paired true_pcd approx_pcd !! i
         = (x ← true_pcd !! i; y ← approx_pcd !! i; Some (x, y)).
Proof.
  intros Hs Hne.
  destruct (loss_metric_value true_pcd approx_pcd func Hs Hne)
    as (pp & agg & v & Hf & Hrun & Hv).
  exists pp, agg, v. repeat split; try assumption.
  - unfold paired. rewrite length_zip_with, !length_take. lia.
  - apply lookup_paired.
Qed.

(** C8 (amended).  A [func] outside the three names of the table raises
    [KeyError] for every pair of clouds; a name of the table returns a
    value when [true_pcd] is not empty, and raises [ZeroDivisionError]
    when it is. *)
Theorem loss_metric_key_error {L : Libm} (true_pcd approx_pcd : list point)
    (func : string) :
  (supported func = false ->
     loss_metric true_pcd approx_pcd func = Err (KeyError func))
  /\ (supported func = true -> true_pcd <> [] ->
       exists v, loss_metric true_pcd approx_pcd func = Ok v)
  /\ (supported func = true -> true_pcd = [] ->
       loss_metric true_pcd approx_pcd func = Err ZeroDivisionError).
Proof.
  split; [ | split].
  - intros Hs. unfold loss_metric.
    destruct (zip true_pcd approx_pcd) as [ | xy rest] eqn:Hz.
    + cbn [accumulate bind]. rewrite getitem_unsupported by exact Hs. reflexivity.
    + rewrite accumulate_unsupported by (exact Hs || discriminate). reflexivity.
  - intros Hs Hne.
    destruct (loss_metric_value true_pcd approx_pcd func Hs Hne)
      as (pp & agg & v & _ & Hv & _). eauto.
  - intros Hs ->. unfold loss_metric. cbn [zip_with accumulate bind length].
    destruct (getitem_supported func Hs) as (pp & agg & Hf). rewrite Hf. cbn [bind snd].
    destruct (getitem_cases func pp agg Hf) as [H | [H | H]];
      injection H as -> ->; reflexivity.
Qed.


(** ** [crop_depth_map] *)

Section CropDepthMap.

Lemma vectorize_ok {A B} (f : A -> B) (a : ndarray A) :
  Np.cells a <> [] -> vectorize f a = Ok (Np.map f a).
Proof.
  intros Hne. unfold vectorize, Np.size.
  destruct (Np.cells a); [congruence | reflexivity].
Qed.

(** Below a positive cutoff lies every value that is not positive. *)
Lemma nonpositive_below (x t : float) :
  F64.leb x F64.zero = true -> F64.ltb F64.zero t = true -> F64.ltb x t = true.
Proof.
  destruct x as [sx | [ | ] | | [ | ] mx ex], t as [st | [ | ] | | [ | ] mt et];
    cbn; congruence.
Qed.

End CropDepthMap.

(** C6 (amended).  On a depth map that has cells, with the cutoff [t] the
    threshold gives, [crop_depth_map] returns an array of the same shape
    and the number of its non-zero cells.  A positive cell [x] becomes
    [1/x] when [1/x < t] and 0 otherwise; any other cell [x] is kept when
    [x < t] and becomes 0 otherwise, so that the cells that are not
    positive pass through unchanged whenever the cutoff is positive. *)
Theorem crop_depth_map_cells (depth_map : ndarray float) (th : threshold) (t : float) :
  Np.cells depth_map <> [] ->
  cutoff (Np.map inverse_depth depth_map) th = Ok t ->
  exists ans,
    crop_depth_map depth_map th = Ok (ans, Np.count_nonzero F64.nonzero ans)
    /\ Np.shape ans = Np.shape depth_map
    /\ Np.size ans = Np.size depth_map
    /\ (forall i x, Np.cells depth_map !! i = Some x ->
          Np.cells ans !! i =
          Some (if F64.ltb F64.zero x
                then (if F64.ltb (F64.div F64.one x) t
                      then F64.div F64.one x else F64.zero)
                else (if F64.ltb x t then x else F64.zero)))
    /\ (F64.ltb F64.zero t = true ->
        forall i x, Np.cells depth_map !! i = Some x ->
          F64.leb x F64.zero = true -> Np.cells ans !! i = Some x).
Proof.
  intros Hne Ht.
  assert (Hcell : forall i x, Np.cells depth_map !! i = Some x ->
            Np.cells (Np.map (fun v => if F64.ltb v t then v else F64.zero)
                        (Np.map inverse_depth depth_map)) !! i =
            Some (if F64.ltb F64.zero x
                  then (if F64.ltb (F64.div F64.one x) t
                        then F64.div F64.one x else F64.zero)
                  else (if F64.ltb x t then x else F64.zero))).
  { intros i x Hx. cbn [Np.map Np.cells]. rewrite !list_lookup_fmap, Hx.
    cbn [fmap option_fmap option_map]. unfold inverse_depth.
    destruct (F64.ltb F64.zero x); reflexivity. }
  eexists. split; [ | split; [ | split; [ | split]]].
  - unfold crop_depth_map. rewrite vectorize_ok by exact Hne. cbn [bind].
    rewrite Ht. cbn [bind]. reflexivity.
  - reflexivity.
  - unfold Np.size. cbn [Np.map Np.cells]. rewrite !length_fmap. reflexivity.
  - exact Hcell.
  - intros Hpos i x Hx Hle. rewrite (Hcell i x Hx).
    assert (Hnp : F64.ltb F64.zero x = false).
    { destruct x as [sx | [ | ] | | [ | ] mx ex]; cbn in *; congruence. }
    rewrite Hnp, (nonpositive_below x t Hle Hpos). reflexivity.
Qed.

(** ** [get_connected_components] *)

Section ConnectedComponents.

Lemma range_NoDup (lo hi : Z) : NoDup (range lo hi).
Proof.
  unfold range. apply NoDup_fmap_2; [ | apply NoDup_seq].
  intros a b Hab. lia.
Qed.

Lemma range_lower (lo hi i : Z) : i ∈ range lo hi -> lo <= i.
Proof.
  unfold range. intros Hi. apply list_elem_of_fmap in Hi as (k & -> & _). lia.
Qed.

(** A pixel is set in the mask of label [i] exactly when it has label [i]. *)
Lemma set_in_label_mask (result : ndarray Z) (i : Z) (k : nat) :
  set_in (label_mask result i) k <-> Np.cells result !! k = Some i.
Proof.
  unfold set_in, label_mask. cbn [Np.map Np.cells]. rewrite list_lookup_fmap.
  split.
  - intros (v & Hv & Hne). destruct (Np.cells result !! k) as [l | ]; [ | discriminate].
    cbn in Hv. destruct (Z.eqb_spec l i); [congruence | ].
    injection Hv as <-. congruence.
  - intros ->. cbn. rewrite Z.eqb_refl. exists 1. split; [reflexivity | lia].
Qed.

(** The masks the loop appends are the masks of some of its labels, in
    the order of the labels. *)
Lemma components_loop_masks (depth_map : ndarray float) (th : float)
    (count_pixels : Z) (result : ndarray Z) (labels : list Z)
    (ans out : list (ndarray float * ndarray Z)) :
  components_loop depth_map th count_pixels result labels ans = Ok out ->
  exists kept, sublist kept labels
    /\ snd <$> out = (snd <$> ans) ++ (label_mask result <$> kept).
Proof.
  revert ans. induction labels as [ | i rest IH]; intros ans Hrun.
  - cbn in Hrun. injection Hrun as <-. exists []. split; [constructor | ].
    cbn. rewrite app_nil_r. reflexivity.
  - cbn [components_loop] in Hrun.
    destruct (F64.leb _ _).
    + destruct (masked depth_map (label_mask result i)) as [prod | e]; [ | discriminate].
      cbn [bind] in Hrun. apply IH in Hrun as (kept & Hsub & Hout).
      exists (i :: kept). split; [constructor; exact Hsub | ].
      rewrite Hout, fmap_app, <- app_assoc. reflexivity.
    + apply IH in Hrun as (kept & Hsub & Hout).
      exists kept. split; [constructor; exact Hsub | exact Hout].
Qed.

Lemma masked_like (d : ndarray float) (m : ndarray Z) :
  Np.same_shape d m = true -> exists prod, masked d m = Ok prod.
Proof. intros Hs. unfold masked, Np.binop. rewrite Hs. eauto. Qed.

(** With labels of the shape of the depth map the loop does not raise. *)
Lemma components_loop_ok (depth_map : ndarray float) (th : float)
    (count_pixels : Z) (result : ndarray Z) (labels : list Z)
    (ans : list (ndarray float * ndarray Z)) :
  Np.same_shape depth_map result = true ->
  exists out, components_loop depth_map th count_pixels result labels ans = Ok out.
Proof.
  intros Hs. revert ans. induction labels as [ | i rest IH]; intros ans.
  - cbn. eauto.
  - cbn [components_loop]. destruct (F64.leb _ _); [ | apply IH].
    destruct (masked_like depth_map (label_mask result i) Hs) as [prod ->].
    cbn [bind]. apply IH.
Qed.

Lemma labels_respect_spec (arr result : ndarray Z) (k : nat) (l : Z) :
  labels_respect arr result = true ->
  Np.cells result !! k = Some l -> l <> 0 ->
  exists a, Np.cells arr !! k = Some a /\ a <> 0.
Proof.
  unfold labels_respect, Np.like. rewrite !andb_true_iff, Nat.eqb_eq.
  intros [[_ Hlen] Hall] Hl Hne.
  destruct (Np.cells arr !! k) as [a | ] eqn:Ha.
  - exists a. split; [reflexivity | ].
    rewrite forallb_forall in Hall.
    specialize (Hall (a, l)). cbn [fst snd] in Hall.
    assert (Hin : In (a, l) (zip (Np.cells arr) (Np.cells result))).
    { apply list_elem_of_In, list_elem_of_lookup. exists k.
      rewrite lookup_zip_with, Ha, Hl. reflexivity. }
    apply Hall in Hin. apply orb_true_iff in Hin as [H0 | H0].
    + apply Z.eqb_eq in H0. congruence.
    + intros ->. discriminate.
  - apply lookup_ge_None in Ha. apply lookup_lt_Some in Hl. lia.
Qed.

Lemma foreground_positive (depth_map : ndarray float) (k : nat) (a : Z) :
  Np.cells (foreground depth_map) !! k = Some a -> a <> 0 ->
  positive_at depth_map k.
Proof.
  unfold foreground, positive_at. cbn [Np.map Np.cells]. rewrite list_lookup_fmap.
  destruct (Np.cells depth_map !! k) as [x | ]; [ | discriminate].
  cbn. intros Ha Hne. exists x. split; [reflexivity | ].
  destruct (F64.ltb F64.zero x); [reflexivity | congruence].
Qed.

End ConnectedComponents.

(** C5.  The masks [get_connected_components] returns are pairwise
    disjoint; and when the labelling keeps to its contract (labels of the
    shape of the image, 0 on the background) the function returns, and
    every pixel of a returned mask is a pixel of positive depth. *)
Theorem components_disjoint_foreground `{OpenCV} (depth_map : ndarray float)
    (th : float) :
  (forall comps, get_connected_components depth_map th = Ok comps ->
     forall i j ci cj k, i <> j ->
       comps !! i = Some ci -> comps !! j = Some cj ->
       ~ (set_in (snd ci) k /\ set_in (snd cj) k))
  /\ (forall num result,
        connectedComponents (foreground depth_map) = Ok (num, result) ->
        labels_respect (foreground depth_map) result = true ->
        exists comps, get_connected_components depth_map th = Ok comps
          /\ forall c k, c ∈ comps -> set_in (snd c) k -> positive_at depth_map k).
Proof.
  split.
  - intros comps Hrun i j ci cj k Hij Hi Hj [Hsi Hsj].
    unfold get_connected_components in Hrun.
    destruct (connectedComponents (foreground depth_map)) as [[num result] | e];
      [ | discriminate].
    cbn [bind] in Hrun.
    apply components_loop_masks in Hrun as (kept & Hsub & Hout). cbn in Hout.
    assert (Hnd : NoDup kept) by (eapply sublist_NoDup; [apply range_NoDup | exact Hsub]).
    assert (Hmask : forall n c, comps !! n = Some c ->
              exists l, kept !! n = Some l /\ snd c = label_mask result l).
    { intros n c Hc.
      assert (Hn : (snd <$> comps) !! n = Some (snd c))
        by (rewrite list_lookup_fmap, Hc; reflexivity).
      rewrite Hout, list_lookup_fmap in Hn.
      destruct (kept !! n) as [l | ]; [ | discriminate].
      exists l. split; [reflexivity | ]. cbn in Hn. congruence. }
    destruct (Hmask i ci Hi) as (li & Hli & Hci).
    destruct (Hmask j cj Hj) as (lj & Hlj & Hcj).
    rewrite Hci in Hsi. rewrite Hcj in Hsj.
    apply set_in_label_mask in Hsi. apply set_in_label_mask in Hsj.
    assert (li = lj) by congruence. subst lj.
    apply Hij. eapply NoDup_lookup; eassumption.
  - intros num result Hcc Hresp.
    assert (Hshape : Np.same_shape depth_map result = true).
    { unfold labels_respect, Np.like in Hresp.
      rewrite !andb_true_iff in Hresp. apply Hresp. }
    unfold get_connected_components. rewrite Hcc. cbn [bind].
    destruct (components_loop_ok depth_map th (Np.sum (foreground depth_map))
                result (range 1 num) [] Hshape) as [comps Hrun].
    exists comps. split; [exact Hrun | ].
    intros c k Hc Hset.
    apply components_loop_masks in Hrun as (kept & Hsub & Hout). cbn in Hout.
    assert (Hin : snd c ∈ label_mask result <$> kept).
    { rewrite <- Hout. apply list_elem_of_fmap. exists c. split; [reflexivity | exact Hc]. }
    apply list_elem_of_fmap in Hin as (l & Hl & Hkept).
    rewrite Hl in Hset. apply set_in_label_mask in Hset.
    assert (Hl1 : 1 <= l).
    { apply (range_lower 1 num). eapply elem_of_sublist; eassumption. }
    destruct (labels_respect_spec (foreground depth_map) result k l Hresp Hset)
      as (a & Ha & Hane); [lia | ].
    exact (foreground_positive depth_map k a Ha Hane).
Qed.

(** ** [close_map] *)

Section CloseMap.

Lemma like_spec {A B} (a : ndarray A) (b : ndarray B) :
  Np.like a b = true <->
  Np.nrows a = Np.nrows b /\ Np.ncols a = Np.ncols b
  /\ length (Np.cells a) = length (Np.cells b).
Proof.
  unfold Np.like, Np.same_shape. rewrite !andb_true_iff, !Nat.eqb_eq. tauto.
Qed.

Lemma uint8_binary (m : ndarray Z) : binary m = true -> uint8 m = m.
Proof.
  destruct m as [r c l]. unfold binary, uint8, Np.map. cbn [Np.cells Np.nrows Np.ncols].
  intros Hb. f_equal. induction l as [ | v l IH]; [reflexivity | ].
  cbn [forallb] in Hb. apply andb_true_iff in Hb as [Hv Hl].
  cbn [fmap list_fmap]. f_equal; [ | exact (IH Hl)].
  apply orb_true_iff in Hv as [Hv | Hv]; apply Z.eqb_eq in Hv; subst v; reflexivity.
Qed.

Lemma traverse_Forall2 {A B} (f : A -> res B) (l : list A) (l' : list B) :
  Forall2 (fun x y => f x = Ok y) l l' -> traverse f l = Ok l'.
Proof.
  induction 1 as [ | x y l l' Hxy _ IH]; [reflexivity | ].
  cbn [traverse]. rewrite Hxy. cbn [bind]. rewrite IH. reflexivity.
Qed.

(** One step of the reduction: the accumulator and a closing of its shape. *)
Lemma logical_and_step (acc : array) (c : ndarray Z) :
  Np.like c (truth acc) = true ->
  exists r, logical_and acc (U8Arr c) = Ok (BoolArr r)
    /\ Np.like r (truth acc) = true
    /\ forall k b, Np.cells (truth acc) !! k = Some b ->
         Np.cells r !! k = Some (b && filled c k).
Proof.
  intros Hlike. apply like_spec in Hlike as (Hr & Hc & Hlen).
  unfold logical_and, Np.binop, Np.same_shape.
  rewrite <- Hr, <- Hc. cbn [truth Np.map Np.nrows Np.ncols]. rewrite !Nat.eqb_refl.
  cbn [andb bind]. eexists. split; [reflexivity | split].
  - apply like_spec. cbn [Np.nrows Np.ncols Np.cells Np.map].
    rewrite length_zip_with, length_fmap. lia.
  - intros k b Hb. cbn [Np.cells Np.map].
    rewrite lookup_zip_with, Hb, list_lookup_fmap. unfold filled.
    destruct (Np.cells c !! k) as [v | ] eqn:Hv; [reflexivity | ].
    apply lookup_ge_None in Hv. apply lookup_lt_Some in Hb. lia.
Qed.

Lemma reduce_and (cs : list (ndarray Z)) (acc : array) :
  cs <> [] ->
  Forall (fun c => Np.like c (truth acc) = true) cs ->
  exists r, reduce logical_and (U8Arr <$> cs) acc = Ok (BoolArr r)
    /\ Np.like r (truth acc) = true
    /\ forall k b, Np.cells (truth acc) !! k = Some b ->
         Np.cells r !! k = Some (b && forallb (fun c => filled c k) cs).
Proof.
  revert acc. induction cs as [ | c cs IH]; intros acc Hne Hall; [congruence | ].
  apply Forall_cons in Hall as [Hc Hcs].
  destruct (logical_and_step acc c Hc) as (r1 & Hstep & Hlike1 & Hcell1).
  cbn [fmap list_fmap reduce]. rewrite Hstep. cbn [bind].
  destruct cs as [ | c' cs'].
  - exists r1. split; [reflexivity | split; [exact Hlike1 | ]].
    intros k b Hb. rewrite (Hcell1 k b Hb). cbn [forallb].
    rewrite andb_true_r. reflexivity.
  - destruct (IH (BoolArr r1)) as (r & Hred & Hlike & Hcell); [discriminate | | ].
    + cbn [truth]. eapply Forall_impl; [exact Hcs | ].
      intros x Hx. apply like_spec. apply like_spec in Hx, Hlike1. lia.
    + exists r. split; [exact Hred | split].
      * cbn [truth] in Hlike. apply like_spec. apply like_spec in Hlike, Hlike1. lia.
      * intros k b Hb. cbn [truth] in Hcell.
        rewrite (Hcell k _ (Hcell1 k b Hb)).
        cbn [forallb]. destruct b, (filled c k); reflexivity.
Qed.

End CloseMap.

(** C7.  For a binary mask and a non-empty list of kernels whose closings
    OpenCV returns in the shape of the mask, [close_map] is the reduction
    by [logical_and] of the closings from an accumulator of ones, and a
    pixel of its result is set exactly when every closing has it filled. *)
Theorem close_map_intersection `{OpenCV} (map_arr : ndarray Z)
    (kernels closings : list (ndarray Z)) :
  binary map_arr = true -> Np.wf map_arr -> kernels <> [] ->
  Forall2 (fun kernel c =>
             morphologyEx_close map_arr kernel = Ok c
             /\ Np.like c map_arr = true) kernels closings ->
  exists r,
    close_map map_arr (Some kernels) = Ok (BoolArr r)
    /\ close_map map_arr (Some kernels)
       = reduce logical_and (U8Arr <$> closings)
           (F64Arr (Np.full (Np.shape map_arr) F64.one))
    /\ Np.shape r = Np.shape map_arr
    /\ Np.size r = Np.size map_arr
    /\ forall k, (k < Np.size map_arr)%nat ->
         Np.cells r !! k = Some (forallb (fun c => filled c k) closings).
Proof.
  intros Hbin Hwf Hne Hcl.
  assert (Htrav : traverse (fun kernel => morphologyEx_close (uint8 map_arr) kernel)
                    kernels = Ok closings).
  { apply traverse_Forall2. rewrite uint8_binary by exact Hbin.
    eapply Forall2_impl; [exact Hcl | ]. intros x y [Hxy _]. exact Hxy. }
  assert (Hunfold : close_map map_arr (Some kernels)
            = reduce logical_and (U8Arr <$> closings)
                (F64Arr (Np.full (Np.shape map_arr) F64.one))).
  { unfold close_map. rewrite Htrav. reflexivity. }
  set (acc := F64Arr (Np.full (Np.shape map_arr) F64.one)) in *.
  assert (Hacc : Np.like (truth acc) map_arr = true).
  { apply like_spec. unfold acc, Np.full, Np.shape.
    cbn [truth Np.map Np.nrows Np.ncols Np.cells fst snd].
    rewrite length_fmap, length_replicate. unfold Np.wf in Hwf. lia. }
  assert (Hones : forall k, (k < Np.size map_arr)%nat ->
            Np.cells (truth acc) !! k = Some true).
  { intros k Hk. unfold acc, Np.full, Np.shape.
    cbn [truth Np.map Np.cells fst snd].
    rewrite list_lookup_fmap, lookup_replicate_2; [reflexivity | ].
    unfold Np.wf, Np.size in *. lia. }
  destruct (reduce_and closings acc) as (r & Hred & Hlike & Hcell).
  - intros ->. apply Forall2_nil_inv_r in Hcl. congruence.
  - apply Forall2_Forall_r with (Q := fun c => Np.like c (truth acc) = true) in Hcl;
      [exact Hcl | ].
    apply Forall_forall. intros x _ y [_ Hy].
    apply like_spec. apply like_spec in Hy, Hacc. lia.
  - exists r. apply like_spec in Hlike, Hacc.
    split; [rewrite Hunfold; exact Hred | split; [exact Hunfold | ]].
    split; [unfold Np.shape; f_equal; lia | ].
    split; [unfold Np.size; lia | ].
    intros k Hk. rewrite (Hcell k true (Hones k Hk)). reflexivity.
Qed.

(** ** Index arrays and in-place assignment *)

Section Indexing.

Lemma find_from_spec {A} (p : A -> bool) (n : nat) (l : list A) (i : nat) :
  i ∈ Np.find_from p n l <->
  (n <= i)%nat /\ exists v, l !! (i - n)%nat = Some v /\ p v = true.
Proof.
  revert n. induction l as [ | x l IH]; intros n; cbn [Np.find_from].
  - split; [intros Hin; inversion Hin | intros (_ & v & Hv & _); discriminate].
  - assert (Htail : i ∈ Np.find_from p (S n) l <->
              (n < i)%nat /\ exists v, (x :: l) !! (i - n)%nat = Some v /\ p v = true).
    { rewrite IH. split.
      - intros (Hle & v & Hv & Hp). split; [lia | ]. exists v. split; [ | exact Hp].
        replace (i - n)%nat with (S (i - S n)) by lia. exact Hv.
      - intros (Hlt & v & Hv & Hp). split; [lia | ]. exists v. split; [ | exact Hp].
        replace (i - n)%nat with (S (i - S n)) in Hv by lia. exact Hv. }
    destruct (p x) eqn:Hpx.
    + rewrite elem_of_cons, Htail. split.
      * intros [-> | (Hlt & Hv)]; [ | split; [lia | exact Hv]].
        split; [lia | ]. exists x. rewrite Nat.sub_diag. split; [reflexivity | exact Hpx].
      * intros (Hle & v & Hv & Hp). destruct (decide (i = n)) as [-> | Hne]; [left; reflexivity | ].
        right. split; [lia | eauto].
    + rewrite Htail. split.
      * intros (Hlt & Hv). split; [lia | exact Hv].
      * intros (Hle & v & Hv & Hp). split; [ | eauto].
        destruct (decide (i = n)) as [-> | Hne]; [ | lia].
        rewrite Nat.sub_diag in Hv. cbn in Hv. congruence.
Qed.

(** The flat index of a position. *)
Lemma flat_of_where {A} (p : A -> bool) (a : ndarray A) (xy : nat * nat) :
  xy ∈ Np.where_ p a ->
  exists v, Np.cells a !! (fst xy * Np.ncols a + snd xy)%nat = Some v /\ p v = true.
Proof.
  unfold Np.where_. intros Hin. apply list_elem_of_fmap in Hin as (i & -> & Hi).
  apply find_from_spec in Hi as (_ & v & Hv & Hp). rewrite Nat.sub_0_r in Hv.
  exists v. split; [ | exact Hp]. cbn [fst snd].
  replace (i / Np.ncols a * Np.ncols a + i mod Np.ncols a)%nat with i; [exact Hv | ].
  rewrite Nat.mul_comm. apply Nat.div_mod_eq.
Qed.

Lemma traverse_elem {A B} (f : A -> res B) (l : list A) (r : list B) (y : B) :
  traverse f l = Ok r -> y ∈ r -> exists x, x ∈ l /\ f x = Ok y.
Proof.
  revert r. induction l as [ | x l IH]; intros r Hrun Hy; cbn [traverse] in Hrun.
  - injection Hrun as <-. inversion Hy.
  - destruct (f x) as [y0 | ] eqn:Hfx; [ | discriminate]. cbn [bind] in Hrun.
    destruct (traverse f l) as [ys | ]; [ | discriminate]. cbn [bind] in Hrun.
    injection Hrun as <-. apply elem_of_cons in Hy as [-> | Hy].
    + exists x. split; [left | exact Hfx].
    + destruct (IH ys eq_refl Hy) as (x' & Hx' & Hfx'). exists x'. split; [right; exact Hx' | exact Hfx'].
Qed.

Lemma traverse_length {A B} (f : A -> res B) (l : list A) (r : list B) :
  traverse f l = Ok r -> length r = length l.
Proof.
  revert r. induction l as [ | x l IH]; intros r Hrun; cbn [traverse] in Hrun.
  - injection Hrun as <-. reflexivity.
  - destruct (f x); [ | discriminate]. cbn [bind] in Hrun.
    destruct (traverse f l) as [ys | ]; [ | discriminate]. cbn [bind] in Hrun.
    injection Hrun as <-. cbn [length]. f_equal. apply IH. reflexivity.
Qed.

(** Integer indexing only selects members of the list. *)
Lemma take_elem {A} (l : list A) (idx : list Z) (r : list A) (y : A) :
  Np.take l idx = Ok r -> y ∈ r -> y ∈ l.
Proof.
  unfold Np.take. intros Hrun Hy.
  destruct (traverse_elem _ _ _ _ Hrun Hy) as (k & _ & Hk).
  cbn beta zeta in Hk.
  destruct ((0 <=? k) && (k <? Z.of_nat (length l))).
  - destruct (l !! Z.to_nat k) as [v | ] eqn:Hv; [ | discriminate].
    injection Hk as <-. eapply list_elem_of_lookup_2; exact Hv.
  - destruct ((- Z.of_nat (length l) <=? k) && (k <? 0)); [ | discriminate].
    destruct (l !! Z.to_nat (k + Z.of_nat (length l))) as [v | ] eqn:Hv; [ | discriminate].
    injection Hk as <-. eapply list_elem_of_lookup_2; exact Hv.
Qed.

Lemma take_nil {A} (l : list A) : Np.take l [] = Ok [].
Proof. reflexivity. Qed.

Lemma foldl_insert_length {A P} (f : P -> nat) (v : A) (ps : list P) (l : list A) :
  length (foldl (fun l p => <[f p := v]> l) l ps) = length l.
Proof.
  revert l. induction ps as [ | p ps IH]; intros l; [reflexivity | ].
  cbn [foldl]. rewrite IH, length_insert. reflexivity.
Qed.

Lemma foldl_insert_other {A P} (f : P -> nat) (v : A) (ps : list P) (l : list A) (k : nat) :
  k ∉ f <$> ps ->
  foldl (fun l p => <[f p := v]> l) l ps !! k = l !! k.
Proof.
  revert l. induction ps as [ | p ps IH]; intros l Hk; [reflexivity | ].
  cbn [foldl]. rewrite fmap_cons, not_elem_of_cons in Hk. destruct Hk as [Hne Hk].
  rewrite IH by exact Hk. apply list_lookup_insert_ne. congruence.
Qed.

Lemma foldl_insert_hit {A P} (f : P -> nat) (v : A) (ps : list P) (l : list A) (k : nat) :
  k ∈ f <$> ps -> (k < length l)%nat ->
  foldl (fun l p => <[f p := v]> l) l ps !! k = Some v.
Proof.
  revert l. induction ps as [ | p ps IH]; intros l Hk Hlt; [inversion Hk | ].
  cbn [foldl]. destruct (decide (k ∈ f <$> ps)) as [Hin | Hnot].
  - apply IH; [exact Hin | rewrite length_insert; exact Hlt].
  - rewrite foldl_insert_other by exact Hnot.
    rewrite fmap_cons in Hk. apply elem_of_cons in Hk as [-> | Hk]; [ | contradiction].
    apply list_lookup_insert_eq. exact Hlt.
Qed.

Lemma set_all_inv {A} (v : A) (a a' : ndarray A) (ps : list (nat * nat)) :
  Np.set_all v a ps = Ok a' ->
  a' = Np.mk_ndarray (Np.nrows a) (Np.ncols a)
         (foldl (fun l p => <[(fst p * Np.ncols a + snd p)%nat := v]> l) (Np.cells a) ps).
Proof.
  unfold Np.set_all. destruct (forallb _ ps); [ | discriminate]. congruence.
Qed.

Lemma set_all_nil {A} (v : A) (a : ndarray A) : Np.set_all v a [] = Ok a.
Proof. destruct a. reflexivity. Qed.

End Indexing.

Section ExtractFacts.
Context `{Open3D}.

Lemma loop_body_inv (curr depth : loc) (count : Z)
    (result : list (loc * plane_model)) (s s' : state)
    (st' : Z * list (loc * plane_model)) :
  loop_body curr depth (count, result) s = (s', Ok st') ->
  exists d c prod g pm inliers xy c' a',
    heap s !! depth = Some (FloatArr d)
    /\ heap s !! curr = Some (IntArr c)
    /\ masked d c = Ok prod
    /\ _get_plane_from_pcd (gen s) prod = (g, Ok (pm, inliers))
    /\ Np.take (support c) inliers = Ok xy
    /\ Np.set_all 0 c xy = Ok c'
    /\ Np.set_all F64.one (Np.full (Np.shape c) F64.zero) xy = Ok a'
    /\ s' = mk_store (<[length (heap s) := FloatArr a']>
                        (<[curr := IntArr c']> (heap s ++ [FloatArr (Np.full (Np.shape c) F64.zero)]))) g
    /\ st' = (count - Z.of_nat (length inliers), result ++ [(length (heap s), pm)]).
Proof.
  unfold loop_body, bindM, read_float, read_int, lift, fit, alloc, write, ret.
  intros Hrun.
  destruct (heap s !! depth) as [[ | d] | ] eqn:Hd; try discriminate.
  destruct (heap s !! curr) as [[c | ] | ] eqn:Hc; try discriminate.
  destruct (masked d c) as [prod | ] eqn:Hprod; try discriminate.
  destruct (_get_plane_from_pcd (gen s) prod) as [g [[pm inliers] | ]] eqn:Hfit;
    try discriminate.
  cbn [heap gen] in Hrun.
  destruct (Np.take (support c) inliers) as [xy | ] eqn:Hxy; try discriminate.
  destruct (Np.set_all 0 c xy) as [c' | ] eqn:Hc'; try discriminate.
  cbn [heap gen] in Hrun.
  assert (Hcurr : (curr < length (heap s))%nat) by (eapply lookup_lt_Some; eassumption).
  rewrite list_lookup_insert_ne in Hrun by lia.
  rewrite lookup_app_r in Hrun by lia. rewrite Nat.sub_diag in Hrun. cbn [lookup list_lookup] in Hrun.
  destruct (Np.set_all F64.one (Np.full (Np.shape c) F64.zero) xy) as [a' | ] eqn:Ha';
    try discriminate.
  cbn [heap gen] in Hrun. injection Hrun as <- <-.
  exists d, c, prod, g, pm, inliers, xy, c', a'. repeat split; assumption || reflexivity.
Qed.

(** Whatever an iteration does, it leaves every object of the store but
    [curr] as it was, and only adds objects. *)
Lemma loop_body_frame (curr depth : loc) (st : Z * list (loc * plane_model))
    (s s' : state) (r : res (Z * list (loc * plane_model))) :
  loop_body curr depth st s = (s', r) ->
  (length (heap s) <= length (heap s'))%nat
  /\ forall l, l <> curr -> (l < length (heap s))%nat -> heap s' !! l = heap s !! l.
Proof.
  destruct st as [count result].
  unfold loop_body, bindM, read_float, read_int, lift, fit, alloc, write, ret.
  intros Hrun.
  repeat match type of Hrun with
         | context [_get_plane_from_pcd ?g ?d] =>
             destruct (_get_plane_from_pcd g d) as [? ?] eqn:?
         | context [match ?x with _ => _ end] => destruct x eqn:?
         end;
    injection Hrun as <- <-; cbn [heap];
    repeat rewrite length_insert; rewrite ?length_app; cbn [length];
    (split; [lia | ]); intros l' Hne Hlt;
    repeat rewrite list_lookup_insert_ne by lia;
    rewrite ?lookup_app_l by lia; reflexivity.
Qed.

Lemma loop_frame (fuel : nat) (curr depth : loc) (start_size : Z) (t : float)
    (st : Z * list (loc * plane_model)) (s s' : state)
    (o : outcome (list (loc * plane_model))) :
  loop fuel curr depth start_size t st s = (s', o) ->
  (length (heap s) <= length (heap s'))%nat
  /\ forall l, l <> curr -> (l < length (heap s))%nat -> heap s' !! l = heap s !! l.
Proof.
  revert st s. induction fuel as [ | fuel IH]; intros st s Hrun; cbn [loop] in Hrun.
  - injection Hrun as <- <-. split; [lia | reflexivity].
  - destruct (loop_test (fst st) start_size t) as [[ | ] | e].
    + destruct (loop_body curr depth st s) as [s1 [st1 | e]] eqn:Hbody.
      * apply loop_body_frame in Hbody as [Hlen1 Hsame1].
        apply IH in Hrun as [Hlen2 Hsame2]. split; [lia | ].
        intros l Hne Hlt. rewrite Hsame2 by lia. apply Hsame1; assumption.
      * injection Hrun as <- <-. eapply loop_body_frame. exact Hbody.
    + injection Hrun as <- <-. split; [lia | reflexivity].
    + injection Hrun as <- <-. split; [lia | reflexivity].
Qed.

Lemma extract_frame (map_arr depth_map : loc) (start_size : Z) (t : float)
    (fuel : nat) (s s' : state) (o : outcome (list (loc * plane_model))) :
  extract_planes_con map_arr depth_map start_size t fuel s = (s', o) ->
  forall l, (l < length (heap s))%nat -> heap s' !! l = heap s !! l.
Proof.
  unfold extract_planes_con, deepcopy, alloc. intros Hrun l Hlt.
  destruct (heap s !! map_arr) as [o0 | ].
  - apply loop_frame in Hrun as [_ Hsame]. cbn [heap] in Hsame.
    rewrite Hsame; [apply lookup_app_l; exact Hlt | lia | rewrite length_app; lia].
  - injection Hrun as <- <-. reflexivity.
Qed.

Lemma extract_grows (map_arr depth_map : loc) (start_size : Z) (t : float)
    (fuel : nat) (s s' : state) (o : outcome (list (loc * plane_model))) :
  extract_planes_con map_arr depth_map start_size t fuel s = (s', o) ->
  (length (heap s) <= length (heap s'))%nat.
Proof.
  unfold extract_planes_con, deepcopy, alloc. intros Hrun.
  destruct (heap s !! map_arr) as [o0 | ].
  - apply loop_frame in Hrun as [Hlen _]. cbn [heap] in Hlen.
    rewrite length_app in Hlen. lia.
  - injection Hrun as <- <-. lia.
Qed.

End ExtractFacts.

(** C3.  [extract_planes_con] never writes to an object of its caller:
    whether it returns, raises or is still running, the store it started
    from is a prefix of the store it reaches, unchanged, and [map_arr]
    holds what it held.  The array it zeroes is the copy it allocated. *)
Theorem extract_planes_con_keeps_input `{Open3D} (map_arr depth_map : loc)
    (start_size : Z) (t : float) (fuel : nat) (s : state) :
  let s' := fst (extract_planes_con map_arr depth_map start_size t fuel s) in
  take (length (heap s)) (heap s') = heap s
  /\ heap s' !! map_arr = heap s !! map_arr.
Proof.
  destruct (extract_planes_con map_arr depth_map start_size t fuel s) as [s' o] eqn:Hrun.
  cbn [fst]. pose proof (extract_frame _ _ _ _ _ _ _ _ Hrun) as Hsame.
  pose proof (extract_grows _ _ _ _ _ _ _ _ Hrun) as Hlen.
  split.
  - apply list_eq. intros l. destruct (decide (l < length (heap s))%nat) as [Hlt | Hge].
    + rewrite lookup_take_lt by exact Hlt. apply Hsame. exact Hlt.
    + rewrite lookup_take_ge by lia. symmetry. apply lookup_ge_None. lia.
  - destruct (decide (map_arr < length (heap s))%nat) as [Hlt | Hge];
      [apply Hsame; exact Hlt | ].
    unfold extract_planes_con, deepcopy in Hrun.
    destruct (heap s !! map_arr) as [o0 | ] eqn:Hm.
    + apply lookup_lt_Some in Hm. lia.
    + injection Hrun as <- <-. rewrite Hm. reflexivity.
Qed.

(** ** The invariant of the extraction loop *)

Section ExtractInvariant.
Context `{Open3D}.

Lemma nonzero_zero : F64.nonzero F64.zero = false.
Proof. reflexivity. Qed.

(** The cells of a mask written by [a[x, y] = 1] over zeros. *)
Lemma lit_in_ones (sh : nat * nat) (xy : list (nat * nat)) (a' : ndarray float) (k : nat) :
  Np.set_all F64.one (Np.full sh F64.zero) xy = Ok a' ->
  lit_in a' k -> k ∈ (fun p => (fst p * snd sh + snd p)%nat) <$> xy.
Proof.
  intros Hset (v & Hv & Hnz). apply set_all_inv in Hset. subst a'.
  cbn [Np.cells Np.full Np.ncols Np.nrows] in Hv.
  destruct (decide (k ∈ (fun p => (fst p * snd sh + snd p)%nat) <$> xy)) as [Hin | Hnot];
    [exact Hin | ].
  rewrite foldl_insert_other in Hv by exact Hnot.
  apply lookup_replicate in Hv as [-> _]. discriminate.
Qed.

(** The cells of the working copy after [a[x, y] = 0]. *)
Lemma set_in_zeroed (c c' : ndarray Z) (xy : list (nat * nat)) (k : nat) :
  Np.set_all 0 c xy = Ok c' ->
  set_in c' k ->
  set_in c k /\ k ∉ (fun p => (fst p * Np.ncols c + snd p)%nat) <$> xy.
Proof.
  intros Hset (v & Hv & Hne). apply set_all_inv in Hset. subst c'.
  cbn [Np.cells] in Hv.
  destruct (decide (k ∈ (fun p => (fst p * Np.ncols c + snd p)%nat) <$> xy)) as [Hin | Hnot].
  - rewrite foldl_insert_hit in Hv; [congruence | exact Hin | ].
    apply lookup_lt_Some in Hv. rewrite foldl_insert_length in Hv. exact Hv.
  - rewrite foldl_insert_other in Hv by exact Hnot.
    split; [exists v; split; assumption | exact Hnot].
Qed.

(** The positions [ls[inliers]] are pixels of the support of [c]. *)
Lemma inlier_in_support (c : ndarray Z) (inliers : list Z) (xy : list (nat * nat)) (k : nat) :
  Np.take (support c) inliers = Ok xy ->
  k ∈ (fun p => (fst p * Np.ncols c + snd p)%nat) <$> xy ->
  set_in c k.
Proof.
  intros Htake Hk. apply list_elem_of_fmap in Hk as (p & -> & Hp).
  apply (take_elem _ _ _ _ Htake) in Hp.
  apply flat_of_where in Hp as (v & Hv & Hnz).
  exists v. split; [exact Hv | ]. intros ->. discriminate.
Qed.

(** An iteration keeps the invariant. *)
Lemma loop_body_inv_step (m0 : ndarray Z) (curr depth : loc) (count : Z)
    (result : list (loc * plane_model)) (s s' : state)
    (st' : Z * list (loc * plane_model)) :
  loop_inv m0 curr s result ->
  loop_body curr depth (count, result) s = (s', Ok st') ->
  loop_inv m0 curr s' (snd st').
Proof.
  intros (Hcurr & Hres & Hdisj) Hrun.
  apply loop_body_inv in Hrun
    as (d & c & prod & g & pm & inliers & xy & c' & a' & Hd & Hc & Hprod & Hfit
        & Hxy & Hc' & Ha' & -> & ->).
  cbn [snd].
  destruct Hcurr as (c0 & Hc0 & Hshape & Hsub).
  assert (c0 = c) by congruence. subst c0.
  assert (Hlt : (curr < length (heap s))%nat) by (eapply lookup_lt_Some; exact Hc).
  set (zeros := FloatArr (Np.full (Np.shape c) F64.zero)) in *.
  assert (Hnew_curr : forall o, (<[length (heap s) := o]> (<[curr := IntArr c']> (heap s ++ [zeros])))
                        !! curr = Some (IntArr c')).
  { intros o. rewrite list_lookup_insert_ne by lia.
    apply list_lookup_insert_eq. rewrite length_app. lia. }
  assert (Hnew_ans : (<[length (heap s) := FloatArr a']> (<[curr := IntArr c']> (heap s ++ [zeros])))
                        !! length (heap s) = Some (FloatArr a')).
  { apply list_lookup_insert_eq. rewrite length_insert, length_app. cbn. lia. }
  assert (Hold : forall l, l <> curr -> (l < length (heap s))%nat ->
            (<[length (heap s) := FloatArr a']> (<[curr := IntArr c']> (heap s ++ [zeros]))) !! l
            = heap s !! l).
  { intros l Hne Hl. rewrite !list_lookup_insert_ne by lia. apply lookup_app_l. exact Hl. }
  assert (Hshape' : Np.shape c' = Np.shape c).
  { apply set_all_inv in Hc'. subst c'. reflexivity. }
  assert (Hshape_a : Np.shape a' = Np.shape c).
  { apply set_all_inv in Ha'. subst a'. destruct c. reflexivity. }
  assert (Hlit_a : forall k, lit_in a' k -> set_in c k /\ ~ set_in c' k).
  { intros k Hk. apply (lit_in_ones _ _ _ _ Ha') in Hk. cbn [Np.shape snd] in Hk.
    split; [eapply inlier_in_support; eassumption | ].
    intros Hset. apply (set_in_zeroed _ _ _ _ Hc') in Hset as [_ Hnot]. contradiction. }
  assert (Hres_old : forall i l pm0, result !! i = Some (l, pm0) ->
            l <> curr /\ (l < length (heap s))%nat
            /\ exists a, heap s !! l = Some (FloatArr a)
                 /\ Np.shape a = Np.shape m0
                 /\ forall k, lit_in a k -> set_in m0 k /\ ~ set_in c k).
  { intros i l pm0 Hi. destruct (Hres i l pm0 Hi) as (Hne & a & Ha & Hsa & Hlit).
    split; [exact Hne | ]. split; [eapply lookup_lt_Some; exact Ha | ].
    exists a. split; [exact Ha | ]. split; [exact Hsa | ].
    intros k Hk. destruct (Hlit k Hk) as [Hm0 Hnc]. split; [exact Hm0 | ].
    apply Hnc. exact Hc. }
  unfold loop_inv. cbn [heap]. split; [ | split].
  - exists c'. split; [apply Hnew_curr | ]. split; [congruence | ].
    intros k Hk. apply Hsub. eapply set_in_zeroed; eassumption.
  - intros i l pm0 Hi. apply lookup_app_Some in Hi as [Hi | [Hlen Hi]].
    + destruct (Hres_old i l pm0 Hi) as (Hne & Hl & a & Ha & Hsa & Hlit).
      split; [exact Hne | ]. exists a. rewrite Hold by assumption.
      split; [exact Ha | ]. split; [exact Hsa | ].
      intros k Hk. destruct (Hlit k Hk) as [Hm0 Hnc]. split; [exact Hm0 | ].
      intros c1 Hc1. rewrite Hnew_curr in Hc1. injection Hc1 as <-.
      intros Hset. apply Hnc. eapply set_in_zeroed; eassumption.
    + destruct (i - length result)%nat as [ | i']; [ | destruct i'; discriminate].
      cbn in Hi. injection Hi as <- <-. split; [lia | ].
      exists a'. split; [exact Hnew_ans | ]. split; [congruence | ].
      intros k Hk. destruct (Hlit_a k Hk) as [Hck Hnc']. split; [apply Hsub; exact Hck | ].
      intros c1 Hc1. rewrite Hnew_curr in Hc1. injection Hc1 as <-. exact Hnc'.
  - intros i j li pi lj pj a b k Hij Hi Hj Ha Hb [Hka Hkb].
    apply lookup_app_Some in Hi as [Hi | [Hleni Hi]];
      apply lookup_app_Some in Hj as [Hj | [Hlenj Hj]].
    + destruct (Hres_old i li pi Hi) as (Hnei & Hli & _).
      destruct (Hres_old j lj pj Hj) as (Hnej & Hlj & _).
      rewrite Hold in Ha, Hb by assumption.
      exact (Hdisj i j li pi lj pj a b k Hij Hi Hj Ha Hb (conj Hka Hkb)).
    + destruct (Hres_old i li pi Hi) as (Hnei & Hli & a0 & Ha0 & _ & Hlit).
      rewrite Hold in Ha by assumption. assert (a0 = a) by congruence. subst a0.
      destruct (j - length result)%nat as [ | j']; [ | destruct j'; discriminate].
      cbn in Hj. injection Hj as <- <-.
      assert (Hab : Some (FloatArr b) = Some (FloatArr a')) by (rewrite <- Hb; exact Hnew_ans).
      injection Hab as ->.
      destruct (Hlit k Hka) as [_ Hnc]. apply Hnc. apply Hlit_a. exact Hkb.
    + destruct (Hres_old j lj pj Hj) as (Hnej & Hlj & b0 & Hb0 & _ & Hlit).
      rewrite Hold in Hb by assumption. assert (b0 = b) by congruence. subst b0.
      destruct (i - length result)%nat as [ | i']; [ | destruct i'; discriminate].
      cbn in Hi. injection Hi as <- <-.
      assert (Hab : Some (FloatArr a) = Some (FloatArr a')) by (rewrite <- Ha; exact Hnew_ans).
      injection Hab as ->.
      destruct (Hlit k Hkb) as [_ Hnc]. apply Hnc. apply Hlit_a. exact Hka.
    + destruct (i - length result)%nat as [ | i'] eqn:Ei; [ | destruct i'; discriminate].
      destruct (j - length result)%nat as [ | j'] eqn:Ej; [ | destruct j'; discriminate].
      lia.
Qed.

Lemma loop_keeps_inv (m0 : ndarray Z) (fuel : nat) (curr depth : loc)
    (start_size : Z) (t : float) (st : Z * list (loc * plane_model))
    (s s' : state) (result : list (loc * plane_model)) :
  loop_inv m0 curr s (snd st) ->
  loop fuel curr depth start_size t st s = (s', Done result) ->
  loop_inv m0 curr s' result.
Proof.
  revert st s. induction fuel as [ | fuel IH]; intros st s Hinv Hrun; cbn [loop] in Hrun.
  - discriminate.
  - destruct (loop_test (fst st) start_size t) as [[ | ] | e]; [ | | discriminate].
    + destruct (loop_body curr depth st s) as [s1 [st1 | e]] eqn:Hbody; [ | discriminate].
      destruct st as [count res]. cbn [snd] in Hinv.
      apply (loop_body_inv_step m0) in Hbody; [ | exact Hinv].
      exact (IH st1 s1 Hbody Hrun).
    + injection Hrun as <- <-. exact Hinv.
Qed.

End ExtractInvariant.

(** C10.  When [extract_planes_con] returns, every mask of its list is an
    array of the shape of the input mask whose set pixels are set in the
    input mask, and no pixel is set in two masks of the list. *)
Theorem extract_planes_con_masks_disjoint `{Open3D} (map_arr depth_map : loc)
    (m0 : ndarray Z) (start_size : Z) (t : float) (fuel : nat) (s s' : state)
    (result : list (loc * plane_model)) :
  heap s !! map_arr = Some (IntArr m0) ->
  extract_planes_con map_arr depth_map start_size t fuel s = (s', Done result) ->
  (forall i l pm, result !! i = Some (l, pm) ->
     exists a, heap s' !! l = Some (FloatArr a)
       /\ Np.shape a = Np.shape m0
       /\ forall k, lit_in a k -> set_in m0 k)
  /\ (forall i j li pi lj pj a b, i <> j ->
        result !! i = Some (li, pi) -> result !! j = Some (lj, pj) ->
        heap s' !! li = Some (FloatArr a) -> heap s' !! lj = Some (FloatArr b) ->
        forall k, ~ (lit_in a k /\ lit_in b k)).
Proof.
  intros Hm Hrun. unfold extract_planes_con, deepcopy, alloc in Hrun. rewrite Hm in Hrun.
  apply (loop_keeps_inv m0) in Hrun.
  - destruct Hrun as (_ & Hres & Hdisj). split.
    + intros i l pm Hi. destruct (Hres i l pm Hi) as (_ & a & Ha & Hsa & Hlit).
      exists a. split; [exact Ha | ]. split; [exact Hsa | ].
      intros k Hk. apply Hlit. exact Hk.
    + intros i j li pi lj pj a b Hij Hi Hj Ha Hb k.
      exact (Hdisj i j li pi lj pj a b k Hij Hi Hj Ha Hb).
  - cbn [snd heap]. split; [ | split].
    + exists m0. split; [ | split; [reflexivity | tauto]].
      apply list_lookup_middle. reflexivity.
    + intros i l pm Hi. rewrite lookup_nil in Hi. discriminate.
    + intros i j li pi lj pj a b k _ Hi. rewrite lookup_nil in Hi. discriminate.
Qed.

(** ** The loop condition and the length of the loop *)

Section LoopCondition.

Lemma to_int_floor (x : float) :
  F64.ltb x F64.zero = false -> F64.to_int x = F64.floor x.
Proof. destruct x as [ | | | [ | ] m e]; cbn; congruence. Qed.

Lemma loop_test_floor (count start_size : Z) (t f : float) :
  F64.of_int start_size = Ok f ->
  F64.ltb (F64.mul f t) F64.zero = false ->
  loop_test count start_size t = floor_test count start_size t.
Proof.
  intros Hf Hsign. unfold loop_test, floor_test. rewrite Hf. cbn [bind].
  rewrite to_int_floor by exact Hsign. reflexivity.
Qed.

Lemma loop_test_int (count start_size : Z) (t f : float) (b : Z) :
  F64.of_int start_size = Ok f -> F64.to_int (F64.mul f t) = Ok b ->
  loop_test count start_size t = Ok (b <=? count).
Proof. intros Hf Hb. unfold loop_test. rewrite Hf. cbn [bind]. rewrite Hb. reflexivity. Qed.

Lemma loop_test_zero (t : float) :
  loop_test 0 0 t = if F64.is_finite t then Ok true else Err ValueError.
Proof. destruct t as [ | | | s m e]; reflexivity. Qed.

Lemma of_int_small (n : Z) : 0 < n <= 2 ^ 53 -> F64.of_int n = Ok (F64.of_Z n).
Proof.
  intros Hn. destruct (Z.eq_dec n (2 ^ 53)) as [-> | Hne]; [reflexivity | ].
  destruct n as [ | p | p]; try lia.
  destruct (of_Z_small p) as (m & e & Hm & _); [lia | ].
  unfold F64.of_int. rewrite Hm. reflexivity.
Qed.

(** With [t = 1.0] the bound is [start_size] itself, up to [2^53]. *)
Lemma loop_test_one (count n : Z) :
  0 < n <= 2 ^ 53 -> loop_test count n F64.one = Ok (n <=? count).
Proof.
  intros Hn. apply (loop_test_int count n F64.one (F64.of_Z n) n).
  - apply of_int_small. exact Hn.
  - apply to_int_of_Z_mul_one. exact Hn.
Qed.

End LoopCondition.

Section LoopLength.
Context `{Open3D}.

(** An iteration that succeeds, from what its steps return. *)
Lemma loop_body_run (curr depth : loc) (count : Z)
    (result : list (loc * plane_model)) (s : state)
    d c prod g pm inliers xy c' a' :
  heap s !! depth = Some (FloatArr d) ->
  heap s !! curr = Some (IntArr c) ->
  masked d c = Ok prod ->
  _get_plane_from_pcd (gen s) prod = (g, Ok (pm, inliers)) ->
  Np.take (support c) inliers = Ok xy ->
  Np.set_all 0 c xy = Ok c' ->
  Np.set_all F64.one (Np.full (Np.shape c) F64.zero) xy = Ok a' ->
  loop_body curr depth (count, result) s =
  (mk_store (<[length (heap s) := FloatArr a']>
               (<[curr := IntArr c']>
                  (heap s ++ [FloatArr (Np.full (Np.shape c) F64.zero)]))) g,
   Ok (count - Z.of_nat (length inliers), result ++ [(length (heap s), pm)])).
Proof.
  intros Hd Hc Hprod Hfit Hxy Hc' Ha'.
  assert (Hcurr : (curr < length (heap s))%nat) by (eapply lookup_lt_Some; eassumption).
  unfold loop_body, bindM, read_float, read_int, lift, fit, alloc, write, ret.
  rewrite Hd, Hc, Hprod, Hfit. cbn [heap gen]. rewrite Hxy, Hc'. cbn [heap gen].
  rewrite list_lookup_insert_ne by lia.
  rewrite lookup_app_r by lia. rewrite Nat.sub_diag. cbn [lookup list_lookup].
  rewrite Ha'. reflexivity.
Qed.

(** The list only grows. *)
Lemma loop_result_extends (fuel : nat) (curr depth : loc) (start_size : Z)
    (t : float) (st : Z * list (loc * plane_model)) (s s' : state)
    (r : list (loc * plane_model)) :
  loop fuel curr depth start_size t st s = (s', Done r) ->
  exists more, r = snd st ++ more.
Proof.
  revert st s. induction fuel as [ | fuel IH]; intros st s Hrun; cbn [loop] in Hrun.
  - discriminate.
  - destruct (loop_test (fst st) start_size t) as [[ | ] | e]; [ | | discriminate].
    + destruct (loop_body curr depth st s) as [s1 [st1 | e]] eqn:Hbody; [ | discriminate].
      destruct st as [count res].
      apply loop_body_inv in Hbody
        as (d & c & prod & g & pm & inliers & xy & c' & a' & _ & _ & _ & _ & _ & _ & _ & _ & ->).
      apply IH in Hrun as [more ->]. cbn [snd]. rewrite <- app_assoc. eauto.
    + injection Hrun as <- <-. exists []. rewrite app_nil_r. reflexivity.
Qed.

(** From [start_size = 0] the list returned is never empty. *)
Lemma extract_zero_nonempty (map_arr depth_map : loc) (t : float) (fuel : nat)
    (s s' : state) (result : list (loc * plane_model)) :
  extract_planes_con map_arr depth_map 0 t fuel s = (s', Done result) ->
  result <> [].
Proof.
  unfold extract_planes_con. destruct (deepcopy map_arr s) as [s0 [curr | e]];
    [ | discriminate].
  destruct fuel as [ | fuel]; cbn [loop fst]; [discriminate | ].
  rewrite loop_test_zero. destruct (F64.is_finite t); [ | discriminate].
  destruct (loop_body curr depth_map (0, []) s0) as [s1 [st1 | e]] eqn:Hbody;
    [ | discriminate].
  apply loop_body_inv in Hbody
    as (d & c & prod & g & pm & inliers & xy & c' & a' & _ & _ & _ & _ & _ & _ & _ & _ & ->).
  intros Hrun. apply loop_result_extends in Hrun as [more ->]. cbn [snd app].
  discriminate.
Qed.

(** With [t = 1.0], one iteration that removes an inlier ends the loop. *)
Lemma extract_one_iteration (map_arr depth_map : loc) (start_size : Z)
    (fuel : nat) (s : state) :
  0 < start_size <= 2 ^ 53 -> fits_remove_inliers ->
  snd (extract_planes_con map_arr depth_map start_size F64.one (S (S fuel)) s)
    <> OutOfFuel
  /\ forall s' r,
       extract_planes_con map_arr depth_map start_size F64.one (S (S fuel)) s
         = (s', Done r) -> length r = 1%nat.
Proof.
  intros Hn Hfits. unfold extract_planes_con.
  destruct (deepcopy map_arr s) as [s0 [curr | e]]; [ | split; [discriminate | discriminate]].
  cbn [loop fst]. rewrite loop_test_one by exact Hn.
  rewrite (proj2 (Z.leb_le _ _) (Z.le_refl start_size)).
  destruct (loop_body curr depth_map (start_size, []) s0) as [s1 [st1 | e]] eqn:Hbody;
    [ | split; [discriminate | discriminate]].
  apply loop_body_inv in Hbody
    as (d & c & prod & g & pm & inliers & xy & c' & a' & _ & _ & _ & Hfit & _ & _ & _ & _ & ->).
  apply Hfits in Hfit. cbn [fst snd]. rewrite loop_test_one by exact Hn.
  assert (Hlt : (start_size <=? start_size - Z.of_nat (length inliers)) = false).
  { apply Z.leb_gt. destruct inliers; [congruence | cbn [length]; lia]. }
  rewrite Hlt. cbn [snd]. split; [discriminate | ].
  intros s' r Heq. injection Heq as <- <-. reflexivity.
Qed.

(** While the fit finds no inlier nothing changes, and the loop goes on. *)
Lemma loop_spins (curr depth : loc) (start_size count : Z) (t : float)
    (c : ndarray Z) (d prod : ndarray float) :
  masked d c = Ok prod -> fit_finds_nothing prod ->
  loop_test count start_size t = Ok true ->
  forall fuel result s,
    heap s !! curr = Some (IntArr c) -> heap s !! depth = Some (FloatArr d) ->
    snd (loop fuel curr depth start_size t (count, result) s) = OutOfFuel.
Proof.
  intros Hprod Hnothing Htest. induction fuel as [ | fuel IH]; intros result s Hc Hd.
  - reflexivity.
  - cbn [loop fst]. rewrite Htest.
    destruct (Hnothing (gen s)) as (g' & pm & Hfit).
    rewrite (loop_body_run curr depth count result s d c prod g' pm [] [] c
               (Np.full (Np.shape c) F64.zero))
      by (assumption || reflexivity || apply set_all_nil).
    cbn [length Z.of_nat]. rewrite Z.sub_0_r.
    assert (Hcl : (curr < length (heap s))%nat) by (eapply lookup_lt_Some; exact Hc).
    assert (Hdl : (depth < length (heap s))%nat) by (eapply lookup_lt_Some; exact Hd).
    assert (Hne : depth <> curr) by (intros ->; congruence).
    apply IH; cbn [heap].
    + rewrite list_lookup_insert_ne by lia.
      apply list_lookup_insert_eq. rewrite length_app. lia.
    + rewrite !list_lookup_insert_ne by lia. rewrite lookup_app_l by lia. exact Hd.
Qed.

Lemma extract_spins (map_arr depth_map : loc) (start_size : Z) (t : float)
    (c : ndarray Z) (d prod : ndarray float) (s : state) :
  heap s !! map_arr = Some (IntArr c) -> heap s !! depth_map = Some (FloatArr d) ->
  masked d c = Ok prod -> fit_finds_nothing prod ->
  loop_test start_size start_size t = Ok true ->
  forall fuel,
    snd (extract_planes_con map_arr depth_map start_size t fuel s) = OutOfFuel.
Proof.
  intros Hc Hd Hprod Hnothing Htest fuel.
  unfold extract_planes_con, deepcopy, alloc. rewrite Hc.
  assert (Hdl : (depth_map < length (heap s))%nat) by (eapply lookup_lt_Some; exact Hd).
  eapply loop_spins; try eassumption; cbn [heap].
  - apply list_lookup_middle. reflexivity.
  - rewrite lookup_app_l by lia. exact Hd.
Qed.

(** The call is the loop on a copy of the mask, from [count = start_size]
    and an empty result. *)
Lemma extract_unfold (map_arr depth_map : loc) (start_size : Z) (t : float)
    (fuel : nat) (s : state) (o : obj) :
  heap s !! map_arr = Some o ->
  extract_planes_con map_arr depth_map start_size t fuel s
  = loop fuel (length (heap s)) depth_map start_size t (start_size, [])
      (mk_store (heap s ++ [o]) (gen s)).
Proof.
  intros Ho. unfold extract_planes_con, deepcopy, alloc. rewrite Ho. reflexivity.
Qed.

(** The loop returns after [n] iterations exactly when the condition held
    before each of them and fails after the last. *)
Lemma loop_done_iff (fuel : nat) (curr depth : loc) (start_size : Z) (t : float)
    (st : Z * list (loc * plane_model)) (s s' : state)
    (r : list (loc * plane_model)) :
  loop fuel curr depth start_size t st s = (s', Done r) <->
  exists n count,
    (n < fuel)%nat
    /\ iterations n curr depth st s = (s', Ok (count, r))
    /\ loop_test count start_size t = Ok false
    /\ forall k, (k < n)%nat ->
         exists sk ck rk,
           iterations k curr depth st s = (sk, Ok (ck, rk))
           /\ loop_test ck start_size t = Ok true.
Proof.
  revert st s. induction fuel as [ | fuel IH]; intros [count0 r0] s.
  { split; [discriminate | intros (n & _ & Hn & _); lia]. }
  cbn [loop fst snd]. split.
  - destruct (loop_test count0 start_size t) as [[ | ] | e] eqn:Htest; [ | | discriminate].
    + destruct (loop_body curr depth (count0, r0) s) as [s1 [st1 | e]] eqn:Hbody;
        [ | discriminate].
      intros Hrun. apply IH in Hrun as (n & count & Hn & Hit & Hlast & Hbefore).
      exists (S n), count. split; [lia | ]. cbn [iterations]. rewrite Hbody.
      split; [exact Hit | ]. split; [exact Hlast | ].
      intros [ | k] Hk.
      * exists s, count0, r0. split; [reflexivity | exact Htest].
      * cbn [iterations]. rewrite Hbody. apply Hbefore. lia.
    + intros [= <- <-]. exists 0%nat, count0. split; [lia | ].
      split; [reflexivity | ]. split; [exact Htest | ]. intros k Hk. lia.
  - intros (n & count & Hn & Hit & Hlast & Hbefore). destruct n as [ | n].
    + cbn [iterations] in Hit. injection Hit as <- <- <-. rewrite Hlast. reflexivity.
    + destruct (Hbefore 0%nat ltac:(lia)) as (sk & ck & rk & H0 & Htest).
      cbn [iterations] in H0. injection H0 as <- <- <-. rewrite Htest.
      cbn [iterations] in Hit.
      destruct (loop_body curr depth (count0, r0) s) as [s1 [st1 | e]] eqn:Hbody;
        [ | discriminate].
      apply IH. exists n, count. split; [lia | ]. split; [exact Hit | ].
      split; [exact Hlast | ]. intros k Hk.
      specialize (Hbefore (S k) ltac:(lia)). cbn [iterations] in Hbefore.
      rewrite Hbody in Hbefore. exact Hbefore.
Qed.

(** A condition that fails at entry: the copy is made, no plane is fitted,
    and the empty list is returned. *)
Lemma extract_false_at_entry (map_arr depth_map : loc) (start_size : Z) (t f : float)
    (b : Z) (fuel : nat) (s : state) (o : obj) :
  heap s !! map_arr = Some o ->
  F64.of_int start_size = Ok f -> F64.to_int (F64.mul f t) = Ok b ->
  start_size < b ->
  extract_planes_con map_arr depth_map start_size t (S fuel) s
  = (mk_store (heap s ++ [o]) (gen s), Done []).
Proof.
  intros Ho Hf Hb Hlt. rewrite (extract_unfold _ _ _ _ _ _ o Ho).
  cbn [loop fst snd]. rewrite (loop_test_int start_size start_size t f b Hf Hb).
  destruct (Z.leb_spec b start_size) as [Hle | _]; [lia | reflexivity].
Qed.

(** From [start_size = 0] and a finite [t] the first iteration is run. *)
Lemma extract_zero_first_iteration (map_arr depth_map : loc) (t : float)
    (fuel : nat) (s : state) (o : obj) :
  heap s !! map_arr = Some o -> F64.is_finite t = true ->
  extract_planes_con map_arr depth_map 0 t (S fuel) s
  = match loop_body (length (heap s)) depth_map (0, [])
            (mk_store (heap s ++ [o]) (gen s)) with
    | (s1, Err e) => (s1, Raised e)
    | (s1, Ok st1) => loop fuel (length (heap s)) depth_map 0 t st1 s1
    end.
Proof.
  intros Ho Ht. rewrite (extract_unfold _ _ _ _ _ _ o Ho).
  cbn [loop fst snd]. rewrite loop_test_zero, Ht. reflexivity.
Qed.

Lemma extract_zero_not_finite (map_arr depth_map : loc) (t : float)
    (fuel : nat) (s : state) (o : obj) :
  heap s !! map_arr = Some o -> F64.is_finite t = false ->
  extract_planes_con map_arr depth_map 0 t (S fuel) s
  = (mk_store (heap s ++ [o]) (gen s), Raised ValueError).
Proof.
  intros Ho Ht. rewrite (extract_unfold _ _ _ _ _ _ o Ho).
  cbn [loop fst snd]. rewrite loop_test_zero, Ht. reflexivity.
Qed.

End LoopLength.

(** C1 (amended).  With [start_size = 0] the loop condition is
    [0 >= int(0 * t)]: true for every finite [t], and a [ValueError] of
    [int] for an infinite or NaN [t].  For a finite [t] the first
    iteration is therefore run before anything is returned, and the call
    is what that iteration and the rest of the loop make of it: the
    exception of the iteration, if it raises; no return at all, if the
    fit goes on finding no inlier; and a list that is never empty,
    whenever the call returns. *)
Theorem extract_planes_con_zero_start `{Open3D} (map_arr depth_map : loc)
    (t : float) (fuel : nat) (s : state) :
  loop_test 0 0 t = (if F64.is_finite t then Ok true else Err ValueError)
  /\ (forall s' result,
        extract_planes_con map_arr depth_map 0 t fuel s = (s', Done result) ->
        result <> [])
  /\ (forall o, heap s !! map_arr = Some o -> F64.is_finite t = true ->
        extract_planes_con map_arr depth_map 0 t (S fuel) s
        = match loop_body (length (heap s)) depth_map (0, [])
                  (mk_store (heap s ++ [o]) (gen s)) with
          | (s1, Err e) => (s1, Raised e)
          | (s1, Ok st1) => loop fuel (length (heap s)) depth_map 0 t st1 s1
          end)
  /\ (forall o, heap s !! map_arr = Some o -> F64.is_finite t = false ->
        extract_planes_con map_arr depth_map 0 t (S fuel) s
        = (mk_store (heap s ++ [o]) (gen s), Raised ValueError))
  /\ (forall c d prod,
        heap s !! map_arr = Some (IntArr c) ->
        heap s !! depth_map = Some (FloatArr d) ->
        masked d c = Ok prod -> fit_finds_nothing prod ->
        F64.is_finite t = true ->
        snd (extract_planes_con map_arr depth_map 0 t fuel s) = OutOfFuel).
Proof.
  split; [apply loop_test_zero | ]. split; [ | split; [ | split]].
  - intros s' result Hrun. eapply extract_zero_nonempty. exact Hrun.
  - intros o Ho Ht. apply extract_zero_first_iteration; assumption.
  - intros o Ho Ht. apply extract_zero_not_finite; assumption.
  - intros c d prod Hc Hd Hprod Hnothing Ht.
    eapply extract_spins; try eassumption. rewrite loop_test_zero, Ht. reflexivity.
Qed.

(** C2 (amended).  The loop goes on exactly while
    [count >= int(start_size * t)], where [int] truncates toward zero and
    is the floor when the product is not negative; an iteration takes the
    number of its inliers from [count] and appends one entry.  The
    condition is tested before every iteration, the first included: the
    call is the loop from [count = start_size] on a copy of the mask, it
    returns after [n] iterations exactly when the condition held before
    each of them and fails after the last, and a condition that fails at
    entry returns the empty list without a plane fit.  With
    [t = 1.0] and [0 < start_size <= 2^53], if every fit removes an
    inlier, the call ends within two tests of the condition, with exactly
    one entry when it returns.  And while the fit finds no inlier, a
    condition that holds keeps holding: no number of iterations ends the
    call. *)
Theorem extract_planes_con_loop `{Open3D} (map_arr depth_map : loc)
    (start_size : Z) (t : float) (s : state) :
  (forall count f b,
     F64.of_int start_size = Ok f -> F64.to_int (F64.mul f t) = Ok b ->
     loop_test count start_size t = Ok (b <=? count)
     /\ (F64.ltb (F64.mul f t) F64.zero = false ->
         floor_test count start_size t = Ok (b <=? count)))
  /\ (forall curr count result s1 s2 count' result',
        loop_body curr depth_map (count, result) s1 = (s2, Ok (count', result')) ->
        exists prod pm inliers,
          _get_plane_from_pcd (gen s1) prod = (gen s2, Ok (pm, inliers))
          /\ count' = count - Z.of_nat (length inliers)
          /\ result' = result ++ [(length (heap s1), pm)])
  /\ (0 < start_size <= 2 ^ 53 -> fits_remove_inliers ->
      forall fuel,
        snd (extract_planes_con map_arr depth_map start_size F64.one (S (S fuel)) s)
          <> OutOfFuel
        /\ forall s' r,
             extract_planes_con map_arr depth_map start_size F64.one (S (S fuel)) s
               = (s', Done r) -> length r = 1%nat)
  /\ (forall c d prod,
        heap s !! map_arr = Some (IntArr c) ->
        heap s !! depth_map = Some (FloatArr d) ->
        masked d c = Ok prod -> fit_finds_nothing prod ->
        loop_test start_size start_size t = Ok true ->
        forall fuel,
          snd (extract_planes_con map_arr depth_map start_size t fuel s) = OutOfFuel)
  /\ (forall o fuel,
        heap s !! map_arr = Some o ->
        extract_planes_con map_arr depth_map start_size t fuel s
        = loop fuel (length (heap s)) depth_map start_size t (start_size, [])
            (mk_store (heap s ++ [o]) (gen s)))
  /\ (forall fuel curr st s1 s' r,
        loop fuel curr depth_map start_size t st s1 = (s', Done r) <->
        exists n count,
          (n < fuel)%nat
          /\ iterations n curr depth_map st s1 = (s', Ok (count, r))
          /\ loop_test count start_size t = Ok false
          /\ forall k, (k < n)%nat ->
               exists sk ck rk,
                 iterations k curr depth_map st s1 = (sk, Ok (ck, rk))
                 /\ loop_test ck start_size t = Ok true)
  /\ (forall o f b fuel,
        heap s !! map_arr = Some o ->
        F64.of_int start_size = Ok f -> F64.to_int (F64.mul f t) = Ok b ->
        start_size < b ->
        extract_planes_con map_arr depth_map start_size t (S fuel) s
        = (mk_store (heap s ++ [o]) (gen s), Done [])).
Proof.
  split; [ | split; [ | split; [ | split; [ | split; [ | split]]]]].
  - intros count f b Hf Hb.
    pose proof (loop_test_int count start_size t f b Hf Hb) as Htest.
    split; [exact Htest | ]. intros Hsign.
    rewrite <- (loop_test_floor count start_size t f Hf Hsign). exact Htest.
  - intros curr count result s1 s2 count' result' Hbody.
    apply loop_body_inv in Hbody
      as (d & c & prod & g & pm & inliers & xy & c' & a' & _ & _ & _ & Hfit & _ & _ & _
          & -> & Hst).
    injection Hst as -> ->. exists prod, pm, inliers. cbn [gen heap].
    split; [exact Hfit | split; reflexivity].
  - intros Hn Hfits fuel. apply extract_one_iteration; assumption.
  - intros c d prod Hc Hd Hprod Hnothing Htest fuel.
    eapply extract_spins; eassumption.
  - intros o fuel Ho. apply extract_unfold. exact Ho.
  - intros fuel curr st s1 s' r. apply loop_done_iff.
  - intros o f b fuel Ho Hf Hb Hlt. eapply extract_false_at_entry; eassumption.
Qed.

(** ** The functions at concrete inputs *)

(** The simple plane fit with [k >= 1] has an inlier whenever it returns:
    on an empty cloud [np.max] has raised before it is called. *)
Lemma sim_fits_remove (k : nat) : @fits_remove_inliers (Sim.o3d (S k)).
Proof.
  intros g d g' pm inliers. unfold _get_plane_from_pcd.
  cbn [create_from_depth_image segment_plane Sim.o3d Sim.back_project].
  destruct (transform flip_yz <$> _) as [ | [[x y] z] pcd]; cbn [coordinates mbind list_bind app np_reduce].
  - discriminate.
  - unfold Sim.first_points. cbn [length Nat.min seq fmap list_fmap].
    intros Heq. injection Heq as _ _ <-. discriminate.
Qed.

(** A run from [start_size = 0] on a region of five pixels: one plane. *)
Lemma zero_start_witness :
  snd (@extract_planes_con (Sim.o3d 3) 0%nat 1%nat 0 (Sim.ratio 1 2) 4 (Sim.store5 3))
    = Done [(3%nat, Sim.plane_z)]
  /\ [(3%nat, Sim.plane_z)] <> [].
Proof.
  split; [vm_compute; reflexivity | ].
  eapply (proj1 (proj2 (@extract_planes_con_zero_start (Sim.o3d 3) 0%nat 1%nat
                          (Sim.ratio 1 2) 4 (Sim.store5 3)))).
  vm_compute. reflexivity.
Defined.

(** C1, as stated, fails: from [start_size = 0] the condition holds; a
    region without a point makes the first fit raise, and a region with
    points yields a plane. *)
Lemma zero_start_enters_loop :
  loop_test 0 0 (Sim.ratio 1 2) = Ok true
  /\ snd (@extract_planes_con (Sim.o3d 3) 0%nat 1%nat 0 (Sim.ratio 1 2) 4 (Sim.store0 3))
     = Raised ValueError
  /\ snd (@extract_planes_con (Sim.o3d 3) 0%nat 1%nat 0 (Sim.ratio 1 2) 4 (Sim.store5 3))
     = Done [(3%nat, Sim.plane_z)].
Proof. repeat split; vm_compute; reflexivity. Qed.

(** With [t = 1.0] and [start_size = 5]: a fit that takes one point ends
    the loop after one iteration, a fit that takes none never ends it;
    and with [t = 2.0] the condition [5 >= 10] fails at entry: the empty
    list, the copy of the mask as the only new object. *)
Lemma loop_witness :
  (snd (@extract_planes_con (Sim.o3d 1) 0%nat 1%nat 5 F64.one 2 (Sim.store5 1))
     <> OutOfFuel
   /\ forall s' r,
        @extract_planes_con (Sim.o3d 1) 0%nat 1%nat 5 F64.one 2 (Sim.store5 1)
          = (s', Done r) -> length r = 1%nat)
  /\ (forall fuel,
        snd (@extract_planes_con (Sim.o3d 0) 0%nat 1%nat 5 F64.one fuel (Sim.store5 0))
          = OutOfFuel)
  /\ @extract_planes_con (Sim.o3d 1) 0%nat 1%nat 5 (Sim.fl 2) 1 (Sim.store5 1)
     = (mk_store (heap (Sim.store5 1) ++ [IntArr Sim.mask5]) (gen (Sim.store5 1)),
        Done []).
Proof.
  split; [ | split].
  - apply (proj1 (proj2 (proj2 (@extract_planes_con_loop (Sim.o3d 1) 0%nat 1%nat 5
                                   F64.one (Sim.store5 1))))).
    + lia.
    + apply sim_fits_remove.
  - eapply (proj1 (proj2 (proj2 (proj2 (@extract_planes_con_loop (Sim.o3d 0) 0%nat
                                           1%nat 5 F64.one (Sim.store5 0)))))).
    + reflexivity.
    + reflexivity.
    + vm_compute. reflexivity.
    + intros []. eexists _, _. vm_compute. reflexivity.
    + vm_compute. reflexivity.
  - apply (proj2 (proj2 (proj2 (proj2 (proj2 (proj2
             (@extract_planes_con_loop (Sim.o3d 1) 0%nat 1%nat 5 (Sim.fl 2)
                (Sim.store5 1)))))))
           (IntArr Sim.mask5) (Sim.fl 5) 10 0%nat).
    + reflexivity.
    + vm_compute. reflexivity.
    + vm_compute. reflexivity.
    + lia.
Defined.

(** C2, as stated, fails: [int] is not the floor of a negative product;
    above [2^53] the bound [int(start_size * 1.0)] is below [start_size],
    so that removing one inlier does not end the loop; and a fit without
    an inlier does not keep a randomized fit from finding some the next
    time. *)
Lemma loop_condition_counterexample :
  loop_test (-2) 3 (Sim.ratio (-1) 2) = Ok false
  /\ floor_test (-2) 3 (Sim.ratio (-1) 2) = Ok true
  /\ snd (@extract_planes_con (Sim.o3d 1) 0%nat 1%nat (2 ^ 53 + 1) F64.one 3
            (Sim.store5 1))
     = Done [(3%nat, Sim.plane_z); (4%nat, Sim.plane_z)]
  /\ snd (@extract_planes_con Sim.o3d_idle 0%nat 1%nat 5 F64.one 3 Sim.store5_idle)
     = Done [(3%nat, Sim.plane_z); (4%nat, Sim.plane_z)].
Proof. repeat split; vm_compute; reflexivity. Qed.

(** Two planes out of five pixels: three pixels, then the two left. *)
Lemma masks_disjoint_witness :
  snd (@extract_planes_con (Sim.o3d 3) 0%nat 1%nat 5 (Sim.ratio 1 2) 4 (Sim.store5 3))
    = Done [(3%nat, Sim.plane_z); (4%nat, Sim.plane_z)]
  /\ forall k,
       ~ (lit_in (Np.mk_ndarray 2 3
                    [F64.one; F64.one; F64.zero; F64.one; F64.zero; F64.zero]) k
          /\ lit_in (Np.mk_ndarray 2 3
                       [F64.zero; F64.zero; F64.zero; F64.zero; F64.one; F64.one]) k).
Proof.
  split; [vm_compute; reflexivity | ].
  eapply (proj2 (@extract_planes_con_masks_disjoint (Sim.o3d 3) 0%nat 1%nat Sim.mask5
                   5 (Sim.ratio 1 2) 4 (Sim.store5 3) _ _ eq_refl
                   ltac:(vm_compute; reflexivity))
            0%nat 1%nat 3%nat Sim.plane_z 4%nat Sim.plane_z).
  - discriminate.
  - reflexivity.
  - reflexivity.
  - vm_compute. reflexivity.
  - vm_compute. reflexivity.
Defined.

(** Three points against one: one pair, divided by three. *)
Lemma loss_metric_truncates_witness :
  @loss_metric Sim.libm [Sim.pt 0 0 1; Sim.pt 0 0 2; Sim.pt 0 0 4] [Sim.pt 0 0 3] "mae"
    = Ok (Sim.ratio 2000 3)
  /\ exists pp agg v,
       getitem (@funcs Sim.libm) "mae" = Ok (pp, agg)
       /\ @loss_metric Sim.libm [Sim.pt 0 0 1; Sim.pt 0 0 2; Sim.pt 0 0 4] [Sim.pt 0 0 3] "mae"
          = Ok v
       /\ agg (total pp (paired [Sim.pt 0 0 1; Sim.pt 0 0 2; Sim.pt 0 0 4]
                                [Sim.pt 0 0 3])) (Z.of_nat 3) = Ok v
       /\ length (paired [Sim.pt 0 0 1; Sim.pt 0 0 2; Sim.pt 0 0 4] [Sim.pt 0 0 3])
          = min 3 1
       /\ forall i, paired [Sim.pt 0 0 1; Sim.pt 0 0 2; Sim.pt 0 0 4] [Sim.pt 0 0 3] !! i
            = (x ← [Sim.pt 0 0 1; Sim.pt 0 0 2; Sim.pt 0 0 4] !! i;
               y ← [Sim.pt 0 0 3] !! i; Some (x, y)).
Proof.
  split; [vm_compute; reflexivity | ].
  apply (@loss_metric_truncates Sim.libm [Sim.pt 0 0 1; Sim.pt 0 0 2; Sim.pt 0 0 4]
           [Sim.pt 0 0 3] "mae"); [reflexivity | discriminate].
Defined.

(** C4, as stated, fails: an empty [true_pcd] against a longer cloud
    raises, in the division by its length. *)
Lemma loss_metric_empty_true_raises :
  @loss_metric Sim.libm [] [Sim.pt 0 0 1] "rmse" = Err ZeroDivisionError.
Proof. vm_compute. reflexivity. Qed.

(** An unknown name, a known name, and a known name on an empty cloud. *)
Lemma loss_metric_key_error_witness :
  @loss_metric Sim.libm [Sim.pt 0 0 1] [Sim.pt 0 0 3] "huber" = Err (KeyError "huber")
  /\ (exists v, @loss_metric Sim.libm [Sim.pt 0 0 1] [Sim.pt 0 0 3] "mse" = Ok v)
  /\ @loss_metric Sim.libm [] [Sim.pt 0 0 3] "mse" = Err ZeroDivisionError.
Proof.
  split; [ | split].
  - apply (proj1 (@loss_metric_key_error Sim.libm [Sim.pt 0 0 1] [Sim.pt 0 0 3] "huber")).
    reflexivity.
  - apply (proj1 (proj2 (@loss_metric_key_error Sim.libm [Sim.pt 0 0 1] [Sim.pt 0 0 3] "mse")));
      [reflexivity | discriminate].
  - apply (proj2 (proj2 (@loss_metric_key_error Sim.libm [] [Sim.pt 0 0 3] "mse")));
      reflexivity.
Defined.

(** C8, as stated, fails: a supported name does not return on an empty
    [true_pcd]. *)
Lemma loss_metric_supported_raises :
  supported "mae" = true /\ @loss_metric Sim.libm [] [] "mae" = Err ZeroDivisionError.
Proof. split; vm_compute; reflexivity. Qed.



(** Depths 2, 4, 0 and -1 under the cutoff 1/3: 1/2 is cut, 1/4 stays. *)
Lemma crop_depth_map_witness :
  exists ans,
    crop_depth_map (Np.mk_ndarray 2 2 (Sim.fl <$> [2; 4; 0; -1]))
      (Number (Sim.ratio 1 3))
    = Ok (ans, 2%nat)
    /\ Np.cells ans = [F64.zero; Sim.ratio 1 4; F64.zero; Sim.fl (-1)].
Proof.
  destruct (crop_depth_map_cells (Np.mk_ndarray 2 2 (Sim.fl <$> [2; 4; 0; -1]))
              (Number (Sim.ratio 1 3)) (Sim.ratio 1 3)) as (ans & Hrun & _);
    [discriminate | reflexivity | ].
  exists ans. vm_compute in Hrun. injection Hrun as <-.
  split; vm_compute; reflexivity.
Defined.

(** C6, as stated, fails: a cell that is not positive does not pass
    through a cutoff at or below it, and a depth map without cells is
    refused. *)
Lemma crop_depth_map_counterexample :
  crop_depth_map (Np.mk_ndarray 1 1 [Sim.fl (-1)]) (Number (Sim.fl (-2)))
    = Ok (Np.mk_ndarray 1 1 [F64.zero], 0%nat)
  /\ crop_depth_map (Np.mk_ndarray 0 0 []) (Number (Sim.ratio 1 3)) = Err ValueError.
Proof. split; vm_compute; reflexivity. Qed.

(** Two one-row components of a 3x3 depth map. *)
Lemma components_witness :
  exists comps,
    @get_connected_components Sim.cv Sim.depth_rows (Sim.ratio 3 10) = Ok comps
    /\ forall c k, c ∈ comps -> set_in (snd c) k -> positive_at Sim.depth_rows k.
Proof.
  eapply (proj2 (@components_disjoint_foreground Sim.cv Sim.depth_rows (Sim.ratio 3 10))).
  - vm_compute. reflexivity.
  - vm_compute. reflexivity.
Defined.

(** The closing by a 1x1 kernel of a mask with a hole. *)
Lemma close_map_witness :
  exists r,
    @close_map Sim.cv Sim.mask_hole (Some [Np.full (1%nat, 1%nat) 1]) = Ok (BoolArr r)
    /\ @close_map Sim.cv Sim.mask_hole (Some [Np.full (1%nat, 1%nat) 1])
       = reduce logical_and (U8Arr <$> [Sim.mask_hole])
           (F64Arr (Np.full (Np.shape Sim.mask_hole) F64.one))
    /\ Np.shape r = Np.shape Sim.mask_hole
    /\ Np.size r = Np.size Sim.mask_hole
    /\ forall k, (k < Np.size Sim.mask_hole)%nat ->
         Np.cells r !! k = Some (forallb (fun c => filled c k) [Sim.mask_hole]).
Proof.
  apply (@close_map_intersection Sim.cv Sim.mask_hole [Np.full (1%nat, 1%nat) 1]
           [Sim.mask_hole]).
  - reflexivity.
  - reflexivity.
  - discriminate.
  - repeat constructor.
Defined.

(** ** Further properties of the filters *)

(** Every cell [crop_depth_map] returns is 0 or lies below the cutoff. *)
Theorem crop_depth_map_below_cutoff (depth_map : ndarray float) (th : threshold)
    (t : float) (ans : ndarray float) (n : nat) :
  cutoff (Np.map inverse_depth depth_map) th = Ok t ->
  crop_depth_map depth_map th = Ok (ans, n) ->
  Forall (fun v => v = F64.zero \/ F64.ltb v t = true) (Np.cells ans).
Proof.
  intros Ht Hrun. unfold crop_depth_map, vectorize in Hrun.
  destruct (Np.size depth_map =? 0)%nat; [discriminate | ].
  cbn [bind] in Hrun. rewrite Ht in Hrun. cbn [bind] in Hrun.
  injection Hrun as <- _. cbn [Np.map Np.cells].
  apply Forall_forall. intros v Hv.
  apply list_elem_of_fmap in Hv as (w & -> & _).
  destruct (F64.ltb w t) eqn:Hw; [right; exact Hw | left; reflexivity].
Qed.

(** Depths 2, 4, 0 and -1 under the cutoff 1/3. *)
Lemma crop_depth_map_below_cutoff_witness :
  Forall (fun v => v = F64.zero \/ F64.ltb v (Sim.ratio 1 3) = true)
    [F64.zero; Sim.ratio 1 4; F64.zero; Sim.fl (-1)].
Proof.
  apply (crop_depth_map_below_cutoff (Np.mk_ndarray 2 2 (Sim.fl <$> [2; 4; 0; -1]))
           (Number (Sim.ratio 1 3)) (Sim.ratio 1 3)
           (Np.mk_ndarray 2 2 [F64.zero; Sim.ratio 1 4; F64.zero; Sim.fl (-1)]) 2%nat).
  - reflexivity.
  - vm_compute. reflexivity.
Defined.

Section ComponentSizes.

Lemma components_loop_kept (depth_map : ndarray float) (th : float)
    (count_pixels : Z) (result : ndarray Z) (labels : list Z)
    (ans out : list (ndarray float * ndarray Z)) :
  Forall (kept_component depth_map th count_pixels) ans ->
  components_loop depth_map th count_pixels result labels ans = Ok out ->
  Forall (kept_component depth_map th count_pixels) out.
Proof.
  revert ans. induction labels as [ | i rest IH]; intros ans Hans Hrun;
    cbn [components_loop] in Hrun.
  - injection Hrun as <-. exact Hans.
  - destruct (F64.leb _ _) eqn:Hsize; [ | exact (IH ans Hans Hrun)].
    destruct (masked depth_map (label_mask result i)) as [prod | e] eqn:Hprod;
      [ | discriminate].
    cbn [bind] in Hrun. apply IH in Hrun; [exact Hrun | ].
    apply Forall_app. split; [exact Hans | ].
    constructor; [ | constructor]. split; [exact Hsize | ].
    exists prod. split; [exact Hprod | reflexivity].
Qed.

End ComponentSizes.

(** A component is returned only if its pixels number at least
    [threshold] times the foreground pixels, and it comes with the depth
    map restricted to its mask, as 32-bit floats. *)
Theorem components_pass_threshold `{OpenCV} (depth_map : ndarray float)
    (th : float) (comps : list (ndarray float * ndarray Z)) :
  get_connected_components depth_map th = Ok comps ->
  Forall (kept_component depth_map th (Np.sum (foreground depth_map))) comps.
Proof.
  unfold get_connected_components. intros Hrun.
  destruct (connectedComponents (foreground depth_map)) as [[num result] | e];
    [ | discriminate].
  cbn [bind] in Hrun. eapply components_loop_kept; [ | exact Hrun]. constructor.
Qed.

(** Two one-row components of two pixels each, out of four. *)
Lemma components_pass_threshold_witness :
  exists comps,
    @get_connected_components Sim.cv Sim.depth_rows (Sim.ratio 3 10) = Ok comps
    /\ length comps = 2%nat
    /\ Forall (kept_component Sim.depth_rows (Sim.ratio 3 10)
                 (Np.sum (foreground Sim.depth_rows))) comps.
Proof.
  destruct (@get_connected_components Sim.cv Sim.depth_rows (Sim.ratio 3 10))
    as [comps | e] eqn:Hrun; [ | vm_compute in Hrun; discriminate].
  exists comps. split; [reflexivity | split].
  - vm_compute in Hrun. injection Hrun as <-. reflexivity.
  - exact (@components_pass_threshold Sim.cv Sim.depth_rows (Sim.ratio 3 10) comps Hrun).
Defined.

(** The example of the specification: a 10x10 block of depth 2.0 in a
    20x20 frame of zeros, cropped at the cutoff 1.0, keeps its hundred
    cells, at the inverse depth 0.5. *)
Example crop_depth_map_block :
  crop_depth_map Sim.block_frame (Number (Sim.fl 1))
  = Ok (Np.map (fun v => if F64.ltb F64.zero v then Sim.ratio 1 2 else F64.zero)
          Sim.block_frame, 100%nat).
Proof. vm_compute. reflexivity. Qed.

(** * Further properties *)

(** ** Signs of rounded results *)

Module F64Signs.
Import F64Facts.

Lemma shr_fexp_nonneg (m e : Z) (l : location) :
  0 <= m -> 0 <= shr_m (fst (shr_fexp F64.prec F64.emax m e l)).
Proof.
  intros Hm. unfold shr_fexp.
  destruct (shr_m_shr (shr_record_of_loc m l) e
              (fexp F64.prec F64.emax (Zdigits2 m + e) - e)) as [H1 _].
  { rewrite shr_m_of_loc. exact Hm. }
  rewrite H1, shr_m_of_loc. apply Z.div_pos; [exact Hm | ].
  apply Z.pow_pos_nonneg; lia.
Qed.

Lemma round_nearest_even_nonneg (m : Z) (l : location) :
  0 <= m -> 0 <= round_nearest_even m l.
Proof.
  intros Hm. destruct l as [ | [ | | ]]; cbn [round_nearest_even];
    try destruct (Z.even m); lia.
Qed.

(** Rounding never changes the sign it is given, and gives no NaN. *)
Lemma binary_round_aux_sign (s : bool) (m e : Z) (l : location) :
  0 <= m ->
  F64.sign_of (binary_round_aux F64.prec F64.emax s m e l) = Some s.
Proof.
  intros Hm. unfold binary_round_aux.
  pose proof (shr_fexp_nonneg m e l Hm) as H1.
  destruct (shr_fexp F64.prec F64.emax m e l) as [mrs1 e1]. cbn [fst] in H1.
  pose proof (round_nearest_even_nonneg _ (loc_of_shr_record mrs1) H1) as H2.
  pose proof (shr_fexp_nonneg _ e1 loc_Exact H2) as H3.
  destruct (shr_fexp F64.prec F64.emax _ e1 loc_Exact) as [mrs3 e3].
  cbn [fst] in H3.
  destruct (shr_m mrs3) as [ | m3 | m3]; try lia; [reflexivity | ].
  destruct (e3 <=? F64.emax - F64.prec); reflexivity.
Qed.

(** The sign enters a rounding only through the constructor of the result. *)
Lemma binary_round_aux_opp (s : bool) (m e : Z) (l : location) :
  binary_round_aux F64.prec F64.emax (negb s) m e l
  = SFopp (binary_round_aux F64.prec F64.emax s m e l).
Proof.
  unfold binary_round_aux.
  destruct (shr_fexp F64.prec F64.emax m e l) as [mrs1 e1].
  destruct (shr_fexp F64.prec F64.emax _ e1 loc_Exact) as [mrs3 e3].
  destruct (shr_m mrs3) as [ | m3 | m3]; try reflexivity.
  destruct (e3 <=? F64.emax - F64.prec); reflexivity.
Qed.

Lemma binary_round_sign (s : bool) (m : positive) (e : Z) :
  F64.sign_of (binary_round F64.prec F64.emax s m e) = Some s.
Proof.
  unfold binary_round. destruct (shl_align m e _) as [mz ez].
  apply binary_round_aux_sign. lia.
Qed.

Lemma not_negative_of_sign (x : float) :
  F64.sign_of x = Some false -> F64.not_negative x = true.
Proof. unfold F64.not_negative. intros ->. reflexivity. Qed.

Lemma not_negative_add (x y : float) :
  F64.not_negative x = true -> F64.not_negative y = true ->
  F64.not_negative (F64.add x y) = true.
Proof.
  destruct x as [[ | ] | [ | ] | | [ | ] mx ex], y as [[ | ] | [ | ] | | [ | ] my ey];
    try discriminate; try reflexivity.
  intros _ _. unfold F64.add, SFadd.
  cbn [cond_Zopp].
  set (a := fst (shl_align mx ex (Z.min ex ey))).
  set (b := fst (shl_align my ey (Z.min ex ey))).
  change (Z.pos a + Z.pos b) with (Z.pos (a + b)).
  cbn [binary_normalize]. apply not_negative_of_sign, binary_round_sign.
Qed.

Lemma not_negative_abs (x : float) : F64.not_negative (F64.abs x) = true.
Proof. destruct x; reflexivity. Qed.

Lemma xorb_diag (s : bool) : xorb s s = false.
Proof. destruct s; reflexivity. Qed.

Lemma not_negative_square (x : float) : F64.not_negative (F64.mul x x) = true.
Proof.
  destruct x as [s | s | | s m e]; cbn; rewrite ?xorb_diag; try reflexivity.
  apply not_negative_of_sign, binary_round_aux_sign. lia.
Qed.

Lemma div_core_nonneg (m1 : positive) (e1 : Z) (m2 : positive) (e2 : Z) :
  0 <= fst (fst (SFdiv_core_binary F64.prec F64.emax (Zpos m1) e1 (Zpos m2) e2)).
Proof.
  unfold SFdiv_core_binary.
  set (s := _ - _ - _).
  set (m' := match s with Z0 => _ | Zpos _ => _ | Zneg _ => _ end).
  assert (Hm' : 0 <= m').
  { subst m'. destruct s; try lia. apply Z.shiftl_nonneg. lia. }
  pose proof (Z_div_mod m' (Zpos m2) ltac:(lia)) as Hdm.
  destruct (Z.div_eucl m' (Zpos m2)) as [q r]. cbn [fst].
  destruct Hdm as [Heq Hr]. nia.
Qed.

(** A quotient of two numbers that are not negative is not negative. *)
Lemma not_negative_div (x y : float) :
  F64.not_negative x = true -> F64.not_negative y = true ->
  F64.not_negative (F64.div x y) = true.
Proof.
  destruct x as [[ | ] | [ | ] | | [ | ] mx ex], y as [[ | ] | [ | ] | | [ | ] my ey];
    try discriminate; try reflexivity.
  intros _ _. unfold F64.div, SFdiv.
  pose proof (div_core_nonneg mx ex my ey) as Hq.
  destruct (SFdiv_core_binary _ _ _ _ _ _) as [[mz ez] lz]. cbn [fst] in Hq.
  apply not_negative_of_sign, binary_round_aux_sign. exact Hq.
Qed.

Lemma sqrt_core_nonneg (m : positive) (e : Z) :
  0 <= fst (fst (SFsqrt_core_binary F64.prec F64.emax (Zpos m) e)).
Proof.
  unfold SFsqrt_core_binary.
  set (s := e - _).
  set (m' := match s with Z0 => _ | Zpos _ => _ | Zneg _ => _ end).
  assert (Hm' : 0 <= m').
  { subst m'. destruct s; try lia. apply Z.shiftl_nonneg. lia. }
  pose proof (Z.sqrtrem_spec m' Hm') as Hs.
  destruct (Z.sqrtrem m') as [q r]. cbn [fst]. lia.
Qed.

Lemma not_negative_sqrt (x : float) :
  F64.not_negative x = true -> F64.not_negative (F64.sqrt x) = true.
Proof.
  destruct x as [[ | ] | [ | ] | | [ | ] mx ex]; try discriminate; try reflexivity.
  intros _. unfold F64.sqrt, SFsqrt.
  pose proof (sqrt_core_nonneg mx ex) as Hq.
  destruct (SFsqrt_core_binary _ _ _ _) as [[mz ez] lz]. cbn [fst] in Hq.
  apply not_negative_of_sign, binary_round_aux_sign. exact Hq.
Qed.

Lemma not_negative_of_Z (n : Z) : 0 <= n -> F64.not_negative (F64.of_Z n) = true.
Proof.
  intros Hn. destruct n as [ | p | p]; try lia; [reflexivity | ].
  apply not_negative_of_sign. apply binary_round_sign.
Qed.

(** A number that is not negative is not below zero. *)
Lemma not_negative_ltb (x : float) :
  F64.not_negative x = true -> F64.ltb x F64.zero = false.
Proof.
  destruct x as [[ | ] | [ | ] | | [ | ] mx ex]; try discriminate; reflexivity.
Qed.

(** Nor is it the negative zero. *)
Lemma not_negative_not_minus_zero (x : float) :
  F64.not_negative x = true -> x <> S754_zero true.
Proof. intros Hx ->. discriminate. Qed.

End F64Signs.

Import F64Facts F64Signs.

(** ** More on [loss_metric] *)

Section LossMetricMore.
Context {L : Libm}.

(** The accumulator is the integer 0 or a float that is not negative. *)
Lemma total_not_negative (pp : float -> float -> float) (pairs : list (point * point))
    (loss : num) :
  (forall x y, F64.not_negative (pp x y) = true) ->
  match loss with PyInt z => 0 <= z | Float f => F64.not_negative f = true end ->
  match foldl (fun acc xy => num_add acc (pp (last_coord (fst xy)) (last_coord (snd xy))))
          loss pairs with
  | PyInt z => 0 <= z
  | Float f => F64.not_negative f = true
  end.
Proof.
  intros Hpp. revert loss. induction pairs as [ | xy rest IH]; intros loss Hl.
  - exact Hl.
  - cbn [foldl]. apply IH. destruct loss as [z | f]; cbn [num_add].
    + apply not_negative_add; [apply not_negative_of_Z; exact Hl | apply Hpp].
    + apply not_negative_add; [exact Hl | apply Hpp].
Qed.

Lemma true_div_not_negative (x : num) (n : nat) (q : float) :
  match x with PyInt z => 0 <= z | Float f => F64.not_negative f = true end ->
  true_div x (Z.of_nat n) = Ok q -> F64.not_negative q = true.
Proof.
  intros Hx. destruct x as [z | f]; cbn [true_div].
  - destruct (Z.of_nat n =? 0); [discriminate | ]. intros [= <-].
    apply not_negative_div; apply not_negative_of_Z; lia.
  - intros [= <-]. apply not_negative_div; [exact Hx | apply not_negative_of_Z; lia].
Qed.

Lemma loss_not_negative (true_pcd approx_pcd : list point) (func : string) (v : float) :
  loss_metric true_pcd approx_pcd func = Ok v -> F64.not_negative v = true.
Proof.
  unfold loss_metric. intros Hv.
  destruct (getitem funcs func) as [[pp agg] | e] eqn:Hf.
  2:{ destruct (accumulate func _ _); discriminate. }
  rewrite (accumulate_total func pp agg) in Hv by exact Hf. cbn [bind snd] in Hv.
  set (x := foldl _ _ _) in Hv.
  assert (Hx : match x with PyInt z => 0 <= z | Float f => F64.not_negative f = true end).
  { subst x. destruct (getitem_cases func pp agg Hf) as [H | [H | H]];
      injection H as -> ->; apply total_not_negative; try lia; intros a b;
      first [apply pow_2_not_negative | apply not_negative_abs]. }
  destruct (getitem_cases func pp agg Hf) as [H | [H | H]]; injection H as -> ->.
  - unfold root_mean in Hv. destruct (true_div x _) as [q | e] eqn:Hq; [ | discriminate].
    injection Hv as <-. apply not_negative_sqrt. eapply true_div_not_negative; eauto.
  - eapply true_div_not_negative; eauto.
  - eapply true_div_not_negative; eauto.
Qed.

Lemma accumulate_rmse_mse (pairs : list (point * point)) (loss : num) :
  accumulate "rmse" pairs loss = accumulate "mse" pairs loss.
Proof.
  rewrite (accumulate_total "rmse" squared_error root_mean) by reflexivity.
  rewrite (accumulate_total "mse" squared_error mean) by reflexivity.
  reflexivity.
Qed.

(** [x - y] and [y - x] are opposite, or both [+0.0]. *)
Lemma sub_swap (x y : float) :
  F64.sub y x = F64.opp (F64.sub x y)
  \/ (F64.sub x y = F64.zero /\ F64.sub y x = F64.zero).
Proof.
  destruct x as [[ | ] | [ | ] | | sx mx ex], y as [[ | ] | [ | ] | | sy my ey];
    try (left; reflexivity); try (right; split; reflexivity);
    try (left; cbn; rewrite ?negb_involutive; reflexivity).
  unfold F64.sub, F64.opp, SFsub. rewrite (Z.min_comm ey ex).
  set (a := cond_Zopp sx _). set (b := cond_Zopp sy _).
  replace (b - a) with (- (a - b)) by lia.
  destruct (a - b) as [ | p | p];
    [right; split; reflexivity | left | left];
    change (binary_normalize F64.prec F64.emax (- Z.pos p))
      with (binary_normalize F64.prec F64.emax (Z.neg p));
    change (binary_normalize F64.prec F64.emax (- Z.neg p))
      with (binary_normalize F64.prec F64.emax (Z.pos p));
    unfold binary_normalize, binary_round;
    destruct (shl_align p _ _) as [mz ez].
  - apply (binary_round_aux_opp false).
  - apply (binary_round_aux_opp true).
Qed.

Lemma mul_opp_l (u c : float) : F64.mul (F64.opp u) c = F64.opp (F64.mul u c).
Proof.
  destruct u as [su | su | | su mu eu], c as [sc | sc | | sc mc ec];
    try reflexivity; cbn; try (destruct su, sc; reflexivity).
  rewrite <- negb_xorb_l. apply binary_round_aux_opp.
Qed.

Lemma abs_opp (u : float) : F64.abs (F64.opp u) = F64.abs u.
Proof. destruct u; reflexivity. Qed.

Lemma squared_error_sym (x y : float) : squared_error x y = squared_error y x.
Proof.
  unfold squared_error, scaled_diff, pow2.
  destruct (sub_swap x y) as [-> | [-> ->]]; [ | reflexivity].
  rewrite mul_opp_l, pow_2_even. reflexivity.
Qed.

Lemma absolute_error_sym (x y : float) : absolute_error x y = absolute_error y x.
Proof.
  unfold absolute_error, scaled_diff.
  destruct (sub_swap x y) as [-> | [-> ->]]; [ | reflexivity].
  rewrite mul_opp_l, abs_opp. reflexivity.
Qed.

Lemma accumulate_sym (func : string) (t a : list point) (loss : num) :
  accumulate func (zip t a) loss = accumulate func (zip a t) loss.
Proof.
  revert a loss. induction t as [ | x t IH]; intros [ | y a] loss; try reflexivity.
  cbn [zip_with accumulate].
  destruct (getitem funcs func) as [[pp agg] | e] eqn:Hf; [ | reflexivity].
  cbn [bind fst]. rewrite IH. f_equal. f_equal.
  destruct (getitem_cases func pp agg Hf) as [H | [H | H]]; injection H as -> ->;
    first [apply squared_error_sym | apply absolute_error_sym].
Qed.

Lemma accumulate_last_coord (func : string) (t t' a a' : list point) (loss : num) :
  last_coord <$> t = last_coord <$> t' -> last_coord <$> a = last_coord <$> a' ->
  accumulate func (zip t a) loss = accumulate func (zip t' a') loss.
Proof.
  revert t' a a' loss.
  induction t as [ | x t IH]; intros [ | x' t'] a a' loss Ht Ha; try discriminate;
    [reflexivity | ].
  destruct a as [ | y a], a' as [ | y' a']; try discriminate; [reflexivity | ].
  cbn [fmap list_fmap] in Ht, Ha. injection Ht as Hx Ht. injection Ha as Hy Ha.
  cbn [zip_with accumulate]. rewrite Hx, Hy.
  destruct (getitem funcs func) as [f | e]; [ | reflexivity].
  cbn [bind]. apply IH; assumption.
Qed.

End LossMetricMore.

(** [loss_metric] never returns a negative number: what it returns is
    not below zero, and it is not [-0.0]. *)
Theorem loss_metric_not_negative {L : Libm} (true_pcd approx_pcd : list point)
    (func : string) (v : float) :
  loss_metric true_pcd approx_pcd func = Ok v ->
  F64.ltb v F64.zero = false /\ v <> S754_zero true.
Proof.
  intros Hv. pose proof (loss_not_negative _ _ _ _ Hv) as Hs.
  split; [apply not_negative_ltb | apply not_negative_not_minus_zero]; exact Hs.
Qed.

Lemma loss_metric_not_negative_witness :
  @loss_metric Sim.libm [Sim.pt 0 0 1] [Sim.pt 0 0 3] "mae" = Ok (Sim.fl 2000)
  /\ F64.ltb (Sim.fl 2000) F64.zero = false /\ Sim.fl 2000 <> S754_zero true.
Proof.
  split; [vm_compute; reflexivity | ].
  apply (@loss_metric_not_negative Sim.libm [Sim.pt 0 0 1] [Sim.pt 0 0 3] "mae").
  vm_compute. reflexivity.
Defined.

(** The ["rmse"] of two clouds is the square root of their ["mse"], also
    when that raises. *)
Theorem loss_metric_rmse_sqrt_mse {L : Libm} (true_pcd approx_pcd : list point) :
  loss_metric true_pcd approx_pcd "rmse"
  = (let* q := loss_metric true_pcd approx_pcd "mse" in Ok (F64.sqrt q)).
Proof.
  unfold loss_metric. rewrite accumulate_rmse_mse.
  destruct (accumulate "mse" _ _) as [loss | e]; [ | reflexivity].
  cbn [bind]. change (getitem funcs "rmse") with (Ok (squared_error, root_mean)).
  change (getitem funcs "mse") with (Ok (squared_error, mean)).
  reflexivity.
Qed.

(** Between two clouds of one length the loss is symmetric: [x - y] and
    [y - x] are opposite, and a square or an absolute value does not
    depend on the sign. *)
Theorem loss_metric_symmetric {L : Libm} (true_pcd approx_pcd : list point)
    (func : string) :
  length true_pcd = length approx_pcd ->
  loss_metric true_pcd approx_pcd func = loss_metric approx_pcd true_pcd func.
Proof.
  intros Hlen. unfold loss_metric. rewrite accumulate_sym, Hlen. reflexivity.
Qed.

Lemma loss_metric_symmetric_witness :
  @loss_metric Sim.libm [Sim.pt 0 0 1; Sim.pt 1 0 5] [Sim.pt 0 0 3; Sim.pt 1 0 2] "rmse"
  = @loss_metric Sim.libm [Sim.pt 0 0 3; Sim.pt 1 0 2] [Sim.pt 0 0 1; Sim.pt 1 0 5] "rmse".
Proof.
  apply (@loss_metric_symmetric Sim.libm [Sim.pt 0 0 1; Sim.pt 1 0 5]
           [Sim.pt 0 0 3; Sim.pt 1 0 2] "rmse").
  reflexivity.
Defined.

(** The loss reads the last coordinate of each point and nothing else. *)
Theorem loss_metric_last_coordinate {L : Libm} (t t' a a' : list point)
    (func : string) :
  last_coord <$> t = last_coord <$> t' -> last_coord <$> a = last_coord <$> a' ->
  loss_metric t a func = loss_metric t' a' func.
Proof.
  intros Ht Ha. unfold loss_metric.
  rewrite (accumulate_last_coord func t t' a a') by assumption.
  replace (length t') with (length t); [reflexivity | ].
  rewrite <- (length_fmap last_coord t), Ht. apply length_fmap.
Qed.

Lemma loss_metric_last_coordinate_witness :
  @loss_metric Sim.libm [Sim.pt 0 0 1; Sim.pt 1 0 5] [Sim.pt 0 0 3] "mse"
  = @loss_metric Sim.libm [Sim.pt 7 8 1; Sim.pt 9 9 5] [Sim.pt 4 4 3] "mse".
Proof.
  apply (@loss_metric_last_coordinate Sim.libm [Sim.pt 0 0 1; Sim.pt 1 0 5]
           [Sim.pt 7 8 1; Sim.pt 9 9 5] [Sim.pt 0 0 3] [Sim.pt 4 4 3] "mse");
    reflexivity.
Defined.

(** Against an empty approximation every supported loss of a non-empty
    cloud is [0.0]: no point is paired, and nothing is raised. *)
Theorem loss_metric_empty_approx {L : Libm} (true_pcd : list point)
    (func : string) :
  supported func = true -> true_pcd <> [] ->
  loss_metric true_pcd [] func = Ok F64.zero.
Proof.
  intros Hs Hne. destruct (getitem_supported func Hs) as (pp & agg & Hf).
  unfold loss_metric. destruct true_pcd as [ | p t]; [congruence | ].
  cbn [zip_with accumulate bind]. rewrite Hf. cbn [bind snd length].
  rewrite Nat2Z.inj_succ. unfold Z.succ.
  destruct (getitem_cases func pp agg Hf) as [H | [H | H]]; injection H as -> ->;
    unfold root_mean, mean, true_div;
    (destruct (Z.eqb_spec (Z.of_nat (length t) + 1) 0) as [E | _]; [lia | ]);
    change (F64.of_Z 0) with F64.zero;
    (destruct (Z.of_nat (length t) + 1) as [ | n | n] eqn:En; try lia);
    rewrite div_zero_pos; reflexivity.
Qed.

Lemma loss_metric_empty_approx_witness :
  @loss_metric Sim.libm [Sim.pt 0 0 1; Sim.pt 1 0 5] [] "rmse" = Ok F64.zero.
Proof.
  apply (@loss_metric_empty_approx Sim.libm [Sim.pt 0 0 1; Sim.pt 1 0 5] "rmse");
    [reflexivity | discriminate].
Defined.

(** ** More on the filters *)

Section FiltersMore.

Lemma ltb_nan_r (v t : float) : F64.is_nan t = true -> F64.ltb v t = false.
Proof. destruct t; try discriminate. intros _. destruct v; reflexivity. Qed.

Lemma count_nonzero_zeros (l : list float) :
  Forall (fun v => v = F64.zero) l ->
  length (filter (fun v => F64.nonzero v = true) l) = 0%nat.
Proof.
  induction 1 as [ | v l -> _ IH]; [reflexivity | ].
  rewrite filter_cons_False by (cbn; discriminate). exact IH.
Qed.

(** The cells of a product of a depth map and a mask of its shape. *)
Lemma masked_cells (d : ndarray float) (m : ndarray Z) (prod : ndarray float) (k : nat)
    (x : float) (b : Z) :
  Np.same_shape d m = true -> masked d m = Ok prod ->
  Np.cells d !! k = Some x -> Np.cells m !! k = Some b ->
  Np.cells prod !! k = Some (F64.mul x (F64.of_Z b)).
Proof.
  intros Hsh Hprod Hx Hb. unfold masked, Np.binop in Hprod. rewrite Hsh in Hprod.
  injection Hprod as <-. cbn [Np.cells]. rewrite lookup_zip_with, Hx. cbn.
  rewrite Hb. reflexivity.
Qed.

Lemma mul_zero_finite (x : float) :
  F64.is_finite x = true -> exists s, F64.mul x (F64.of_Z 0) = S754_zero s.
Proof. destruct x; try discriminate; intros _; eexists; reflexivity. Qed.

Lemma mul_zero_not_finite (x : float) :
  F64.is_finite x = false -> F64.mul x (F64.of_Z 0) = F64.nan.
Proof. destruct x; try discriminate; intros _; reflexivity. Qed.

Lemma same_shape_label_mask (d : ndarray float) (result : ndarray Z) (i : Z) :
  Np.same_shape d (label_mask result i) = Np.same_shape d result.
Proof. reflexivity. Qed.

End FiltersMore.

(** When the cutoff is NaN (what [np.mean] gives for a depth map without a
    positive entry), [crop_depth_map] returns zeros only, and the count 0. *)
Theorem crop_depth_map_nan_cutoff (depth_map : ndarray float) (th : threshold)
    (t : float) :
  Np.cells depth_map <> [] ->
  cutoff (Np.map inverse_depth depth_map) th = Ok t -> F64.is_nan t = true ->
  exists ans,
    crop_depth_map depth_map th = Ok (ans, 0%nat)
    /\ Np.shape ans = Np.shape depth_map
    /\ Np.size ans = Np.size depth_map
    /\ Forall (fun v => v = F64.zero) (Np.cells ans).
Proof.
  intros Hne Ht Hnan. unfold crop_depth_map.
  rewrite vectorize_ok by exact Hne. cbn [bind]. rewrite Ht. cbn [bind].
  set (ans := Np.map _ _).
  assert (Hz : Forall (fun v => v = F64.zero) (Np.cells ans)).
  { subst ans. cbn [Np.map Np.cells]. apply Forall_forall. intros v Hv.
    apply list_elem_of_fmap in Hv as (w & -> & _).
    rewrite ltb_nan_r by exact Hnan. reflexivity. }
  exists ans. split; [ | split; [reflexivity | split; [ | exact Hz]]].
  - unfold Np.count_nonzero. rewrite count_nonzero_zeros by exact Hz. reflexivity.
  - subst ans. unfold Np.size. cbn [Np.map Np.cells]. rewrite !length_fmap. reflexivity.
Qed.

(** The mean of no number is NaN: a depth map without a positive entry,
    cut at the mean of its positive inverse depths. *)
Lemma crop_depth_map_nan_cutoff_witness :
  exists ans,
    crop_depth_map (Np.mk_ndarray 1 2 [Sim.fl (-1); Sim.fl 0])
      (Callable (fun l => Ok (F64.div (foldr F64.add F64.zero l)
                                (F64.of_Z (Z.of_nat (length l))))))
    = Ok (ans, 0%nat)
    /\ Np.shape ans = (1%nat, 2%nat)
    /\ Np.size ans = 2%nat
    /\ Forall (fun v => v = F64.zero) (Np.cells ans).
Proof.
  apply (crop_depth_map_nan_cutoff (Np.mk_ndarray 1 2 [Sim.fl (-1); Sim.fl 0])
           (Callable (fun l => Ok (F64.div (foldr F64.add F64.zero l)
                                     (F64.of_Z (Z.of_nat (length l))))))
           F64.nan).
  - discriminate.
  - vm_compute. reflexivity.
  - reflexivity.
Defined.

(** What [get_connected_components] returns with a mask is the depth map
    restricted to it: outside the mask a finite depth becomes a zero
    (and an infinite or NaN depth NaN), inside the mask the depth times
    one, rounded to 32 bits. *)
Theorem components_depth_restricted `{OpenCV} (depth_map : ndarray float)
    (th : float) (num : Z) (result : ndarray Z)
    (comps : list (ndarray float * ndarray Z)) :
  connectedComponents (foreground depth_map) = Ok (num, result) ->
  Np.same_shape depth_map result = true ->
  get_connected_components depth_map th = Ok comps ->
  forall c k x b, c ∈ comps ->
    Np.cells depth_map !! k = Some x -> Np.cells (snd c) !! k = Some b ->
    (b = 1 -> Np.cells (fst c) !! k = Some (F64.to_f32 (F64.mul x F64.one)))
    /\ (b = 0 -> F64.is_finite x = true ->
        exists s, Np.cells (fst c) !! k = Some (S754_zero s))
    /\ (b = 0 -> F64.is_finite x = false -> Np.cells (fst c) !! k = Some F64.nan).
Proof.
  intros Hcc Hsh Hrun c k x b Hc Hx Hb. unfold get_connected_components in Hrun.
  rewrite Hcc in Hrun. cbn [bind] in Hrun.
  pose proof (components_loop_kept _ _ _ _ _ [] comps (Forall_nil_2 _) Hrun) as Hkept.
  apply components_loop_masks in Hrun as (kept & _ & Hmasks). cbn [fmap list_fmap app] in Hmasks.
  assert (Hm : snd c ∈ label_mask result <$> kept).
  { rewrite <- Hmasks. apply list_elem_of_fmap. exists c. split; [reflexivity | exact Hc]. }
  apply list_elem_of_fmap in Hm as (i & Hi & _).
  rewrite Forall_forall in Hkept. destruct (Hkept c Hc) as (_ & prod & Hprod & Hfst).
  assert (Hshc : Np.same_shape depth_map (snd c) = true).
  { rewrite Hi, same_shape_label_mask. exact Hsh. }
  pose proof (masked_cells _ _ _ k x b Hshc Hprod Hx Hb) as Hcell.
  rewrite Hfst. cbn [Np.map Np.cells]. rewrite list_lookup_fmap, Hcell. cbn.
  split; [ | split].
  - intros ->. reflexivity.
  - intros -> Hfin. destruct (mul_zero_finite x Hfin) as [s ->]. exists s. reflexivity.
  - intros -> Hfin. rewrite (mul_zero_not_finite x Hfin). reflexivity.
Qed.

(** The first row of the 3x3 depth map: pixel 0 is in the first component,
    at depth 2; pixel 7, of the other component, is not. *)
Lemma components_depth_restricted_witness :
  exists c comps,
    @get_connected_components Sim.cv Sim.depth_rows (Sim.ratio 3 10) = Ok (c :: comps)
    /\ Np.cells (fst c) !! 0%nat = Some (F64.to_f32 (F64.mul (Sim.fl 2) F64.one))
    /\ exists s, Np.cells (fst c) !! 7%nat = Some (S754_zero s).
Proof.
  destruct (@get_connected_components Sim.cv Sim.depth_rows (Sim.ratio 3 10))
    as [[ | c comps] | e] eqn:Hrun; try (vm_compute in Hrun; discriminate).
  exists c, comps. split; [reflexivity | ].
  pose proof (@components_depth_restricted Sim.cv Sim.depth_rows (Sim.ratio 3 10)
                _ _ (c :: comps) eq_refl eq_refl Hrun c) as Hc.
  vm_compute in Hrun. injection Hrun as <- _. split.
  - apply (Hc 0%nat (Sim.fl 2) 1); [left | reflexivity | reflexivity | reflexivity].
  - apply (Hc 7%nat (Sim.fl 5) 0); [left | reflexivity | reflexivity | reflexivity | reflexivity].
Defined.

(** ** More on [extract_planes_con] *)

Section ExtractAccounts.
Context `{Open3D}.

(** An assignment that succeeds writes inside the array. *)
Lemma set_all_bounds {A} (v : A) (a a' : ndarray A) (ps : list (nat * nat)) (p : nat * nat) :
  Np.set_all v a ps = Ok a' -> p ∈ ps ->
  (fst p * Np.ncols a + snd p < Np.nrows a * Np.ncols a)%nat.
Proof.
  unfold Np.set_all. destruct (forallb _ ps) eqn:Hall; [ | discriminate].
  intros _ Hp. rewrite forallb_forall in Hall.
  apply list_elem_of_In, Hall in Hp.
  apply andb_true_iff in Hp as [Hr Hc]. apply Nat.ltb_lt in Hr, Hc. nia.
Qed.

Lemma foldl_insert_Forall {A P} (Q : A -> Prop) (f : P -> nat) (v : A) (ps : list P)
    (l : list A) :
  Q v -> Forall Q l -> Forall Q (foldl (fun l p => <[f p := v]> l) l ps).
Proof.
  intros Hv. revert l. induction ps as [ | p ps IH]; intros l Hl; [exact Hl | ].
  cbn [foldl]. apply IH. apply Forall_insert; assumption.
Qed.

(** An iteration keeps the account of the pixels. *)
Lemma loop_body_accounts (m0 : ndarray Z) (curr depth : loc) (count : Z)
    (result : list (loc * plane_model)) (s s' : state)
    (st' : Z * list (loc * plane_model)) :
  loop_accounts m0 curr s result ->
  loop_body curr depth (count, result) s = (s', Ok st') ->
  loop_accounts m0 curr s' (snd st').
Proof.
  intros (Hlt & Hnd & Hres & Hacc) Hrun.
  apply loop_body_inv in Hrun
    as (d & c & prod & g & pm & inliers & xy & c' & a' & Hd & Hc & Hprod & Hfit
        & Hxy & Hc' & Ha' & -> & ->).
  cbn [snd].
  set (zeros := FloatArr (Np.full (Np.shape c) F64.zero)) in *.
  set (n := length (heap s)) in *.
  assert (Hnew_curr : (<[n := FloatArr a']> (<[curr := IntArr c']> (heap s ++ [zeros])))
                        !! curr = Some (IntArr c')).
  { rewrite list_lookup_insert_ne by lia.
    apply list_lookup_insert_eq. rewrite length_app. lia. }
  assert (Hnew_ans : (<[n := FloatArr a']> (<[curr := IntArr c']> (heap s ++ [zeros])))
                        !! n = Some (FloatArr a')).
  { apply list_lookup_insert_eq. rewrite length_insert, length_app. cbn. lia. }
  assert (Hold : forall l, l <> curr -> (l < n)%nat ->
            (<[n := FloatArr a']> (<[curr := IntArr c']> (heap s ++ [zeros]))) !! l
            = heap s !! l).
  { intros l Hne Hl. rewrite !list_lookup_insert_ne by lia. apply lookup_app_l. exact Hl. }
  assert (Hlen : length (<[n := FloatArr a']> (<[curr := IntArr c']> (heap s ++ [zeros])))
                 = S n).
  { rewrite !length_insert, length_app. cbn. lia. }
  pose proof (set_all_inv _ _ _ _ Hc') as Ec'.
  pose proof (set_all_inv _ _ _ _ Ha') as Ea'.
  unfold loop_accounts. cbn [heap]. rewrite Hlen, fmap_app. cbn [fmap list_fmap fst].
  split; [lia | ]. split; [ | split].
  - apply NoDup_app. split; [exact Hnd | ]. split; [ | apply NoDup_singleton].
    intros l Hl Hn. apply list_elem_of_singleton in Hn. subst l.
    apply Hres in Hl. lia.
  - intros l Hl. apply elem_of_app in Hl as [Hl | Hl].
    + destruct (Hres l Hl) as (Hb & a & Ha & Hcells). split; [lia | ].
      exists a. rewrite Hold by lia. split; assumption.
    + apply list_elem_of_singleton in Hl. subst l. split; [lia | ].
      exists a'. split; [exact Hnew_ans | ]. rewrite Ea'. cbn [Np.cells Np.full].
      apply foldl_insert_Forall; [right; reflexivity | ].
      apply Forall_forall. intros v Hv. apply elem_of_replicate in Hv as [-> _].
      left. reflexivity.
  - intros k Hk. destruct (Hacc k Hk) as [(c0 & Hc0 & Hck) | (l & a & Hl & Ha & Hka)].
    + assert (c0 = c) by congruence. subst c0.
      destruct (decide (k ∈ (fun p => (fst p * Np.ncols c + snd p)%nat) <$> xy))
        as [Hin | Hnot].
      * right. exists n, a'. split; [apply elem_of_app; right; left | ].
        split; [exact Hnew_ans | ]. exists F64.one. split; [ | reflexivity].
        rewrite Ea'. cbn [Np.cells Np.full Np.nrows Np.ncols Np.shape fst snd].
        apply foldl_insert_hit; [exact Hin | ]. rewrite length_replicate.
        apply list_elem_of_fmap in Hin as (p & -> & Hp).
        exact (set_all_bounds _ _ _ _ p Hc' Hp).
      * left. exists c'. split; [exact Hnew_curr | ].
        destruct Hck as (v & Hv & Hne). exists v. split; [ | exact Hne].
        rewrite Ec'. cbn [Np.cells]. rewrite foldl_insert_other by exact Hnot. exact Hv.
    + right. exists l, a. split; [apply elem_of_app; left; exact Hl | ].
      destruct (Hres l Hl) as (Hb & _). rewrite Hold by lia. split; assumption.
Qed.

Lemma loop_keeps_accounts (m0 : ndarray Z) (fuel : nat) (curr depth : loc)
    (start_size : Z) (t : float) (st : Z * list (loc * plane_model))
    (s s' : state) (result : list (loc * plane_model)) :
  loop_accounts m0 curr s (snd st) ->
  loop fuel curr depth start_size t st s = (s', Done result) ->
  loop_accounts m0 curr s' result.
Proof.
  revert st s. induction fuel as [ | fuel IH]; intros st s Hinv Hrun; cbn [loop] in Hrun.
  - discriminate.
  - destruct (loop_test (fst st) start_size t) as [[ | ] | e]; [ | | discriminate].
    + destruct (loop_body curr depth st s) as [s1 [st1 | e]] eqn:Hbody; [ | discriminate].
      destruct st as [count res]. cbn [snd] in Hinv.
      apply (loop_body_accounts m0) in Hbody; [ | exact Hinv].
      exact (IH st1 s1 Hbody Hrun).
    + injection Hrun as <- <-. exact Hinv.
Qed.

(** The account of a whole run, from the copy of the object at [map_arr]. *)
Lemma extract_accounts (m0 : ndarray Z) (map_arr depth_map : loc) (start_size : Z)
    (t : float) (fuel : nat) (s s' : state) (result : list (loc * plane_model)) :
  (forall k, set_in m0 k -> heap s !! map_arr = Some (IntArr m0)) ->
  extract_planes_con map_arr depth_map start_size t fuel s = (s', Done result) ->
  loop_accounts m0 (length (heap s)) s' result.
Proof.
  intros Hm Hrun. unfold extract_planes_con, deepcopy, alloc in Hrun.
  destruct (heap s !! map_arr) as [o | ] eqn:Ho; [ | discriminate].
  apply (loop_keeps_accounts m0) in Hrun; [exact Hrun | ].
  unfold loop_accounts. cbn [snd heap fmap list_fmap].
  split; [rewrite length_app; cbn; lia | ].
  split; [apply NoDup_nil_2 | ]. split.
  - intros l Hl. apply elem_of_nil in Hl. contradiction.
  - intros k Hk. left. exists m0. split; [ | exact Hk].
    rewrite list_lookup_middle by reflexivity. exact (Hm k Hk).
Qed.

(** With a fit that removes an inlier every time, the loop ends before
    [count] has dropped below the bound [b]. *)
Lemma loop_terminates (curr depth : loc) (start_size : Z) (t f : float) (b : Z) :
  fits_remove_inliers ->
  F64.of_int start_size = Ok f -> F64.to_int (F64.mul f t) = Ok b ->
  forall fuel count result s,
    (Z.to_nat (count - b + 1) < fuel)%nat ->
    snd (loop fuel curr depth start_size t (count, result) s) <> OutOfFuel
    /\ forall s' r,
         loop fuel curr depth start_size t (count, result) s = (s', Done r) ->
         (length r <= length result + Z.to_nat (count - b + 1))%nat.
Proof.
  intros Hfit Hf Hb. induction fuel as [ | fuel IH]; intros count result s Hfuel; [lia | ].
  cbn [loop fst snd]. rewrite (loop_test_int count start_size t f b Hf Hb).
  destruct (Z.leb_spec b count) as [Hle | Hgt].
  2:{ cbn [snd]. split; [discriminate | ]. intros s' r [= <- <-]. lia. }
  destruct (loop_body curr depth (count, result) s) as [s1 [[count1 result1] | e]] eqn:Hbody.
  2:{ cbn [snd]. split; [discriminate | ]. intros s' r [=]. }
  pose proof Hbody as Hb1.
  apply loop_body_inv in Hb1
    as (d & c & prod & g & pm & inliers & xy & c' & a' & _ & _ & _ & Hfit1
        & _ & _ & _ & _ & Hst).
  injection Hst as -> ->.
  apply Hfit in Hfit1.
  assert (Hpos : (0 < length inliers)%nat) by (destruct inliers; [congruence | cbn; lia]).
  destruct (IH (count - Z.of_nat (length inliers))
              (result ++ [(length (heap s), pm)]) s1) as [Hno Hlen]; [lia | ].
  split; [exact Hno | ].
  intros s' r Hr. apply Hlen in Hr. rewrite length_app in Hr. cbn [length] in Hr. lia.
Qed.

End ExtractAccounts.

(** The masks [extract_planes_con] returns are new objects: each lies
    beyond the caller's store and beyond the working copy, no two of them
    are the same object, and each holds only 0.0 and 1.0. *)
Theorem extract_planes_con_fresh_masks `{Open3D} (map_arr depth_map : loc)
    (start_size : Z) (t : float) (fuel : nat) (s s' : state)
    (result : list (loc * plane_model)) :
  extract_planes_con map_arr depth_map start_size t fuel s = (s', Done result) ->
  NoDup (fst <$> result)
  /\ forall l, l ∈ fst <$> result ->
       (length (heap s) < l < length (heap s'))%nat
       /\ exists a, heap s' !! l = Some (FloatArr a)
            /\ Forall (fun v => v = F64.zero \/ v = F64.one) (Np.cells a).
Proof.
  intros Hrun.
  apply (extract_accounts (Np.mk_ndarray 0 0 [])) in Hrun.
  - destruct Hrun as (_ & Hnd & Hres & _). split; assumption.
  - intros k (v & Hv & _). cbn in Hv. rewrite lookup_nil in Hv. discriminate.
Qed.

(** No pixel is lost: when [extract_planes_con] returns, every pixel of
    the input mask is set in a returned mask, or is still set in the
    working copy, the object allocated first. *)
Theorem extract_planes_con_accounts `{Open3D} (map_arr depth_map : loc)
    (m0 : ndarray Z) (start_size : Z) (t : float) (fuel : nat) (s s' : state)
    (result : list (loc * plane_model)) :
  heap s !! map_arr = Some (IntArr m0) ->
  extract_planes_con map_arr depth_map start_size t fuel s = (s', Done result) ->
  forall k, set_in m0 k ->
    (exists c, heap s' !! length (heap s) = Some (IntArr c) /\ set_in c k)
    \/ exists l a, l ∈ fst <$> result
         /\ heap s' !! l = Some (FloatArr a) /\ lit_in a k.
Proof.
  intros Hm Hrun. apply (extract_accounts m0) in Hrun; [ | intros _ _; exact Hm].
  destruct Hrun as (_ & _ & _ & Hacc). exact Hacc.
Qed.

(** If every plane fit that returns has an inlier, the loop ends: with
    [b = int(start_size * t)] it makes at most [start_size - b + 1]
    iterations, and returns at most as many planes. *)
Theorem extract_planes_con_terminates `{Open3D} (map_arr depth_map : loc)
    (start_size : Z) (t f : float) (b : Z) (fuel : nat) (s : state) :
  fits_remove_inliers ->
  F64.of_int start_size = Ok f -> F64.to_int (F64.mul f t) = Ok b ->
  (Z.to_nat (start_size - b + 1) < fuel)%nat ->
  snd (extract_planes_con map_arr depth_map start_size t fuel s) <> OutOfFuel
  /\ forall s' r,
       extract_planes_con map_arr depth_map start_size t fuel s = (s', Done r) ->
       (length r <= Z.to_nat (start_size - b + 1))%nat.
Proof.
  intros Hfit Hf Hb Hfuel. unfold extract_planes_con.
  destruct (deepcopy map_arr s) as [s1 [curr | e]].
  - destruct (loop_terminates curr depth_map start_size t f b Hfit Hf Hb
                fuel start_size [] s1 Hfuel) as [Hno Hlen].
    split; [exact Hno | ]. intros s' r Hr. apply Hlen in Hr. cbn [length] in Hr. lia.
  - cbn [snd]. split; [discriminate | ]. intros s' r [=].
Qed.

(** Two planes out of the region of five pixels: the objects 3 and 4,
    allocated after the caller's two and the working copy. *)
Lemma extract_planes_con_fresh_masks_witness :
  snd (@extract_planes_con (Sim.o3d 3) 0%nat 1%nat 5 (Sim.ratio 1 2) 4 (Sim.store5 3))
    = Done [(3%nat, Sim.plane_z); (4%nat, Sim.plane_z)]
  /\ NoDup (fst <$> [(3%nat, Sim.plane_z); (4%nat, Sim.plane_z)])
  /\ forall l, l ∈ fst <$> [(3%nat, Sim.plane_z); (4%nat, Sim.plane_z)] ->
       (length (heap (Sim.store5 3)) < l
        < length (heap (fst (@extract_planes_con (Sim.o3d 3) 0%nat 1%nat 5
                               (Sim.ratio 1 2) 4 (Sim.store5 3)))))%nat
       /\ exists a,
            heap (fst (@extract_planes_con (Sim.o3d 3) 0%nat 1%nat 5
                         (Sim.ratio 1 2) 4 (Sim.store5 3))) !! l = Some (FloatArr a)
            /\ Forall (fun v => v = F64.zero \/ v = F64.one) (Np.cells a).
Proof.
  split; [vm_compute; reflexivity | ].
  apply (@extract_planes_con_fresh_masks (Sim.o3d 3) 0%nat 1%nat 5 (Sim.ratio 1 2) 4
           (Sim.store5 3)).
  vm_compute. reflexivity.
Defined.

(** The five pixels of the region, shared out between two planes. *)
Lemma extract_planes_con_accounts_witness :
  snd (@extract_planes_con (Sim.o3d 3) 0%nat 1%nat 5 (Sim.ratio 1 2) 4 (Sim.store5 3))
    = Done [(3%nat, Sim.plane_z); (4%nat, Sim.plane_z)]
  /\ forall k, set_in Sim.mask5 k ->
       (exists c,
          heap (fst (@extract_planes_con (Sim.o3d 3) 0%nat 1%nat 5
                       (Sim.ratio 1 2) 4 (Sim.store5 3))) !! length (heap (Sim.store5 3))
            = Some (IntArr c) /\ set_in c k)
       \/ exists l a, l ∈ fst <$> [(3%nat, Sim.plane_z); (4%nat, Sim.plane_z)]
            /\ heap (fst (@extract_planes_con (Sim.o3d 3) 0%nat 1%nat 5
                            (Sim.ratio 1 2) 4 (Sim.store5 3))) !! l = Some (FloatArr a)
            /\ lit_in a k.
Proof.
  split; [vm_compute; reflexivity | ].
  apply (@extract_planes_con_accounts (Sim.o3d 3) 0%nat 1%nat Sim.mask5 5
           (Sim.ratio 1 2) 4 (Sim.store5 3)).
  - reflexivity.
  - vm_compute. reflexivity.
Defined.

(** Five pixels, [t = 0.5], a fit that takes one point at a time: the
    bound is [int(2.5) = 2], and the loop ends within four iterations. *)
Lemma extract_planes_con_terminates_witness :
  snd (@extract_planes_con (Sim.o3d 1) 0%nat 1%nat 5 (Sim.ratio 1 2) 5 (Sim.store5 1))
    <> OutOfFuel
  /\ forall s' r,
       @extract_planes_con (Sim.o3d 1) 0%nat 1%nat 5 (Sim.ratio 1 2) 5 (Sim.store5 1)
         = (s', Done r) -> (length r <= Z.to_nat (5 - 2 + 1))%nat.
Proof.
  apply (@extract_planes_con_terminates (Sim.o3d 1) 0%nat 1%nat 5 (Sim.ratio 1 2)
           (Sim.fl 5) 2 5 (Sim.store5 1)).
  - apply sim_fits_remove.
  - vm_compute. reflexivity.
  - vm_compute. reflexivity.
  - vm_compute. lia.
Defined.

(** ** More on [close_map] *)

Section CloseMapMore.
Context `{OpenCV}.

(** The closing of [uint8(map_arr)] by a kernel, where OpenCV returns one. *)
Lemma closings_exist (map_arr : ndarray Z) (kernels : list (ndarray Z)) :
  Forall (fun kernel => exists c,
            morphologyEx_close (uint8 map_arr) kernel = Ok c
            /\ Np.like c map_arr = true) kernels ->
  exists closings,
    Forall2 (fun kernel c =>
               morphologyEx_close (uint8 map_arr) kernel = Ok c
               /\ Np.like c map_arr = true) kernels closings.
Proof.
  induction 1 as [ | kernel kernels (c & Hc) _ [closings IH]].
  - exists []. constructor.
  - exists (c :: closings). constructor; assumption.
Qed.

(** The cells of a closed map, by the closings of the kernels. *)
Lemma close_map_cells (map_arr : ndarray Z) (kernels closings : list (ndarray Z)) :
  Np.wf map_arr -> kernels <> [] ->
  Forall2 (fun kernel c =>
             morphologyEx_close (uint8 map_arr) kernel = Ok c
             /\ Np.like c map_arr = true) kernels closings ->
  exists r,
    close_map map_arr (Some kernels) = Ok (BoolArr r)
    /\ Np.like r map_arr = true
    /\ forall k, (k < Np.size map_arr)%nat ->
         Np.cells r !! k = Some (forallb (fun c => filled c k) closings).
Proof.
  intros Hwf Hne Hcl.
  assert (Htrav : traverse (fun kernel => morphologyEx_close (uint8 map_arr) kernel)
                    kernels = Ok closings).
  { apply traverse_Forall2.
    eapply Forall2_impl; [exact Hcl | ]. intros x y [Hxy _]. exact Hxy. }
  unfold close_map. rewrite Htrav. cbn [bind].
  set (acc := F64Arr (Np.full (Np.shape map_arr) F64.one)) in *.
  assert (Hacc : Np.like (truth acc) map_arr = true).
  { apply like_spec. unfold acc, Np.full, Np.shape.
    cbn [truth Np.map Np.nrows Np.ncols Np.cells fst snd].
    rewrite length_fmap, length_replicate. unfold Np.wf in Hwf. lia. }
  assert (Hones : forall k, (k < Np.size map_arr)%nat ->
            Np.cells (truth acc) !! k = Some true).
  { intros k Hk. unfold acc, Np.full, Np.shape.
    cbn [truth Np.map Np.cells fst snd].
    rewrite list_lookup_fmap, lookup_replicate_2; [reflexivity | ].
    unfold Np.wf, Np.size in *. lia. }
  destruct (reduce_and closings acc) as (r & Hred & Hlike & Hcell).
  - intros ->. apply Forall2_nil_inv_r in Hcl. congruence.
  - apply Forall2_Forall_r with (Q := fun c => Np.like c (truth acc) = true) in Hcl;
      [exact Hcl | ].
    apply Forall_forall. intros x _ y [_ Hy].
    apply like_spec. apply like_spec in Hy, Hacc. lia.
  - exists r. split; [exact Hred | split].
    + apply like_spec. apply like_spec in Hlike, Hacc. lia.
    + intros k Hk. rewrite (Hcell k true (Hones k Hk)). reflexivity.
Qed.

Lemma forallb_Permutation {A} (f : A -> bool) (l l' : list A) :
  l ≡ₚ l' -> forallb f l = forallb f l'.
Proof.
  induction 1 as [ | x l l' _ IH | x y l | l l' l'' _ IH1 _ IH2]; cbn [forallb].
  - reflexivity.
  - rewrite IH. reflexivity.
  - destruct (f x), (f y); reflexivity.
  - congruence.
Qed.

Lemma Forall2_Permutation_l {A B} (R : A -> B -> Prop) (l l' : list A) (k : list B) :
  l ≡ₚ l' -> Forall2 R l k -> exists k', k ≡ₚ k' /\ Forall2 R l' k'.
Proof.
  intros Hp. revert k.
  induction Hp as [ | x l l' _ IH | x y l | l l' l'' _ IH1 _ IH2]; intros k Hk.
  - exists k. split; [reflexivity | exact Hk].
  - apply Forall2_cons_inv_l in Hk as (b & k0 & Hb & Hk0 & ->).
    destruct (IH k0 Hk0) as (k' & Hperm & Hk').
    exists (b :: k'). split; [constructor; exact Hperm | constructor; assumption].
  - apply Forall2_cons_inv_l in Hk as (b & k0 & Hb & Hk0 & ->).
    apply Forall2_cons_inv_l in Hk0 as (b' & k1 & Hb' & Hk1 & ->).
    exists (b' :: b :: k1). split; [constructor | repeat constructor; assumption].
  - destruct (IH1 k Hk) as (k1 & Hp1 & Hk1).
    destruct (IH2 k1 Hk1) as (k2 & Hp2 & Hk2).
    exists k2. split; [etransitivity; eassumption | exact Hk2].
Qed.

(** An array of booleans is its shape and its cells. *)
Lemma ndarray_eq {A} (r r' : ndarray A) (n : nat) :
  Np.nrows r = Np.nrows r' -> Np.ncols r = Np.ncols r' ->
  length (Np.cells r) = n -> length (Np.cells r') = n ->
  (forall k, (k < n)%nat -> Np.cells r !! k = Np.cells r' !! k) ->
  r = r'.
Proof.
  destruct r as [a b l], r' as [a' b' l']. cbn. intros -> -> Hl Hl' Hk. f_equal.
  apply list_eq. intros k. destruct (Nat.lt_ge_cases k n) as [Hlt | Hge].
  - apply Hk. exact Hlt.
  - rewrite !(proj2 (lookup_ge_None _ _)) by lia. reflexivity.
Qed.

End CloseMapMore.

(** The order of the kernels does not matter to [close_map]. *)
Theorem close_map_kernel_order `{OpenCV} (map_arr : ndarray Z)
    (kernels kernels' : list (ndarray Z)) :
  Np.wf map_arr -> kernels <> [] ->
  Forall (fun kernel => exists c,
            morphologyEx_close (uint8 map_arr) kernel = Ok c
            /\ Np.like c map_arr = true) kernels ->
  kernels ≡ₚ kernels' ->
  close_map map_arr (Some kernels') = close_map map_arr (Some kernels).
Proof.
  intros Hwf Hne Hall Hperm.
  destruct (closings_exist map_arr kernels Hall) as [cs Hcs].
  destruct (Forall2_Permutation_l _ _ _ _ Hperm Hcs) as (cs' & Hpc & Hcs').
  assert (Hne' : kernels' <> []).
  { intros ->. apply Permutation_nil_r in Hperm. congruence. }
  destruct (close_map_cells map_arr kernels cs Hwf Hne Hcs) as (r & Hr & Hlike & Hcell).
  destruct (close_map_cells map_arr kernels' cs' Hwf Hne' Hcs')
    as (r' & Hr' & Hlike' & Hcell').
  rewrite Hr, Hr'. do 2 f_equal.
  apply like_spec in Hlike as (Hrow & Hcol & Hlen).
  apply like_spec in Hlike' as (Hrow' & Hcol' & Hlen').
  apply (ndarray_eq r' r (Np.size map_arr)); unfold Np.size; try congruence.
  intros k Hk. rewrite Hcell, Hcell' by exact Hk. f_equal.
  symmetry. apply forallb_Permutation. exact Hpc.
Qed.

(** The closings by a row and by a column, in either order. *)
Lemma close_map_kernel_order_witness :
  @close_map Sim.cv Sim.mask_hole
     (Some [Np.full (2%nat, 1%nat) 1; Np.full (1%nat, 2%nat) 1])
  = @close_map Sim.cv Sim.mask_hole
      (Some [Np.full (1%nat, 2%nat) 1; Np.full (2%nat, 1%nat) 1]).
Proof.
  apply (@close_map_kernel_order Sim.cv Sim.mask_hole
           [Np.full (1%nat, 2%nat) 1; Np.full (2%nat, 1%nat) 1]
           [Np.full (2%nat, 1%nat) 1; Np.full (1%nat, 2%nat) 1]).
  - reflexivity.
  - discriminate.
  - repeat constructor; exists Sim.mask_hole; split; reflexivity.
  - apply perm_swap.
Defined.

(** A further kernel can only clear pixels of the closed map. *)
Theorem close_map_more_kernels `{OpenCV} (map_arr : ndarray Z)
    (kernels more : list (ndarray Z)) :
  Np.wf map_arr -> kernels <> [] ->
  Forall (fun kernel => exists c,
            morphologyEx_close (uint8 map_arr) kernel = Ok c
            /\ Np.like c map_arr = true) (kernels ++ more) ->
  exists r r',
    close_map map_arr (Some kernels) = Ok (BoolArr r)
    /\ close_map map_arr (Some (kernels ++ more)) = Ok (BoolArr r')
    /\ Np.shape r' = Np.shape r
    /\ forall k, Np.cells r' !! k = Some true -> Np.cells r !! k = Some true.
Proof.
  intros Hwf Hne Hall.
  destruct (closings_exist map_arr _ Hall) as [cs Hcs].
  apply Forall2_app_inv_l in Hcs as (cs1 & cs2 & Hcs1 & Hcs2 & ->).
  assert (Hne' : kernels ++ more <> []) by (destruct kernels; [congruence | discriminate]).
  destruct (close_map_cells map_arr kernels cs1 Hwf Hne Hcs1) as (r & Hr & Hlike & Hcell).
  destruct (close_map_cells map_arr (kernels ++ more) (cs1 ++ cs2) Hwf Hne'
              (Forall2_app Hcs1 Hcs2)) as (r' & Hr' & Hlike' & Hcell').
  exists r, r'. split; [exact Hr | split; [exact Hr' | ]].
  apply like_spec in Hlike as (Hrow & Hcol & Hlen).
  apply like_spec in Hlike' as (Hrow' & Hcol' & Hlen').
  split; [unfold Np.shape; congruence | ].
  intros k Hk. assert (Hlt : (k < Np.size map_arr)%nat).
  { apply lookup_lt_Some in Hk. unfold Np.size. lia. }
  rewrite Hcell' in Hk by exact Hlt. rewrite Hcell by exact Hlt.
  injection Hk as Hk. rewrite forallb_app in Hk.
  apply andb_true_iff in Hk as [Hk _]. rewrite Hk. reflexivity.
Qed.

Lemma close_map_more_kernels_witness :
  exists r r',
    @close_map Sim.cv Sim.mask_hole (Some [Np.full (1%nat, 2%nat) 1]) = Ok (BoolArr r)
    /\ @close_map Sim.cv Sim.mask_hole
         (Some ([Np.full (1%nat, 2%nat) 1] ++ [Np.full (2%nat, 1%nat) 1]))
       = Ok (BoolArr r')
    /\ Np.shape r' = Np.shape r
    /\ forall k, Np.cells r' !! k = Some true -> Np.cells r !! k = Some true.
Proof.
  apply (@close_map_more_kernels Sim.cv Sim.mask_hole [Np.full (1%nat, 2%nat) 1]
           [Np.full (2%nat, 1%nat) 1]).
  - reflexivity.
  - discriminate.
  - repeat constructor; exists Sim.mask_hole; split; reflexivity.
Defined.

(** ** [_get_plane_from_pcd] *)

Section PlaneFit.

Lemma coordinates_cons (p : point) (pcd : list point) :
  exists x rest, coordinates (p :: pcd) = x :: rest.
Proof. destruct p as [[x y] z]. eexists _, _. reflexivity. Qed.

End PlaneFit.

(** A depth map without a point makes [_get_plane_from_pcd] raise
    [ValueError] before the generator is used; otherwise the fit is the
    one of Open3D on the flipped cloud, with three points per sample, a
    hundred iterations and the distance threshold
    [abs(np.max(arr) - np.min(arr)) / 100] over the coordinates of the
    flipped cloud, which is not below zero and not [-0.0]. *)
Theorem get_plane_from_pcd_call `{Open3D} (g : rng) (depth_map : ndarray float)
    (pcd0 : list point) :
  create_from_depth_image (Np.map F64.to_f32 depth_map) = Ok pcd0 ->
  (pcd0 = [] -> _get_plane_from_pcd g depth_map = (g, Err ValueError))
  /\ (pcd0 <> [] ->
      exists mx mn,
        np_reduce fmax (coordinates (transform flip_yz <$> pcd0)) = Ok mx
        /\ np_reduce fmin (coordinates (transform flip_yz <$> pcd0)) = Ok mn
        /\ _get_plane_from_pcd g depth_map
           = segment_plane g (transform flip_yz <$> pcd0)
               (F64.div (F64.abs (F64.sub mx mn)) (F64.of_Z 100)) 3%nat 100%nat
        /\ F64.ltb (F64.div (F64.abs (F64.sub mx mn)) (F64.of_Z 100)) F64.zero = false
        /\ F64.div (F64.abs (F64.sub mx mn)) (F64.of_Z 100) <> S754_zero true).
Proof.
  intros Hpcd. unfold _get_plane_from_pcd. rewrite Hpcd. split.
  - intros ->. reflexivity.
  - intros Hne. destruct pcd0 as [ | p pcd]; [congruence | ].
    cbn [fmap list_fmap].
    destruct (coordinates_cons (transform flip_yz p) (transform flip_yz <$> pcd))
      as (x & rest & ->).
    cbn [np_reduce]. exists (foldl fmax x rest), (foldl fmin x rest).
    split; [reflexivity | ]. split; [reflexivity | ]. split; [reflexivity | ].
    assert (Hs : F64.not_negative
                   (F64.div (F64.abs (F64.sub (foldl fmax x rest) (foldl fmin x rest)))
                      (F64.of_Z 100)) = true).
    { apply not_negative_div; [apply not_negative_abs | reflexivity]. }
    split; [apply not_negative_ltb | apply not_negative_not_minus_zero]; exact Hs.
Qed.

(** The region of six pixels at depth 2: the coordinates of the flipped
    cloud run from -2 to 2, the threshold is 4 / 100; and the frame
    without a point. *)
Lemma get_plane_from_pcd_call_witness :
  (exists mx mn,
     np_reduce fmax (coordinates (transform flip_yz <$> [Sim.pt 0 0 2; Sim.pt 1 0 2;
         Sim.pt 2 0 2; Sim.pt 0 1 2; Sim.pt 1 1 2; Sim.pt 2 1 2])) = Ok mx
     /\ np_reduce fmin (coordinates (transform flip_yz <$> [Sim.pt 0 0 2; Sim.pt 1 0 2;
         Sim.pt 2 0 2; Sim.pt 0 1 2; Sim.pt 1 1 2; Sim.pt 2 1 2])) = Ok mn
     /\ @_get_plane_from_pcd (Sim.o3d 3) tt Sim.depth2
        = Sim.first_points 3 tt (transform flip_yz <$> [Sim.pt 0 0 2; Sim.pt 1 0 2;
            Sim.pt 2 0 2; Sim.pt 0 1 2; Sim.pt 1 1 2; Sim.pt 2 1 2])
            (F64.div (F64.abs (F64.sub mx mn)) (F64.of_Z 100)) 3%nat 100%nat
     /\ F64.ltb (F64.div (F64.abs (F64.sub mx mn)) (F64.of_Z 100)) F64.zero = false
     /\ F64.div (F64.abs (F64.sub mx mn)) (F64.of_Z 100) <> S754_zero true)
  /\ @_get_plane_from_pcd (Sim.o3d 3) tt (Np.full (2%nat, 3%nat) F64.zero)
     = (tt, Err ValueError)
  /\ np_reduce fmax (coordinates (transform flip_yz <$> [Sim.pt 0 0 2; Sim.pt 1 0 2;
        Sim.pt 2 0 2; Sim.pt 0 1 2; Sim.pt 1 1 2; Sim.pt 2 1 2])) = Ok (Sim.fl 2)
  /\ np_reduce fmin (coordinates (transform flip_yz <$> [Sim.pt 0 0 2; Sim.pt 1 0 2;
        Sim.pt 2 0 2; Sim.pt 0 1 2; Sim.pt 1 1 2; Sim.pt 2 1 2])) = Ok (Sim.fl (-2)).
Proof.
  split; [ | split; [ | split]].
  - apply (proj2 (@get_plane_from_pcd_call (Sim.o3d 3) tt Sim.depth2
                    [Sim.pt 0 0 2; Sim.pt 1 0 2; Sim.pt 2 0 2;
                     Sim.pt 0 1 2; Sim.pt 1 1 2; Sim.pt 2 1 2]
                    ltac:(vm_compute; reflexivity))).
    discriminate.
  - apply (proj1 (@get_plane_from_pcd_call (Sim.o3d 3) tt
                    (Np.full (2%nat, 3%nat) F64.zero) [] ltac:(vm_compute; reflexivity))).
    reflexivity.
  - vm_compute. reflexivity.
  - vm_compute. reflexivity.
Defined.

(** ** [get_plane_img] *)

Section PlaneImage.
Context `{PyRandom}.

Lemma draw_color_bright (g : seed) : randint_in_range -> bright (snd (draw_color g)).
Proof.
  intros Hr. unfold draw_color.
  pose proof (Hr g 1 255 ltac:(lia)) as H0.
  destruct (randint g 1 255) as [g1 c0].
  pose proof (Hr g1 1 255 ltac:(lia)) as H1.
  destruct (randint g1 1 255) as [g2 c1].
  pose proof (Hr g2 1 255 ltac:(lia)) as H2.
  destruct (randint g2 1 255) as [g3 c2].
  cbn [snd fst] in *. unfold bright. cbn [fst snd]. tauto.
Qed.

(** The flat indices of [np.where(a)] are the cells that satisfy [p]. *)
Lemma where_flat {A} (p : A -> bool) (a : ndarray A) :
  Np.wf a ->
  (fun xy => (fst xy * Np.ncols a + snd xy)%nat) <$> Np.where_ p a
  = Np.find_from p 0 (Np.cells a).
Proof.
  intros Hwf. unfold Np.where_. rewrite <- list_fmap_compose.
  rewrite <- (list_fmap_id (Np.find_from p 0 (Np.cells a))) at 2.
  apply Forall_fmap_ext. apply Forall_forall. intros i Hi. cbn [compose fst snd].
  apply find_from_spec in Hi as (_ & v & Hv & _).
  apply lookup_lt_Some in Hv. unfold Np.wf in Hwf.
  assert (Np.ncols a <> 0%nat) by nia.
  pose proof (Nat.div_mod i (Np.ncols a) ltac:(assumption)). cbn. lia.
Qed.

Lemma where_in_bounds {A} (p : A -> bool) (a : ndarray A) (xy : nat * nat) :
  Np.wf a -> xy ∈ Np.where_ p a ->
  (fst xy <? Np.nrows a)%nat && (snd xy <? Np.ncols a)%nat = true.
Proof.
  intros Hwf Hxy. unfold Np.where_ in Hxy.
  apply list_elem_of_fmap in Hxy as (i & -> & Hi). cbn [fst snd].
  apply find_from_spec in Hi as (_ & v & Hv & _).
  apply lookup_lt_Some in Hv. unfold Np.wf in Hwf.
  assert (Hc : Np.ncols a <> 0%nat) by nia.
  apply andb_true_iff. split; apply Nat.ltb_lt.
  - apply Nat.Div0.div_lt_upper_bound. lia.
  - apply Nat.mod_upper_bound. exact Hc.
Qed.

(** One mask painted on an image of its shape. *)
Lemma paint_one (color : Z * Z * Z) (res : image) (m : array) :
  Np.wf res -> Np.like (truth m) res = true ->
  exists res',
    Np.set_all color res (where_set m) = Ok res'
    /\ Np.like res' res = true
    /\ forall k, Np.cells res' !! k =
         (if decide (Np.cells (truth m) !! k = Some true)
          then Some color else Np.cells res !! k).
Proof.
  intros Hwf Hlike. apply like_spec in Hlike as (Hr & Hc & Hlen).
  assert (Hwfm : Np.wf (truth m)) by (unfold Np.wf in *; congruence).
  unfold Np.set_all.
  assert (Hall : forallb (fun p => (fst p <? Np.nrows res)%nat && (snd p <? Np.ncols res)%nat)
                   (where_set m) = true).
  { apply forallb_forall. intros xy Hxy. apply list_elem_of_In in Hxy.
    rewrite <- Hr, <- Hc. exact (where_in_bounds _ _ _ Hwfm Hxy). }
  rewrite Hall. eexists. split; [reflexivity | ]. split.
  - apply like_spec. cbn [Np.nrows Np.ncols Np.cells].
    rewrite foldl_insert_length. auto.
  - intros k. cbn [Np.cells].
    assert (Hflat : (fun p => (fst p * Np.ncols res + snd p)%nat) <$> where_set m
                    = Np.find_from (fun b : bool => b) 0 (Np.cells (truth m))).
    { rewrite <- Hc. apply where_flat. exact Hwfm. }
    destruct (decide (Np.cells (truth m) !! k = Some true)) as [Hk | Hk].
    + apply foldl_insert_hit.
      * rewrite Hflat. apply find_from_spec. split; [lia | ].
        exists true. rewrite Nat.sub_0_r. split; [exact Hk | reflexivity].
      * apply lookup_lt_Some in Hk. lia.
    + apply foldl_insert_other. rewrite Hflat. intros Hin.
      apply find_from_spec in Hin as (_ & v & Hv & Hp). rewrite Nat.sub_0_r in Hv.
      destruct v; [contradiction | discriminate].
Qed.

Lemma paint_loop_spec (ls_map_arrs : list array) :
  randint_in_range ->
  forall (res : image) (g : seed),
    Np.wf res ->
    Forall (fun m => Np.like (truth m) res = true) ls_map_arrs ->
    exists g' res',
      paint_loop ls_map_arrs res g = (g', Ok res')
      /\ Np.like res' res = true
      /\ forall k c, Np.cells res !! k = Some c ->
           (~ painted ls_map_arrs k -> Np.cells res' !! k = Some c)
           /\ (painted ls_map_arrs k ->
               exists c', Np.cells res' !! k = Some c' /\ bright c').
Proof.
  intros Hrand. induction ls_map_arrs as [ | m rest IH]; intros res g Hwf Hall.
  - exists g, res. split; [reflexivity | ]. split.
    + apply like_spec. auto.
    + intros k c Hc. split; [intros _; exact Hc | ].
      intros Hp. apply Exists_nil in Hp. contradiction.
  - apply Forall_cons in Hall as [Hm Hrest]. cbn [paint_loop].
    pose proof (draw_color_bright g Hrand) as Hbright.
    destruct (draw_color g) as [g1 color]. cbn [snd] in Hbright.
    destruct (paint_one color res m Hwf Hm) as (res1 & Hset & Hlike1 & Hcell1).
    rewrite Hset.
    pose proof Hlike1 as Hl1. apply like_spec in Hl1 as (Hr1 & Hc1 & Hlen1).
    assert (Hwf1 : Np.wf res1) by (unfold Np.wf in *; congruence).
    destruct (IH res1 g1 Hwf1) as (g' & res' & Hrun & Hlike' & Hcell').
    { eapply Forall_impl; [exact Hrest | ]. intros x Hx.
      apply like_spec. apply like_spec in Hx. lia. }
    exists g', res'. split; [exact Hrun | ]. split.
    { apply like_spec. apply like_spec in Hlike'. lia. }
    intros k c Hc.
    assert (Hk1 : exists c1, Np.cells res1 !! k = Some c1).
    { apply lookup_lt_is_Some. apply lookup_lt_Some in Hc. lia. }
    destruct Hk1 as [c1 Hk1]. destruct (Hcell' k c1 Hk1) as [Hkeep Hpaint].
    split.
    + intros Hnot. rewrite Hkeep.
      * rewrite Hcell1 in Hk1. destruct (decide _) as [Hm1 | _]; [ | congruence].
        exfalso. apply Hnot. left. exact Hm1.
      * intros Hp. apply Hnot. right. exact Hp.
    + intros Hp.
      destruct (decide (Exists (fun m => Np.cells (truth m) !! k = Some true) rest))
        as [Hin | Hout].
      * apply Hpaint. exact Hin.
      * exists c1. split; [apply Hkeep; exact Hout | ].
        apply Exists_cons in Hp as [Hm1 | Hr]; [ | contradiction].
        rewrite Hcell1 in Hk1. destruct (decide _) as [_ | Hn]; [ | contradiction].
        injection Hk1 as <-. exact Hbright.
Qed.

End PlaneImage.

(** On masks of the shape of the image, [get_plane_img] returns an image
    of the same shape in which every pixel outside the masks is the pixel
    of the input, and every pixel of a mask has a colour whose three
    channels lie between 1 and 255. *)
Theorem get_plane_img_paints `{PyRandom} (g : seed) (img : image)
    (ls_map_arrs : list array) :
  randint_in_range -> Np.wf img ->
  Forall (fun m => Np.like (truth m) img = true) ls_map_arrs ->
  exists g' res,
    get_plane_img g img ls_map_arrs = (g', Ok res)
    /\ Np.like res img = true
    /\ forall k c, Np.cells img !! k = Some c ->
         (~ painted ls_map_arrs k -> Np.cells res !! k = Some c)
         /\ (painted ls_map_arrs k ->
             exists c', Np.cells res !! k = Some c' /\ bright c').
Proof.
  intros Hrand Hwf Hall. unfold get_plane_img.
  apply paint_loop_spec; assumption.
Qed.

(** The simple [pow] is the correctly rounded product. *)
Lemma sim_pow_2_product (v : float) : @pow_2 Sim.libm v = F64.mul v v.
Proof.
  cbn [pow_2 Sim.libm]. pose proof (not_negative_square v) as Hv.
  destruct (F64.mul v v) as [[ | ] | [ | ] | | [ | ] m e]; try discriminate; reflexivity.
Qed.

Lemma sim_randint_in_range : @randint_in_range Sim.rnd.
Proof.
  intros g lo hi Hle. cbn [randint Sim.rnd Sim.cycle snd].
  pose proof (Z.mod_pos_bound (Z.of_nat g) (hi - lo + 1) ltac:(lia)). lia.
Qed.

(** A black 2x2 image under a left column and a top row. *)
Lemma get_plane_img_paints_witness :
  exists g' res,
    @get_plane_img Sim.rnd 0%nat Sim.black [Sim.mask_left; Sim.mask_top] = (g', Ok res)
    /\ Np.like res Sim.black = true
    /\ forall k c, Np.cells Sim.black !! k = Some c ->
         (~ painted [Sim.mask_left; Sim.mask_top] k -> Np.cells res !! k = Some c)
         /\ (painted [Sim.mask_left; Sim.mask_top] k ->
             exists c', Np.cells res !! k = Some c' /\ bright c').
Proof.
  apply (@get_plane_img_paints Sim.rnd 0%nat Sim.black [Sim.mask_left; Sim.mask_top]).
  - apply sim_randint_in_range.
  - reflexivity.
  - repeat constructor.
Defined.

(** The masks [get_connected_components] returns are the masks of labels
    between 1 and [num - 1], each label at most once and in increasing
    order: the background label 0 is never returned, and there are at most
    [num - 1] components. *)
Theorem components_in_label_order `{OpenCV} (depth_map : ndarray float) (th : float)
    (num : Z) (result : ndarray Z) (comps : list (ndarray float * ndarray Z)) :
  connectedComponents (foreground depth_map) = Ok (num, result) ->
  get_connected_components depth_map th = Ok comps ->
  exists kept,
    snd <$> comps = label_mask result <$> kept
    /\ sublist kept (range 1 num)
    /\ NoDup kept
    /\ Forall (fun i => 1 <= i < num) kept
    /\ (length comps <= Z.to_nat (num - 1))%nat.
Proof.
  intros Hcc Hrun. unfold get_connected_components in Hrun.
  rewrite Hcc in Hrun. cbn [bind] in Hrun.
  apply components_loop_masks in Hrun as (kept & Hsub & Hmasks).
  cbn [fmap list_fmap app] in Hmasks.
  exists kept. split; [exact Hmasks | ]. split; [exact Hsub | ]. split; [ | split].
  - eapply sublist_NoDup; [apply range_NoDup | exact Hsub].
  - apply Forall_forall. intros i Hi.
    assert (Hin : i ∈ range 1 num) by (eapply elem_of_sublist; eassumption).
    unfold range in Hin. apply list_elem_of_fmap in Hin as (k & -> & Hk).
    apply elem_of_seq in Hk. lia.
  - apply sublist_length in Hsub.
    rewrite <- (length_fmap snd comps), Hmasks, length_fmap.
    unfold range in Hsub. rewrite length_fmap, length_seq in Hsub. exact Hsub.
Qed.

(** Two of the three rows of the 3x3 depth map hold a component. *)
Lemma components_in_label_order_witness :
  exists kept,
    snd <$> [(Np.map F64.to_f32 (Np.mk_ndarray 3 3 (Sim.fl <$> [2; 4; 0; 0; 0; 0; 0; 0; 0])),
              label_mask (Np.mk_ndarray 3 3 [1; 1; 0; 0; 0; 0; 0; 3; 3]) 1);
             (Np.map F64.to_f32 (Np.mk_ndarray 3 3 (Sim.fl <$> [0; 0; 0; 0; 0; 0; 0; 5; 5])),
              label_mask (Np.mk_ndarray 3 3 [1; 1; 0; 0; 0; 0; 0; 3; 3]) 3)]
    = label_mask (Np.mk_ndarray 3 3 [1; 1; 0; 0; 0; 0; 0; 3; 3]) <$> kept
    /\ sublist kept (range 1 4)
    /\ NoDup kept
    /\ Forall (fun i => 1 <= i < 4) kept
    /\ (2 <= Z.to_nat (4 - 1))%nat.
Proof.
  apply (@components_in_label_order Sim.cv Sim.depth_rows (Sim.ratio 3 10) 4
           (Np.mk_ndarray 3 3 [1; 1; 0; 0; 0; 0; 0; 3; 3])
           [(Np.map F64.to_f32 (Np.mk_ndarray 3 3 (Sim.fl <$> [2; 4; 0; 0; 0; 0; 0; 0; 0])),
             label_mask (Np.mk_ndarray 3 3 [1; 1; 0; 0; 0; 0; 0; 3; 3]) 1);
            (Np.map F64.to_f32 (Np.mk_ndarray 3 3 (Sim.fl <$> [0; 0; 0; 0; 0; 0; 0; 5; 5])),
             label_mask (Np.mk_ndarray 3 3 [1; 1; 0; 0; 0; 0; 0; 3; 3]) 3)]).
  - vm_compute. reflexivity.
  - vm_compute. reflexivity.
Defined.
